(** * YouTube Data MCP server: identifier resolution, page scraping and
      comment normalisation

    A shallow embedding of [src/utils/helpers.ts] ([getVideoId],
    [fetchBasicVideoInfo]) and of [src/index.ts] ([getVideoInfoData],
    [getCommentsData], [getRepliesData] and the [getReplies] and
    [getCommentReplies] tool handlers), followed by the properties of the
    specification that concern them.

    Conventions of the embedding.
    - A JavaScript string is a [string]: a sequence of code units, here the
      8-bit ones.  The regular expressions of the program only name ASCII
      characters, and the case mappings used are the ones of that range.
    - Upstream JSON is dynamically typed in the source ([any]); it is a
      [Js.value] here, with the property access, truthiness and [||] of
      JavaScript written out.  Numbers are the integral ones ([Z]).
    - [async] code that talks to the network runs in the monad [M]: it threads
      the list of requests issued so far and may throw.  What the network
      answers is a section variable.
    - [console.error] writes to a side channel only and is left out; note
      however that the argument [Object.keys(data)] of one such call can
      throw, and this is kept. *)

From Stdlib Require Import String Ascii List ZArith Bool Arith Lia.
From Stdlib Require Import DecimalString.
Import ListNotations.

Local Open Scope string_scope.
Local Open Scope list_scope.
Local Open Scope nat_scope.

(* ===================================================================== *)
(** ** Regular expressions, as far as the program uses them *)
(* ===================================================================== *)

Module Regex.

(** The fragment of the JavaScript regular-expression syntax that occurs in
    the source.  There is at most one capturing group per pattern. *)
Inductive regex : Type :=
| Eps                                (* empty pattern *)
| Bol                                (* ^ *)
| Eol                                (* $ *)
| Chr (c : ascii)                    (* a literal character *)
| ChrI (c : ascii)                   (* a literal character under /i *)
| Cls (p : ascii -> bool)            (* a character class *)
| Cat (r1 r2 : regex)                (* r1 r2 *)
| Opt (r : regex)                    (* (?:r)?  greedy *)
| Rep (n : nat) (r : regex)          (* r{n} *)
| Plus (p : ascii -> bool)           (* [class]+  greedy *)
| Grp (r : regex).                   (* ( r ), capturing group 1 *)

(** ASCII upper-casing, the canonicalisation of /i for the characters the
    patterns name. *)
Definition upcase (c : ascii) : ascii :=
  let n := nat_of_ascii c in
  if (97 <=? n) && (n <=? 122) then ascii_of_nat (n - 32) else c.

Definition eqb_ci (c d : ascii) : bool := Ascii.eqb (upcase c) (upcase d).

(** [[class]+] in continuation-passing style: the longest run first, then
    shorter ones on backtracking. *)
Fixpoint plus_from {R : Type} (p : ascii -> bool) (s : list ascii)
    (k : list ascii -> option R) : option R :=
  match s with
  | c :: s' =>
      if p c then
        match plus_from p s' k with
        | Some x => Some x
        | None => k s'
        end
      else None
  | [] => None
  end.

(** The backtracking matcher.  [bol] tells whether the current position is
    the start of the input, [s] is the rest of the input, [cap] the text of
    group 1 so far ([None]: the group has not taken part), and [k] is what
    remains to be matched.  The first success in priority order is
    returned, as the ECMAScript matcher does. *)
Fixpoint m {R : Type} (r : regex) (bol : bool) (s : list ascii)
    (cap : option (list ascii))
    (k : bool -> list ascii -> option (list ascii) -> option R) : option R :=
  match r with
  | Eps => k bol s cap
  | Bol => if bol then k bol s cap else None
  | Eol => match s with [] => k bol s cap | _ :: _ => None end
  | Chr c =>
      match s with
      | d :: s' => if Ascii.eqb c d then k false s' cap else None
      | [] => None
      end
  | ChrI c =>
      match s with
      | d :: s' => if eqb_ci c d then k false s' cap else None
      | [] => None
      end
  | Cls p =>
      match s with
      | d :: s' => if p d then k false s' cap else None
      | [] => None
      end
  | Cat r1 r2 => m r1 bol s cap (fun b' s' c' => m r2 b' s' c' k)
  | Opt r1 =>
      match m r1 bol s cap k with
      | Some x => Some x
      | None => k bol s cap
      end
  | Rep n r1 =>
      (fix rep (n : nat) (b : bool) (s : list ascii)
           (c : option (list ascii)) {struct n} : option R :=
         match n with
         | O => k b s c
         | S n' => m r1 b s c (fun b' s' c' => rep n' b' s' c')
         end) n bol s cap
  | Plus p => plus_from p s (fun s' => k false s' cap)
  | Grp r1 =>
      m r1 bol s cap
        (fun b' s' _ => k b' s' (Some (firstn (length s - length s') s)))
  end.

(** What a successful match yields: the text of group 1, if it took part. *)
Definition captures : Type := option (list ascii).

(** The search for the leftmost match: every start position in turn. *)
Fixpoint search (r : regex) (bol : bool) (s : list ascii) : option captures :=
  match m r bol s None (fun _ _ c => Some c) with
  | Some c => Some c
  | None =>
      match s with
      | [] => None
      | _ :: s' => search r false s'
      end
  end.

(** [str.match(re)] for a pattern without the g flag. *)
Definition exec (r : regex) (s : string) : option captures :=
  search r true (list_ascii_of_string s).

(** [re.test(str)]. *)
Definition test (r : regex) (s : string) : bool :=
  match exec r s with Some _ => true | None => false end.

(** [match[1]] of a successful match: a string, or undefined. *)
Definition group1 (c : captures) : option string :=
  option_map string_of_list_ascii c.

(** A literal string, and a literal string under /i. *)
Fixpoint lit_list (l : list ascii) : regex :=
  match l with
  | [] => Eps
  | c :: l' => Cat (Chr c) (lit_list l')
  end.

Definition lit (s : string) : regex := lit_list (list_ascii_of_string s).

Fixpoint lit_i_list (l : list ascii) : regex :=
  match l with
  | [] => Eps
  | c :: l' => Cat (ChrI c) (lit_i_list l')
  end.

Definition lit_i (s : string) : regex := lit_i_list (list_ascii_of_string s).

(** The words a pattern can consume: the declarative reading, used to state
    what a successful run of [m] means. *)
Fixpoint lang (r : regex) (w : list ascii) : Prop :=
  match r with
  | Eps | Bol | Eol => w = []
  | Chr c => w = [c]
  | ChrI c => exists d, w = [d] /\ eqb_ci c d = true
  | Cls p => exists d, w = [d] /\ p d = true
  | Cat r1 r2 => exists w1 w2, w = w1 ++ w2 /\ lang r1 w1 /\ lang r2 w2
  | Opt r1 => w = [] \/ lang r1 w
  | Rep n r1 =>
      (fix reps (n : nat) (w : list ascii) {struct n} : Prop :=
         match n with
         | O => w = []
         | S n' => exists w1 w2, w = w1 ++ w2 /\ lang r1 w1 /\ reps n' w2
         end) n w
  | Plus p => w <> [] /\ forallb p w = true
  | Grp r1 => lang r1 w
  end.

(** The least number of characters a pattern consumes. *)
Fixpoint minlen (r : regex) : nat :=
  match r with
  | Eps | Bol | Eol => 0
  | Chr _ | ChrI _ | Cls _ => 1
  | Cat r1 r2 => minlen r1 + minlen r2
  | Opt _ => 0
  | Rep n r1 => n * minlen r1
  | Plus _ => 1
  | Grp r1 => minlen r1
  end.

(** [needs c r]: every word of [r] contains the character [c] (a sufficient
    syntactic test). *)
Fixpoint needs (c : ascii) (r : regex) : bool :=
  match r with
  | Eps | Bol | Eol | ChrI _ | Cls _ | Opt _ | Plus _ => false
  | Chr d => Ascii.eqb d c
  | Cat r1 r2 => needs c r1 || needs c r2
  | Rep n r1 => negb (n =? 0) && needs c r1
  | Grp r1 => needs c r1
  end.

End Regex.

(* ===================================================================== *)
(** ** src/utils/helpers.ts, the pure part: [getVideoId] *)
(* ===================================================================== *)

Import Regex.

(** The class [[a-zA-Z0-9_-]]. *)
Definition idchar (c : ascii) : bool :=
  let n := nat_of_ascii c in
  ((97 <=? n) && (n <=? 122)) || ((65 <=? n) && (n <=? 90))
  || ((48 <=? n) && (n <=? 57)) || (n =? 95) || (n =? 45).

(** [/^[a-zA-Z0-9_-]{11}$/] *)
Definition ID_RE : regex := Cat Bol (Cat (Rep 11 (Cls idchar)) Eol).

(** [(?:https?:\/\/)?(?:www\.)?] *)
Definition url_prefix : regex :=
  Cat (Opt (Cat (lit "http") (Cat (Opt (Chr "s")) (lit "://"))))
      (Opt (lit "www.")).

(** [(?:https?:\/\/)?(?:www\.)?<literal>([a-zA-Z0-9_-]{11})] *)
Definition url_pattern (literal : string) : regex :=
  Cat url_prefix (Cat (lit literal) (Grp (Rep 11 (Cls idchar)))).

(** The five URL shapes, named after the path each pattern spells. *)
Inductive shape : Type := Watch | Embed | V | YoutuBe | Shorts.

Definition shape_literal (sh : shape) : string :=
  match sh with
  | Watch => "youtube.com/watch?v="
  | Embed => "youtube.com/embed/"
  | V => "youtube.com/v/"
  | YoutuBe => "youtu.be/"
  | Shorts => "youtube.com/shorts/"
  end.

Definition shapes : list shape := [Watch; Embed; V; YoutuBe; Shorts].

(** The array [patterns] of [getVideoId], in the order of the source. *)
Definition patterns : list regex :=
  [ url_pattern "youtube.com/watch?v=";
    url_pattern "youtube.com/embed/";
    url_pattern "youtube.com/v/";
    url_pattern "youtu.be/";
    url_pattern "youtube.com/shorts/" ].

(** [match && match[1]]: the pattern matched and group 1 is a non-empty
    string. *)
Definition match1 (pattern : regex) (s : string) : option string :=
  match exec pattern s with
  | Some c =>
      match group1 c with
      | Some g => if String.eqb g "" then None else Some g
      | None => None
      end
  | None => None
  end.

(** The loop [for (const pattern of patterns)]. *)
Fixpoint first_match (ps : list regex) (s : string) : option string :=
  match ps with
  | [] => None
  | pattern :: ps' =>
      match match1 pattern s with
      | Some g => Some g
      | None => first_match ps' s
      end
  end.

(** [getVideoId(urlOrId)]; [None] is [null]. *)
Definition getVideoId (urlOrId : string) : option string :=
  if test ID_RE urlOrId then Some urlOrId else first_match patterns urlOrId.

(** *** Notions used to state the properties of [getVideoId] *)

(** The canonical identifier pattern, read declaratively: exactly eleven
    characters, each a letter, a digit, a hyphen or an underscore. *)
Definition is_video_id (s : string) : bool :=
  (String.length s =? 11) && forallb idchar (list_ascii_of_string s).

(** The pattern of a shape and its place in the array [patterns]. *)
Definition pattern_of (sh : shape) : regex := url_pattern (shape_literal sh).

Definition shape_index (sh : shape) : nat :=
  match sh with Watch => 0 | Embed => 1 | V => 2 | YoutuBe => 3 | Shorts => 4 end.

(** The URLs of a shape: an optional scheme, an optional [www.], the
    literal of the shape, the identifier, and whatever follows it. *)
Definition schemes : list string := [""; "http://"; "https://"].

Definition wwws : list string := [""; "www."].

Definition shape_url (scheme www : string) (sh : shape) (id rest : string) : string :=
  (scheme ++ www ++ shape_literal sh ++ id ++ rest)%string.

(** No full stop occurs in [s]. *)
Definition no_dot (s : string) : bool :=
  forallb (fun c => negb (Ascii.eqb c "."%char)) (list_ascii_of_string s).

(* ===================================================================== *)
(** ** JavaScript values *)
(* ===================================================================== *)

Module Js.

(** A JavaScript value as [JSON.parse] can produce it, and [undefined].  An
    object is the list of its own properties; [lookup] finds a property by
    name.  The numbers are the integers: fractions and the non-finite
    numbers that an overlong literal parses to are left out. *)
#[warnings="-register-all"] Inductive value : Type :=
| VUndefined
| VNull
| VBool (b : bool)
| VNum (n : Z)
| VStr (s : string)
| VArr (items : list value)
| VObj (fields : list (string * value)).

(** Thrown values.  All of them are [Error] objects; the constructor is the
    class and the argument the [message]. *)
Inductive exn : Type :=
| Error (message : string)
| TypeError (message : string)
| SyntaxError (message : string).

Definition message (e : exn) : string :=
  match e with Error msg | TypeError msg | SyntaxError msg => msg end.

(** An evaluation returns or throws. *)
Inductive outcome (A : Type) : Type :=
| Ok (a : A)
| Throw (e : exn).
Arguments Ok {A} a.
Arguments Throw {A} e.

Definition obind {A B : Type} (o : outcome A) (f : A -> outcome B) : outcome B :=
  match o with
  | Ok a => f a
  | Throw e => Throw e
  end.

(** ToBoolean. *)
Definition truthy (v : value) : bool :=
  match v with
  | VUndefined | VNull => false
  | VBool b => b
  | VNum n => negb (n =? 0)%Z
  | VStr s => negb (String.eqb s "")
  | VArr _ | VObj _ => true
  end.

(** [a || b]. *)
Definition or_ (a b : value) : value := if truthy a then a else b.

Fixpoint lookup (k : string) (fields : list (string * value)) : option value :=
  match fields with
  | [] => None
  | (k', v) :: rest => if String.eqb k k' then Some v else lookup k rest
  end.

(** [v.k] for a property name [k] that is no array index and no member of a
    prototype other than [length] (the program reads no other): a
    [TypeError] on [undefined] and [null], the own property of an object,
    [undefined] when there is none. *)
Definition get (v : value) (k : string) : outcome value :=
  match v with
  | VUndefined =>
      Throw (TypeError
        ("Cannot read properties of undefined (reading '" ++ k ++ "')"))
  | VNull =>
      Throw (TypeError
        ("Cannot read properties of null (reading '" ++ k ++ "')"))
  | VObj fields =>
      Ok (match lookup k fields with Some x => x | None => VUndefined end)
  | VArr items =>
      Ok (if String.eqb k "length" then VNum (Z.of_nat (List.length items))
          else VUndefined)
  | VStr s =>
      Ok (if String.eqb k "length" then VNum (Z.of_nat (String.length s))
          else VUndefined)
  | VBool _ | VNum _ => Ok VUndefined
  end.

(** [v?.k]. *)
Definition opt_get (v : value) (k : string) : outcome value :=
  match v with
  | VUndefined | VNull => Ok VUndefined
  | _ => get v k
  end.

(** [Array.isArray(v)]. *)
Definition isArray (v : value) : bool :=
  match v with VArr _ => true | _ => false end.

(** The elements of an array. *)
Definition items (v : value) : list value :=
  match v with VArr l => l | _ => [] end.

(** [String(n)] for an integral number. *)
Definition string_of_Z (n : Z) : string := NilZero.string_of_int (Z.to_int n).

(** [Object.keys(v)]: throws on [undefined] and [null]; the own enumerable
    property names otherwise (the indices for arrays and strings). *)
Definition indices (n : nat) : list string :=
  map (fun i => string_of_Z (Z.of_nat i)) (seq 0 n).

Definition Object_keys (v : value) : outcome (list string) :=
  match v with
  | VUndefined | VNull =>
      Throw (TypeError "Cannot convert undefined or null to object")
  | VObj fields => Ok (map fst fields)
  | VArr items => Ok (indices (List.length items))
  | VStr s => Ok (indices (String.length s))
  | VBool _ | VNum _ => Ok []
  end.

(** [String.prototype.toLowerCase] on the code units below 256. *)
Definition lower (c : ascii) : ascii :=
  let n := nat_of_ascii c in
  if ((65 <=? n) && (n <=? 90))
     || ((192 <=? n) && (n <=? 222) && negb (n =? 215))
  then ascii_of_nat (n + 32) else c.

Fixpoint toLowerCase (s : string) : string :=
  match s with
  | EmptyString => EmptyString
  | String c s' => String (lower c) (toLowerCase s')
  end.

(** [s.includes(sub)]. *)
Fixpoint includes (sub s : string) : bool :=
  if String.prefix sub s then true
  else match s with
       | EmptyString => false
       | String _ s' => includes sub s'
       end.

(** [v.toLowerCase()] on a dynamically typed [v]. *)
Definition call_toLowerCase (v : value) : outcome string :=
  match v with
  | VStr s => Ok (toLowerCase s)
  | VUndefined =>
      Throw (TypeError
        "Cannot read properties of undefined (reading 'toLowerCase')")
  | VNull =>
      Throw (TypeError
        "Cannot read properties of null (reading 'toLowerCase')")
  | _ => Throw (TypeError "token.title.toLowerCase is not a function")
  end.

(** [arr.slice(0, end)]: a negative [end] counts from the end of the
    array. *)
Definition slice0 {A : Type} (arr : list A) (end_ : Z) : list A :=
  let len := Z.of_nat (List.length arr) in
  let final := if (end_ <? 0)%Z then Z.max (len + end_) 0 else Z.min end_ len in
  firstn (Z.to_nat final) arr.

(** [arr.map(f)] where [f] may throw: the first exception wins. *)
Fixpoint mapM {A B : Type} (f : A -> outcome B) (l : list A) : outcome (list B) :=
  match l with
  | [] => Ok []
  | a :: l' =>
      obind (f a) (fun b => obind (mapM f l') (fun bs => Ok (b :: bs)))
  end.

End Js.

Import Js.

Notation "'let!' x ':=' e 'in' k" := (obind e (fun x => k))
  (at level 10, x name, e at level 100, k at level 200).
Notation "a '|||' b" := (or_ a b) (at level 50, left associativity).

(* ===================================================================== *)
(** ** The network, and code that awaits it *)
(* ===================================================================== *)

(** A GET request: the URL the program starts from and the query parameters
    it appends with [searchParams.append], in order, before serialisation. *)
Record request : Type := Get {
  req_url : string;
  req_query : list (string * value)
}.

(** A response: [status], the body as [text()] returns it and as [json()]
    parses it ([None]: the body is not JSON). *)
Record response : Type := Response {
  status : Z;
  body_text : string;
  body_json : option value
}.

(** [response.ok] *)
Definition ok (r : response) : bool :=
  ((200 <=? status r) && (status r <=? 299))%Z.

(** What [fetch] settles to: a rejection (the transport failed) or a
    response. *)
Inductive reply : Type :=
| Rejected (reason : string)
| Answered (r : response).

(** The requests issued so far, oldest first. *)
Definition trace : Type := list request.

(** A computation that may issue requests and may throw. *)
Definition M (A : Type) : Type := trace -> outcome A * trace.

Definition ret {A : Type} (a : A) : M A := fun t => (Ok a, t).

Definition throw {A : Type} (e : exn) : M A := fun t => (Throw e, t).

Definition bind {A B : Type} (c : M A) (f : A -> M B) : M B :=
  fun t =>
    match c t with
    | (Ok a, t') => f a t'
    | (Throw e, t') => (Throw e, t')
    end.

(** [try { c } catch (error) { h error }] *)
Definition try_catch {A : Type} (c : M A) (h : exn -> M A) : M A :=
  fun t =>
    match c t with
    | (Ok a, t') => (Ok a, t')
    | (Throw e, t') => h e t'
    end.

(** A pure evaluation inside awaiting code. *)
Definition lift {A : Type} (o : outcome A) : M A := fun t => (o, t).

Notation "x <- c ;; k" := (bind c (fun x => k))
  (at level 61, c at next level, right associativity).

(** [response.json()] *)
Definition json (r : response) : M value :=
  match body_json r with
  | Some v => ret v
  | None => throw (SyntaxError "Unexpected token in JSON")
  end.

(** The four fields [fetchBasicVideoInfo] returns; [None] is [undefined]. *)
Record BasicVideoInfo : Type := mkBasicVideoInfo {
  basic_title : option string;
  basic_channelName : option string;
  basic_publishedAt : option string;
  basic_viewCount : option string
}.

(** [interface VideoInfoResponse]; the optional fields hold whatever the
    upstream JSON held. *)
Record VideoInfoResponse : Type := mkVideoInfoResponse {
  videoId : string;
  title : value;
  viewCount : value;
  publishDate : value;
  channelName : value;
  commentCount : value;
  commentsNextPageToken : value;
  commentsSortingTokens : value
}.

(** [interface SortingToken] and its JSON form. *)
Record SortingToken : Type := mkSortingToken {
  st_title : string;
  st_token : string
}.

Definition SortingToken_json (t : SortingToken) : value :=
  VObj [("title", VStr (st_title t)); ("token", VStr (st_token t))].

Inductive sort_order : Type := relevance | time.

(** [interface CommentsParams]; [None] is an omitted field. *)
Record CommentsParams : Type := mkCommentsParams {
  cp_url : string;
  cp_limit : option Z;
  cp_sort : option sort_order;
  cp_pageToken : option string
}.

(** One mapped comment (the object literal of [getCommentsData]). *)
Record Comment : Type := mkComment {
  commentId : value;
  author : value;
  text : value;
  time_ : value;
  likes : value;
  replies : value;
  repliesToken : value
}.

(** One mapped reply (the object literal of [getRepliesData]). *)
Record Reply : Type := mkReply {
  reply_commentId : value;
  reply_author : value;
  reply_text : value;
  reply_time : value;
  reply_likes : value
}.

Record CommentsPage : Type := mkCommentsPage {
  page_videoId : value;
  page_videoTitle : value;
  comments : list Comment;
  page_commentCount : Z;
  page_nextPageToken : value
}.

Record RepliesPage : Type := mkRepliesPage {
  parentCommentId : value;
  page_replies : list Reply;
  replyCount : Z;
  replies_nextPageToken : value
}.

(** What a tool handler returns: its single text content is either
    [JSON.stringify(result, null, 2)] or [`Error: ${msg}`].  [ResultText]
    keeps [result], the object that is serialised; the serialisation
    itself is not part of the model, so what is proved of a [ResultText]
    is proved of that object, not of the printed text. *)
Inductive tool_text (A : Type) : Type :=
| ResultText (result : A)
| ErrorText (msg : string).
Arguments ResultText {A} result.
Arguments ErrorText {A} msg.

(** Truthiness of an optional string: present and not empty. *)
Definition given (o : option string) : bool :=
  match o with
  | Some s => negb (String.eqb s "")
  | None => false
  end.

Definition SERPAPI_BASE_URL : string := "https://serpapi.com/search.json".

(* ===================================================================== *)
(** ** src/utils/helpers.ts, the part that fetches: [fetchBasicVideoInfo] *)
(* ===================================================================== *)

(** The double quote character, the class of white space (backslash s) and
    the class of everything but the double quote. *)
Definition dq : string := String (ascii_of_nat 34) EmptyString.

Definition space (c : ascii) : bool :=
  let n := nat_of_ascii c in
  ((9 <=? n) && (n <=? 13)) || (n =? 32) || (n =? 160).

Definition not_dq (c : ascii) : bool := negb (nat_of_ascii c =? 34).

(** The pattern, under the flag i, that spells: <meta, white space, name=
    and the quoted [name], white space, content= and, between double
    quotes, a captured non-empty run of characters other than the double
    quote. *)
Definition meta_pattern (name : string) : regex :=
  Cat (lit_i "<meta")
    (Cat (Plus space)
       (Cat (lit_i ("name=" ++ dq ++ name ++ dq)%string)
          (Cat (Plus space)
             (Cat (lit_i ("content=" ++ dq)%string)
                (Cat (Grp (Plus not_dq)) (lit_i dq)))))).

(** The pattern that spells: the quoted [field], a colon and, between
    double quotes, a captured non-empty run of characters other than the
    double quote. *)
Definition field_pattern (field : string) : regex :=
  Cat (lit (dq ++ field ++ dq ++ ":" ++ dq)%string)
    (Cat (Grp (Plus not_dq)) (lit dq)).

(** [const x = html.match(re); x ? x[1] : undefined] *)
Definition extract (re : regex) (html : string) : option string :=
  match exec re html with
  | Some c => group1 c
  | None => None
  end.

Section Server.

(** [process.env.SERPAPI_KEY] *)
Variable SERPAPI_KEY : option string.

(** What the network answers to a request, given the requests issued
    before it. *)
Variable network : trace -> request -> reply.

(** [await fetch(...)]: the request is issued, then the promise settles. *)
Definition fetch (rq : request) : M response :=
  fun t =>
    match network t rq with
    | Rejected reason => (Throw (TypeError reason), t ++ [rq])
    | Answered r => (Ok r, t ++ [rq])
    end.

(** [fetchBasicVideoInfo(videoId)] *)
Definition fetchBasicVideoInfo (videoId : string) : M BasicVideoInfo :=
  try_catch
    (response <- fetch (Get ("https://www.youtube.com/watch?v=" ++ videoId) []) ;;
     if negb (ok response) then
       throw (Error ("HTTP error! status: " ++ string_of_Z (status response)))
     else
       let html := body_text response in
       ret {| basic_title := extract (meta_pattern "title") html;
              basic_channelName := extract (meta_pattern "author") html;
              basic_publishedAt := extract (field_pattern "publishDate") html;
              basic_viewCount := extract (field_pattern "viewCount") html |})
    (fun error =>
       ret {| basic_title := None;
              basic_channelName := None;
              basic_publishedAt := None;
              basic_viewCount := None |}).

(* ===================================================================== *)
(** ** src/index.ts *)
(* ===================================================================== *)

(** The handlers of [index.ts] that only log and rethrow:
    [try { c } catch (error) { console.error(...); throw error }]. *)
Definition logged {A : Type} (c : M A) : M A := try_catch c (fun error => throw error).

(** The check every upstream call repeats:
    [if (!response.ok) throw new Error(`SerpAPI error: ...`)], then
    [response.json()] and the debug line that lists [Object.keys(data)]. *)
Definition read_json (response : response) : M value :=
  if negb (ok response) then
    throw (Error ("SerpAPI error: " ++ string_of_Z (status response) ++ " - "
                  ++ body_text response))
  else
    data <- json response ;;
    _ <- lift (Object_keys data) ;;
    ret data.

(** [getVideoInfoData({ url })] *)
Definition getVideoInfoData (url : string) : M VideoInfoResponse :=
  logged
    (match getVideoId url with
     | Some videoId =>
         if negb (given (Some videoId)) then
           throw (Error "Invalid YouTube URL or video ID")
         else if negb (given SERPAPI_KEY) then
           throw (Error "SERPAPI_KEY is not set in environment variables")
         else
           let api_key := match SERPAPI_KEY with Some k => k | None => "" end in
           response <- fetch (Get SERPAPI_BASE_URL
                                [("api_key", VStr api_key);
                                 ("engine", VStr "youtube_video");
                                 ("v", VStr videoId)]) ;;
           data <- read_json response ;;
           lift (let! title := get data "title" in
                 let! views := get data "views" in
                 let! published_date := get data "published_date" in
                 let! channel := get data "channel" in
                 let! name := opt_get channel "name" in
                 let! extracted_comment_count := get data "extracted_comment_count" in
                 let! comments_next_page_token := get data "comments_next_page_token" in
                 let! comments_sorting_token := get data "comments_sorting_token" in
                 Ok {| videoId := videoId;
                       title := title;
                       viewCount := views;
                       publishDate := published_date;
                       channelName := name;
                       commentCount := extracted_comment_count;
                       commentsNextPageToken := comments_next_page_token;
                       commentsSortingTokens := comments_sorting_token |})
     | None => throw (Error "Invalid YouTube URL or video ID")
     end).

(** The callback of [find] in [getCommentsData]:
    [token.title.toLowerCase().includes('newest')]. *)
Definition is_newest (token : value) : outcome bool :=
  let! title := get token "title" in
  let! lowered := call_toLowerCase title in
  Ok (includes "newest" lowered).

(** [tokens.find(is_newest)] on an array; [VUndefined] when nothing is
    found. *)
Fixpoint find_newest (tokens : list value) : outcome value :=
  match tokens with
  | [] => Ok VUndefined
  | token :: rest =>
      let! hit := is_newest token in
      if hit then Ok token else find_newest rest
  end.

(** [videoInfo.commentsSortingTokens.find(...)] on a truthy value. *)
Definition call_find_newest (v : value) : outcome value :=
  match v with
  | VArr tokens => find_newest tokens
  | _ => Throw (TypeError "videoInfo.commentsSortingTokens.find is not a function")
  end.

(** The value of [tokenToUse] when the guard [if (!tokenToUse)] is reached
    (lines 219-230 of [getCommentsData]). *)
Definition tokenToUse (sort : sort_order) (videoInfo : VideoInfoResponse)
    : outcome value :=
  match sort with
  | time =>
      if truthy (commentsSortingTokens videoInfo) then
        let! newestFirstToken := call_find_newest (commentsSortingTokens videoInfo) in
        if truthy newestFirstToken then get newestFirstToken "token"
        else Ok (commentsNextPageToken videoInfo)
      else Ok (commentsNextPageToken videoInfo)
  | relevance => Ok (commentsNextPageToken videoInfo)
  end.

(** The callback of [map] in [getCommentsData]. *)
Definition mapComment (comment : value) : outcome Comment :=
  let! comment_id := get comment "comment_id" in
  let! channel := get comment "channel" in
  let! name := opt_get channel "name" in
  let! content := get comment "content" in
  let! published_date := get comment "published_date" in
  let! extracted_vote_count := get comment "extracted_vote_count" in
  let! replies_count := get comment "replies_count" in
  let! replies_next_page_token := get comment "replies_next_page_token" in
  Ok {| commentId := comment_id ||| VStr "";
        author := name ||| VStr "Anonymous";
        text := content ||| VStr "";
        time_ := published_date ||| VStr "";
        likes := extracted_vote_count ||| VNum 0;
        replies := replies_count ||| VNum 0;
        repliesToken := replies_next_page_token ||| VNull |}.

(** The comments-page mapping: what [getCommentsData] does with the parsed
    response [data] (from [const videoId = data.video_id || ...] to the
    final [return]). *)
Definition commentsPageMapping (data : value) (extractedVideoId : string)
    (limit : Z) : outcome CommentsPage :=
  let! video_id := get data "video_id" in
  let videoId := video_id ||| VStr extractedVideoId in
  let! videoTitle := get data "title" in
  let! comments_next_page_token := get data "comments_next_page_token" in
  let nextPageToken := comments_next_page_token ||| VUndefined in
  let! data_comments := get data "comments" in
  if negb (truthy data_comments) || negb (isArray data_comments) then
    Ok {| page_videoId := videoId;
          page_videoTitle := videoTitle;
          comments := [];
          page_commentCount := 0;
          page_nextPageToken := nextPageToken |}
  else
    let! comments := mapM mapComment (slice0 (items data_comments) limit) in
    Ok {| page_videoId := videoId;
          page_videoTitle := videoTitle;
          comments := comments;
          page_commentCount := Z.of_nat (List.length comments);
          page_nextPageToken := nextPageToken |}.

(** The API key once [if (!SERPAPI_KEY)] has passed. *)
Definition api_key : string :=
  match SERPAPI_KEY with Some k => k | None => "" end.

(** The [else] branch of [if (pageToken)] in [getCommentsData]: resolve the
    URL, fetch the video info, choose the token.  It yields [params] and
    [extractedVideoId]. *)
Definition first_page_params (url : string) (sort : sort_order)
    : M (list (string * value) * string) :=
  match getVideoId url with
  | Some possibleVideoId =>
      if negb (given (Some possibleVideoId)) then
        throw (Error "Invalid YouTube URL or video ID")
      else
        videoInfo <- getVideoInfoData url ;;
        token <- lift (tokenToUse sort videoInfo) ;;
        if negb (truthy token) then
          throw (Error "Could not find valid comments token")
        else
          ret ([("api_key", VStr api_key);
                ("engine", VStr "youtube_video");
                ("next_page_token", token)],
               videoId videoInfo)
  | None => throw (Error "Invalid YouTube URL or video ID")
  end.

(** [getCommentsData({ url, limit = 100, sort = 'relevance', pageToken })] *)
Definition getCommentsData (p : CommentsParams) : M CommentsPage :=
  let url := cp_url p in
  let limit := match cp_limit p with Some l => l | None => 100%Z end in
  let sort := match cp_sort p with Some o => o | None => relevance end in
  let pageToken := cp_pageToken p in
  logged
    (if negb (given SERPAPI_KEY) then
       throw (Error "SERPAPI_KEY is not set in environment variables")
     else
       chosen <-
         (if given pageToken then
            ret ([("api_key", VStr api_key);
                  ("engine", VStr "youtube_video");
                  ("next_page_token",
                   VStr (match pageToken with Some tk => tk | None => "" end))],
                 "")
          else first_page_params url sort) ;;
       let params := fst chosen in
       let extractedVideoId := snd chosen in
       response <- fetch (Get SERPAPI_BASE_URL params) ;;
       data <- read_json response ;;
       lift (commentsPageMapping data extractedVideoId limit)).

(** The callback of [map] in [getRepliesData]. *)
Definition mapReply (reply : value) : outcome Reply :=
  let! comment_id := get reply "comment_id" in
  let! channel := get reply "channel" in
  let! name := opt_get channel "name" in
  let! content := get reply "content" in
  let! published_date := get reply "published_date" in
  let! extracted_vote_count := get reply "extracted_vote_count" in
  Ok {| reply_commentId := comment_id ||| VStr "";
        reply_author := name ||| VStr "Anonymous";
        reply_text := content ||| VStr "";
        reply_time := published_date ||| VStr "";
        reply_likes := extracted_vote_count ||| VNum 0 |}.

(** The replies-page mapping: what [getRepliesData] does with the parsed
    response [data]. *)
Definition repliesPageMapping (data : value) : outcome RepliesPage :=
  let! comment_parent_id := get data "comment_parent_id" in
  let parentCommentId := comment_parent_id ||| VStr "" in
  let! replies_next_page_token := get data "replies_next_page_token" in
  let nextPageToken := replies_next_page_token ||| VUndefined in
  let! data_replies := get data "replies" in
  if negb (truthy data_replies) || negb (isArray data_replies) then
    Ok {| parentCommentId := parentCommentId;
          page_replies := [];
          replyCount := 0;
          replies_nextPageToken := nextPageToken |}
  else
    let! replies := mapM mapReply (items data_replies) in
    Ok {| parentCommentId := parentCommentId;
          page_replies := replies;
          replyCount := Z.of_nat (List.length replies);
          replies_nextPageToken := nextPageToken |}.

(** [getRepliesData({ pageToken })] *)
Definition getRepliesData (pageToken : string) : M RepliesPage :=
  logged
    (if negb (given SERPAPI_KEY) then
       throw (Error "SERPAPI_KEY is not set in environment variables")
     else
       response <- fetch (Get SERPAPI_BASE_URL
                            [("api_key", VStr api_key);
                             ("engine", VStr "youtube_video");
                             ("next_page_token", VStr pageToken)]) ;;
       data <- read_json response ;;
       lift (repliesPageMapping data)).

(** The shape every tool handler has:
    [try { const result = await c; return text(JSON.stringify(result)) }
     catch (error) { return text(`Error: ${error.message || 'Unknown error'}`) }] *)
Definition handler {A : Type} (c : M A) : M (tool_text A) :=
  try_catch
    (result <- c ;; ret (ResultText result))
    (fun error =>
       ret (ErrorText (if String.eqb (message error) "" then "Unknown error"
                       else message error))).

(** The [getVideoInfo] tool. *)
Definition getVideoInfo_tool (url : string) : M (tool_text VideoInfoResponse) :=
  handler (getVideoInfoData url).

(** The [getReplies] tool; [limit] and [sort] arrive with their schema
    defaults applied, [url] and [pageToken] are optional. *)
Definition getReplies_tool (url : option string) (limit : Z) (sort : sort_order)
    (pageToken : option string) : M (tool_text CommentsPage) :=
  handler
    (if negb (given url) && negb (given pageToken) then
       throw (Error "Either url or pageToken must be provided")
     else
       getCommentsData
         {| cp_url := if given url then
                        match url with Some u => u | None => "" end
                      else "";
            cp_limit := Some limit;
            cp_sort := Some sort;
            cp_pageToken := pageToken |}).

(** The [getCommentReplies] tool. *)
Definition getCommentReplies_tool (pageToken : string) : M (tool_text RepliesPage) :=
  handler (getRepliesData pageToken).

End Server.

(** Running a computation from the start: no request issued yet. *)
Definition run {A : Type} (c : M A) : outcome A * trace := c [].

(** *** Notions used to state the properties of the handlers *)

(** The result of [fetchBasicVideoInfo] with every field absent. *)
Definition no_basic_info : BasicVideoInfo :=
  {| basic_title := None;
     basic_channelName := None;
     basic_publishedAt := None;
     basic_viewCount := None |}.

(** The page request of [fetchBasicVideoInfo], and the two request shapes
    sent upstream. *)
Definition watch_request (videoId : string) : request :=
  Get ("https://www.youtube.com/watch?v=" ++ videoId) [].

Definition info_request (key : option string) (videoId : string) : request :=
  Get SERPAPI_BASE_URL
    [("api_key", VStr (api_key key));
     ("engine", VStr "youtube_video");
     ("v", VStr videoId)].

Definition page_request (key : option string) (token : value) : request :=
  Get SERPAPI_BASE_URL
    [("api_key", VStr (api_key key));
     ("engine", VStr "youtube_video");
     ("next_page_token", token)].

(** [undefined] or [null]. *)
Definition nullish (v : value) : bool :=
  match v with VUndefined | VNull => true | _ => false end.

(** The sort selection rule in the words of the specification: under time
    ordering, the token of the first entry whose title, lower-cased,
    contains newest; the default token when there is no such entry, no
    list, or relevance ordering. *)
Definition is_newest_title (t : SortingToken) : bool :=
  includes "newest" (toLowerCase (st_title t)).

Definition newest (tokens : list SortingToken) : option SortingToken :=
  find is_newest_title tokens.

Definition selected_token (sort : sort_order)
    (sorting : option (list SortingToken)) (default : value) : value :=
  match sort, sorting with
  | time, Some tokens =>
      match newest tokens with
      | Some t => VStr (st_token t)
      | None => default
      end
  | _, _ => default
  end.

(** The field [commentsSortingTokens] of a video info: a list of sorting
    tokens, or absent. *)
Definition sorting_json (sorting : option (list SortingToken)) : value :=
  match sorting with
  | Some tokens => VArr (map SortingToken_json tokens)
  | None => VUndefined
  end.



(** *** Concrete inputs, for the examples below *)

Definition network_404 : trace -> request -> reply :=
  fun _ _ => Answered (Response 404 "Not Found" None).

Definition network_down : trace -> request -> reply :=
  fun _ _ => Rejected "fetch failed".

Definition three_comments : value :=
  VObj [("comments",
         VArr [VObj [("comment_id", VStr "a")];
               VObj [("comment_id", VStr "b")];
               VObj [("comment_id", VStr "c")]])].

Definition null_comment : value := VObj [("comments", VArr [VNull])].

Definition example_tokens : list SortingToken :=
  [mkSortingToken "Top comments" "A"; mkSortingToken "Newest first" "B"].

(** A video-info response with the given default token and sorting
    tokens, and the [VideoInfoResponse] made from it. *)
Definition example_info (default : option string)
    (tokens : option (list SortingToken)) : value :=
  VObj ([("title", VStr "T")]
        ++ match default with
           | Some d => [("comments_next_page_token", VStr d)]
           | None => []
           end
        ++ match tokens with
           | Some l => [("comments_sorting_token", VArr (map SortingToken_json l))]
           | None => []
           end).

Definition example_videoInfo (default : option string)
    (tokens : option (list SortingToken)) : VideoInfoResponse :=
  {| videoId := "dQw4w9WgXcQ";
     title := VStr "T";
     viewCount := VUndefined;
     publishDate := VUndefined;
     channelName := VUndefined;
     commentCount := VUndefined;
     commentsNextPageToken :=
       match default with Some d => VStr d | None => VUndefined end;
     commentsSortingTokens := sorting_json tokens |}.

Definition example_replies : value :=
  VObj [("replies", VArr [VObj [("comment_id", VStr "c1"); ("content", VStr "hi")]])].

(** A network that answers the first request with a video info and every
    later one with a page of three comments. *)
Definition example_network (default : option string)
    (tokens : option (list SortingToken)) : trace -> request -> reply :=
  fun t _ =>
    match t with
    | [] => Answered (Response 200 "" (Some (example_info default tokens)))
    | _ :: _ => Answered (Response 200 "" (Some three_comments))
    end.

Definition replies_network : trace -> request -> reply :=
  fun _ _ => Answered (Response 200 "" (Some example_replies)).

Definition example_url : string := "https://youtu.be/dQw4w9WgXcQ".

(* ===================================================================== *)
(** ** src/index.ts, the transcript operation *)
(* ===================================================================== *)

(** [texts.join(sep)] on an array of strings. *)
Fixpoint join (sep : string) (texts : list string) : string :=
  match texts with
  | [] => ""
  | [a] => a
  | a :: rest => (a ++ sep ++ join sep rest)%string
  end.

(** The object [getTranscriptData] returns under [videoInfo]. *)
Record TranscriptVideoInfo : Type := mkTranscriptVideoInfo {
  tv_id : string;
  tv_title : option string;
  tv_channelName : option string;
  tv_publishedAt : option string;
  tv_viewCount : option string
}.

Section Transcript.

Variable network : trace -> request -> reply.

(** A segment as the package youtube-transcript supplies it, and its
    [text]; the type is the package's and is left open. *)
Variable Segment : Type.
Variable segment_text : Segment -> string.

(** [YoutubeTranscript.fetchTranscript(videoId, { lang })]: code of the
    package, which may issue requests of its own and may throw. *)
Variable fetchTranscript : string -> string -> M (list Segment).

Record TranscriptResult : Type := mkTranscriptResult {
  tr_videoInfo : TranscriptVideoInfo;
  tr_transcript : list Segment;
  tr_fullText : string;
  tr_language : string
}.

(** [getTranscriptData({ url, lang = 'en' })] *)
Definition getTranscriptData (url : string) (lang : option string)
    : M TranscriptResult :=
  let lang := match lang with Some l => l | None => "en" end in
  logged
    (match getVideoId url with
     | Some videoId =>
         if negb (given (Some videoId)) then
           throw (Error "Invalid YouTube URL or video ID")
         else
           videoInfo <- fetchBasicVideoInfo network videoId ;;
           transcript <- fetchTranscript videoId lang ;;
           let fullText := join " " (map segment_text transcript) in
           ret {| tr_videoInfo :=
                    {| tv_id := videoId;
                       tv_title := basic_title videoInfo;
                       tv_channelName := basic_channelName videoInfo;
                       tv_publishedAt := basic_publishedAt videoInfo;
                       tv_viewCount := basic_viewCount videoInfo |};
                  tr_transcript := transcript;
                  tr_fullText := fullText;
                  tr_language := lang |}
     | None => throw (Error "Invalid YouTube URL or video ID")
     end).

(** The [getTranscript] tool; [lang] arrives with its schema default
    applied. *)
Definition getTranscript_tool (url lang : string) : M (tool_text TranscriptResult) :=
  handler (getTranscriptData url (Some lang)).

End Transcript.

(** *** Notions used to state further properties *)

(** [caps r g]: [g] is a word of a capturing group of [r]. *)
Fixpoint caps (r : regex) (g : list ascii) : Prop :=
  match r with
  | Grp r1 => lang r1 g
  | Cat r1 r2 => caps r1 g \/ caps r2 g
  | Opt r1 => caps r1 g
  | Rep _ r1 => caps r1 g
  | _ => False
  end.

(** [g] occurs in [s] as a contiguous part. *)
Definition occurs_in (g s : string) : Prop :=
  exists pre post : string, s = (pre ++ g ++ post)%string.

(** No double quote occurs in [s]. *)
Definition no_dq (s : string) : bool :=
  forallb not_dq (list_ascii_of_string s).

(** White space only, and at least one character of it. *)
Definition blank (s : string) : bool :=
  negb (String.eqb s "") && forallb space (list_ascii_of_string s).

(** No character [c] occurs in [s]. *)
Definition lacks (c : ascii) (s : string) : bool :=
  forallb (fun d => negb (Ascii.eqb c d)) (list_ascii_of_string s).

(** The text of a meta tag up to the closing quote of its content, with
    white space [ws1] and [ws2] between its parts, and the text of a
    quoted JSON field with a quoted value. *)
Definition meta_tag (name ws1 ws2 v : string) : string :=
  ("<meta" ++ ws1 ++ ("name=" ++ dq ++ name ++ dq) ++ ws2
   ++ ("content=" ++ dq) ++ v ++ dq)%string.

Definition json_field (field v : string) : string :=
  ((dq ++ field ++ dq ++ ":" ++ dq) ++ v ++ dq)%string.

(** The input stops a run of the class [p]: it is empty or starts with a
    character outside [p]. *)
Definition stops (p : ascii -> bool) (s : list ascii) : bool :=
  match s with
  | [] => true
  | d :: _ => negb (p d)
  end.

(** What [fetchBasicVideoInfo] makes of the reply to its page request. *)
Definition basic_info_of (rp : reply) : BasicVideoInfo :=
  match rp with
  | Answered r =>
      if ok r then
        {| basic_title := extract (meta_pattern "title") (body_text r);
           basic_channelName := extract (meta_pattern "author") (body_text r);
           basic_publishedAt := extract (field_pattern "publishDate") (body_text r);
           basic_viewCount := extract (field_pattern "viewCount") (body_text r) |}
      else no_basic_info
  | Rejected _ => no_basic_info
  end.

(** The own property [k] of an object with these fields, [undefined] when
    there is none. *)
Definition field (fields : list (string * value)) (k : string) : value :=
  match lookup k fields with Some x => x | None => VUndefined end.

(** A request to the upstream API made with the configured key: the base
    URL, [api_key] and the engine selector. *)
Definition upstream_request (key : option string) (rq : request) : Prop :=
  req_url rq = SERPAPI_BASE_URL /\
  lookup "api_key" (req_query rq) = Some (VStr (api_key key)) /\
  lookup "engine" (req_query rq) = Some (VStr "youtube_video").

(** A pagination token as the pages return it: absent, or truthy. *)
Definition absent_or_truthy (v : value) : Prop :=
  v = VUndefined \/ truthy v = true.

(** The fields of a mapped comment and of a mapped reply are filled: none
    is [undefined] or [null] (the replies token of a comment apart, which
    is [null] or truthy), and the author is never empty. *)
Definition comment_filled (c : Comment) : Prop :=
  nullish (commentId c) = false /\
  truthy (author c) = true /\
  nullish (text c) = false /\
  nullish (time_ c) = false /\
  nullish (likes c) = false /\
  nullish (replies c) = false /\
  (repliesToken c = VNull \/ truthy (repliesToken c) = true).

Definition reply_filled (r : Reply) : Prop :=
  nullish (reply_commentId r) = false /\
  truthy (reply_author r) = true /\
  nullish (reply_text r) = false /\
  nullish (reply_time r) = false /\
  nullish (reply_likes r) = false.

(** [data.channel?.name] for a response object with these fields. *)
Definition channel_name (fields : list (string * value)) : value :=
  match field fields "channel" with
  | VObj channel => field channel "name"
  | _ => VUndefined
  end.

(** The object [getVideoInfoData] makes of the parsed response [data]. *)
Definition videoInfoMapping (videoId : string) (data : value)
    : outcome VideoInfoResponse :=
  let! title := get data "title" in
  let! views := get data "views" in
  let! published_date := get data "published_date" in
  let! channel := get data "channel" in
  let! name := opt_get channel "name" in
  let! extracted_comment_count := get data "extracted_comment_count" in
  let! comments_next_page_token := get data "comments_next_page_token" in
  let! comments_sorting_token := get data "comments_sorting_token" in
  Ok {| videoId := videoId;
        title := title;
        viewCount := views;
        publishDate := published_date;
        channelName := name;
        commentCount := extracted_comment_count;
        commentsNextPageToken := comments_next_page_token;
        commentsSortingTokens := comments_sorting_token |}.

(** What one upstream call yields from the reply to its request, [g] being
    what the caller makes of the parsed body: the check of the status, the
    parse, the debug line over [Object.keys], then [g]. *)
Definition upstream_outcome {A : Type} (rp : reply) (g : value -> outcome A)
    : outcome A :=
  match rp with
  | Rejected reason => Throw (TypeError reason)
  | Answered r =>
      if ok r then
        match body_json r with
        | Some data => let! _ := Object_keys data in g data
        | None => Throw (SyntaxError "Unexpected token in JSON")
        end
      else
        Throw (Error ("SerpAPI error: " ++ string_of_Z (status r) ++ " - "
                      ++ body_text r))
  end.

(** The text a tool handler makes of an outcome. *)
Definition render {A : Type} (o : outcome A) : tool_text A :=
  match o with
  | Ok a => ResultText a
  | Throw e =>
      ErrorText (if String.eqb (message e) "" then "Unknown error" else message e)
  end.

Definition example_html : string :=
  ("<html><META  name=" ++ dq ++ "title" ++ dq ++ " content=" ++ dq
   ++ "Hello" ++ dq ++ "><script>{" ++ dq ++ "viewCount" ++ dq ++ ":"
   ++ dq ++ "1234" ++ dq ++ "}</script>")%string.

Definition example_page_network : trace -> request -> reply :=
  fun _ _ => Answered (Response 200 example_html None).

(** A last page: no comments, and an empty next-page token. *)
Definition last_page : value :=
  VObj [("comments", VArr []); ("comments_next_page_token", VStr "")].

Definition last_page_network : trace -> request -> reply :=
  fun _ _ => Answered (Response 200 "" (Some last_page)).

(** A segment type for the examples: a text and a start offset. *)
Definition example_segments : list (string * Z) :=
  [("never gonna", 0%Z); ("give you up", 2%Z)].

Definition example_fetchTranscript : string -> string -> M (list (string * Z)) :=
  fun _ _ => ret example_segments.

Definition failing_fetchTranscript : string -> string -> M (list (string * Z)) :=
  fun _ _ => throw (Error "Transcript is disabled on this video").

(** The title of an entry of the sorting list, as the callback of [find]
    can read it: the entry is an object whose [title] is a string.  Any
    other entry makes the callback throw. *)
Definition entry_title (e : value) : option string :=
  match e with
  | VObj fields =>
      match lookup "title" fields with
      | Some (VStr s) => Some s
      | _ => None
      end
  | _ => None
  end.

(** An entry whose title, lower-cased, contains newest; and an entry with
    a title that does not. *)
Definition newest_entry (e : value) : bool :=
  match entry_title e with
  | Some s => includes "newest" (toLowerCase s)
  | None => false
  end.

Definition plain_entry (e : value) : bool :=
  match entry_title e with
  | Some s => negb (includes "newest" (toLowerCase s))
  | None => false
  end.

(** The sorting list yields no usable newest token: relevance ordering; or
    a falsy list ([undefined], [null], ...); or an array of entries with
    titles none of which contains newest; or an array whose first entry
    with newest in its title, after entries with other titles, has a falsy
    [token]. *)
Definition no_usable_newest (sort : sort_order) (sorting : value) : Prop :=
  sort = relevance
  \/ truthy sorting = false
  \/ (exists entries,
        sorting = VArr entries /\ forallb plain_entry entries = true)
  \/ (exists before fields after,
        sorting = VArr (before ++ VObj fields :: after)
        /\ forallb plain_entry before = true
        /\ newest_entry (VObj fields) = true
        /\ truthy (field fields "token") = false).

(** A sorting list on which [find] throws: a truthy value that is no
    array; or an array in which an entry without a string title comes
    before any entry with newest in its title. *)
Definition malformed_sorting (sorting : value) : Prop :=
  (truthy sorting = true /\ isArray sorting = false)
  \/ (exists before e after,
        sorting = VArr (before ++ e :: after)
        /\ forallb plain_entry before = true
        /\ entry_title e = None).

(** The messages of the type errors such a list raises. *)
Definition sorting_faults : list string :=
  ["Cannot read properties of undefined (reading 'title')";
   "Cannot read properties of null (reading 'title')";
   "Cannot read properties of undefined (reading 'toLowerCase')";
   "Cannot read properties of null (reading 'toLowerCase')";
   "token.title.toLowerCase is not a function";
   "videoInfo.commentsSortingTokens.find is not a function"].

(** A video-info response whose default token and sorting list are any
    JSON values, or absent; the [VideoInfoResponse] made from it; and a
    network that answers the first request with it and every later one
    with [page]. *)
Definition raw_info (default sorting : option value) : value :=
  VObj ([("title", VStr "T")]
        ++ match default with
           | Some d => [("comments_next_page_token", d)]
           | None => []
           end
        ++ match sorting with
           | Some l => [("comments_sorting_token", l)]
           | None => []
           end).

Definition raw_videoInfo (default sorting : option value) : VideoInfoResponse :=
  {| videoId := "dQw4w9WgXcQ";
     title := VStr "T";
     viewCount := VUndefined;
     publishDate := VUndefined;
     channelName := VUndefined;
     commentCount := VUndefined;
     commentsNextPageToken :=
       match default with Some d => d | None => VUndefined end;
     commentsSortingTokens :=
       match sorting with Some l => l | None => VUndefined end |}.

Definition raw_network (default sorting : option value) (page : reply)
    : trace -> request -> reply :=
  fun t _ =>
    match t with
    | [] => Answered (Response 200 "" (Some (raw_info default sorting)))
    | _ :: _ => page
    end.

(* ===================================================================== *)
(** * Properties *)
(* ===================================================================== *)

(** ** The matcher *)

Lemma plus_from_sound (R : Type) (p : ascii -> bool) (s : list ascii)
    (k : list ascii -> option R) (x : R) :
  plus_from p s k = Some x ->
  exists w s', s = w ++ s' /\ w <> [] /\ forallb p w = true /\ k s' = Some x.
Proof.
  induction s as [|c s IH]; simpl; [discriminate|].
  destruct (p c) eqn:Hc; [|discriminate].
  destruct (plus_from p s k) as [y|] eqn:Hrec.
  - intros Hx. injection Hx as ->.
    destruct (IH eq_refl) as (w & s' & -> & _ & Hw & Hk).
    exists (c :: w), s'. simpl. rewrite Hc, Hw. repeat split; auto; discriminate.
  - intros Hk. exists [c], s. simpl. rewrite Hc. repeat split; auto; discriminate.
Qed.

Lemma m_sound (r : regex) :
  forall (R : Type) (b : bool) (s : list ascii) (cap : option (list ascii))
         (k : bool -> list ascii -> option (list ascii) -> option R) (x : R),
    m r b s cap k = Some x ->
    exists w s' b' cap', s = w ++ s' /\ lang r w /\ k b' s' cap' = Some x.
Proof.
  induction r as [| | |c|c|p|r1 IH1 r2 IH2|r1 IH1|n r1 IH1|p|r1 IH1];
    intros R b s cap k x H; simpl in H.
  - exists [], s, b, cap. simpl; auto.
  - destruct b; [|discriminate]. exists [], s, true, cap. simpl; auto.
  - destruct s; [|discriminate]. exists [], [], b, cap. simpl; auto.
  - destruct s as [|d s]; [discriminate|].
    destruct (Ascii.eqb c d) eqn:E; [|discriminate].
    apply Ascii.eqb_eq in E. subst d.
    exists [c], s, false, cap. simpl; auto.
  - destruct s as [|d s]; [discriminate|].
    destruct (eqb_ci c d) eqn:E; [|discriminate].
    exists [d], s, false, cap. simpl. repeat split; eauto.
  - destruct s as [|d s]; [discriminate|].
    destruct (p d) eqn:E; [|discriminate].
    exists [d], s, false, cap. simpl. repeat split; eauto.
  - apply IH1 in H. destruct H as (w1 & s1 & b1 & c1 & -> & L1 & H).
    apply IH2 in H. destruct H as (w2 & s2 & b2 & c2 & -> & L2 & H).
    exists (w1 ++ w2), s2, b2, c2. rewrite <- app_assoc.
    repeat split; auto. simpl. eauto.
  - destruct (m r1 b s cap k) as [y|] eqn:E.
    + injection H as ->. apply IH1 in E.
      destruct E as (w & s' & b' & c' & -> & L & E).
      exists w, s', b', c'. simpl. auto.
    + exists [], s, b, cap. simpl. auto.
  - revert b s cap H. induction n as [|n IHn]; intros b s cap H.
    + exists [], s, b, cap. simpl; auto.
    + apply IH1 in H. destruct H as (w1 & s1 & b1 & c1 & -> & L1 & H).
      apply IHn in H. destruct H as (w2 & s2 & b2 & c2 & -> & L2 & H).
      exists (w1 ++ w2), s2, b2, c2. rewrite <- app_assoc.
      repeat split; auto. simpl. eauto.
  - apply plus_from_sound in H. destruct H as (w & s' & -> & Hne & Hw & H).
    exists w, s', false, cap. simpl. auto.
  - apply IH1 in H. destruct H as (w & s' & b' & c' & -> & L & H).
    eexists w, s', b', _. simpl. eauto.
Qed.

Lemma lang_minlen (r : regex) : forall w, lang r w -> minlen r <= List.length w.
Proof.
  induction r as [| | |c|c|p|r1 IH1 r2 IH2|r1 IH1|n r1 IH1|p|r1 IH1];
    intros w H; simpl in *.
  - lia. - lia. - lia.
  - subst; simpl; lia.
  - destruct H as (d & -> & _); simpl; lia.
  - destruct H as (d & -> & _); simpl; lia.
  - destruct H as (w1 & w2 & -> & H1 & H2).
    rewrite length_app. apply IH1 in H1. apply IH2 in H2. lia.
  - lia.
  - revert w H. induction n as [|n IHn]; intros w H; simpl; [lia|].
    destruct H as (w1 & w2 & -> & H1 & H2).
    rewrite length_app. apply IH1 in H1. apply IHn in H2. lia.
  - destruct H as [Hne _]. destruct w; [congruence|simpl; lia].
  - auto.
Qed.

Lemma lang_needs (c : ascii) (r : regex) :
  forall w, lang r w -> needs c r = true -> In c w.
Proof.
  induction r as [| | |d|d|p|r1 IH1 r2 IH2|r1 IH1|n r1 IH1|p|r1 IH1];
    intros w H N; simpl in *; try discriminate.
  - apply Ascii.eqb_eq in N. subst. left; reflexivity.
  - destruct H as (w1 & w2 & -> & H1 & H2). apply in_or_app.
    apply orb_true_iff in N. destruct N as [N|N]; [left|right]; auto.
  - apply andb_true_iff in N. destruct N as [Nn N].
    destruct n as [|n]; [discriminate|].
    destruct H as (w1 & w2 & -> & H1 & _). apply in_or_app. left; auto.
  - auto.
Qed.

Lemma search_sound (r : regex) (s : list ascii) :
  forall b c, search r b s = Some c ->
  exists pre w post, s = pre ++ w ++ post /\ lang r w.
Proof.
  induction s as [|a s IH]; intros b c H; simpl in H.
  - destruct (m r b [] None (fun _ _ c0 => Some c0)) eqn:E; [|discriminate].
    apply m_sound in E. destruct E as (w & s' & _ & _ & -> & L & _).
    exists [], w, s'. auto.
  - destruct (m r b (a :: s) None (fun _ _ c0 => Some c0)) eqn:E.
    + apply m_sound in E. destruct E as (w & s' & _ & _ & -> & L & _).
      exists [], w, s'. auto.
    + apply IH in H. destruct H as (pre & w & post & -> & L).
      exists (a :: pre), w, post. auto.
Qed.

Lemma search_short (r : regex) (b : bool) (s : list ascii) :
  List.length s < minlen r -> search r b s = None.
Proof.
  intros Hlen. destruct (search r b s) eqn:E; [|reflexivity].
  apply search_sound in E. destruct E as (pre & w & post & -> & L).
  apply lang_minlen in L. rewrite !length_app in Hlen. lia.
Qed.

Lemma search_needs (c : ascii) (r : regex) (b : bool) (s : list ascii) :
  needs c r = true -> ~ In c s -> search r b s = None.
Proof.
  intros N Hnot. destruct (search r b s) eqn:E; [|reflexivity].
  apply search_sound in E. destruct E as (pre & w & post & -> & L).
  exfalso. apply Hnot. apply in_or_app. right. apply in_or_app. left.
  eapply lang_needs; eauto.
Qed.

Lemma m_lit_list (R : Type) (l s : list ascii) (b : bool)
    (cap : option (list ascii))
    (k : bool -> list ascii -> option (list ascii) -> option R) :
  m (lit_list l) b (l ++ s) cap k
  = k (match l with [] => b | _ :: _ => false end) s cap.
Proof.
  revert b. induction l as [|c l IH]; intros b; simpl; [reflexivity|].
  rewrite Ascii.eqb_refl, IH. destruct l; reflexivity.
Qed.

Lemma m_rep_cls (R : Type) (p : ascii -> bool) (l s : list ascii) (b : bool)
    (cap : option (list ascii))
    (k : bool -> list ascii -> option (list ascii) -> option R) :
  forallb p l = true ->
  m (Rep (List.length l) (Cls p)) b (l ++ s) cap k
  = k (match l with [] => b | _ :: _ => false end) s cap.
Proof.
  revert b. induction l as [|c l IH]; intros b H; simpl in *; [reflexivity|].
  apply andb_true_iff in H. destruct H as [Hc Hl]. rewrite Hc.
  specialize (IH false Hl). simpl in IH. rewrite IH. destruct l; reflexivity.
Qed.

Lemma m_rep_cls_inv (R : Type) (p : ascii -> bool) (n : nat) :
  forall (s : list ascii) (b : bool) (cap : option (list ascii))
         (k : bool -> list ascii -> option (list ascii) -> option R) (x : R),
  m (Rep n (Cls p)) b s cap k = Some x ->
  n <= List.length s /\ forallb p (firstn n s) = true /\
  k (match n with O => b | S _ => false end) (skipn n s) cap = Some x.
Proof.
  induction n as [|n IH]; intros s b cap k x H; simpl in H.
  - simpl. repeat split; auto. lia.
  - destruct s as [|d s]; [discriminate|].
    destruct (p d) eqn:E; [|discriminate].
    apply IH in H. destruct H as (Hlen & Hall & Hk).
    simpl. rewrite E, Hall. repeat split; auto; [lia|].
    destruct n; exact Hk.
Qed.

Lemma search_hit (r : regex) (b : bool) (s : list ascii) (c : captures) :
  m r b s None (fun _ _ c0 => Some c0) = Some c -> search r b s = Some c.
Proof. intros H. destruct s; simpl; rewrite H; reflexivity. Qed.

Lemma search_miss (r : regex) (b : bool) (a : ascii) (s : list ascii) :
  m r b (a :: s) None (fun _ _ c0 => Some c0) = None ->
  search r b (a :: s) = search r false s.
Proof. intros H. simpl. rewrite H. reflexivity. Qed.

Lemma search_bol_false (r : regex) (s : list ascii) :
  search (Cat Bol r) false s = None.
Proof. induction s as [|c s IH]; simpl; auto. Qed.

Lemma length_list_ascii_of_string (s : string) :
  List.length (list_ascii_of_string s) = String.length s.
Proof. induction s; simpl; auto. Qed.

Lemma list_ascii_of_string_app (s1 s2 : string) :
  list_ascii_of_string (s1 ++ s2)%string
  = list_ascii_of_string s1 ++ list_ascii_of_string s2.
Proof. induction s1; simpl; [reflexivity|]. now rewrite IHs1. Qed.

Lemma test_ID_RE (s : string) : test ID_RE s = is_video_id s.
Proof.
  unfold test, exec, is_video_id. rewrite <- length_list_ascii_of_string.
  generalize (list_ascii_of_string s) as l. clear s. intros l.
  destruct (search ID_RE true l) as [c|] eqn:E.
  - symmetry. unfold ID_RE in E.
    destruct l as [|a l]; simpl in E; [discriminate E|].
    destruct (idchar a) eqn:Ha.
    2:{ rewrite search_bol_false in E. simpl in E. discriminate E. }
    match type of E with
    | match ?t with _ => _ end = _ => destruct t as [y|] eqn:E1
    end.
    2:{ rewrite search_bol_false in E. discriminate E. }
    change (m (Rep 10 (Cls idchar)) false l None
              (fun b' s' c' => m Eol b' s' c' (fun _ _ c0 => Some c0)) = Some y) in E1.
    apply m_rep_cls_inv in E1. destruct E1 as (Hlen & Hall & Hk).
    destruct (skipn 10 l) eqn:Hs; simpl in Hk; [|discriminate Hk].
    assert (List.length l = 10).
    { assert (Hx := length_skipn 10 l). rewrite Hs in Hx. simpl in Hx. lia. }
    rewrite firstn_all2 in Hall by lia.
    simpl List.length. simpl forallb. rewrite Ha, Hall, H. reflexivity.
  - symmetry. apply not_true_is_false. intros H.
    apply andb_true_iff in H. destruct H as [Hlen Hall].
    apply Nat.eqb_eq in Hlen.
    assert (Hm : m ID_RE true (l ++ []) None (fun _ _ c => Some c) = Some None).
    { unfold ID_RE. rewrite <- Hlen.
      change (m (Rep (List.length l) (Cls idchar)) true (l ++ []) None
                (fun b' s' c' => m Eol b' s' c' (fun _ _ c0 => Some c0)) = Some None).
      rewrite m_rep_cls by exact Hall. reflexivity. }
    rewrite app_nil_r in Hm.
    rewrite (search_hit _ _ _ _ Hm) in E. discriminate E.
Qed.

(** ** The URL patterns *)

Lemma m_url_prefix (R : Type) (scheme www : string) (rest : list ascii)
    (k : bool -> list ascii -> option (list ascii) -> option R) (x : R) :
  In scheme schemes -> In www wwws ->
  (exists tl, rest = "y"%char :: tl) ->
  (forall b, k b rest None = Some x) ->
  m url_prefix true
    (list_ascii_of_string scheme ++ list_ascii_of_string www ++ rest)
    None k = Some x.
Proof.
  intros Hs Hw [tl ->] Hk. unfold schemes, wwws in *. simpl in Hs, Hw.
  destruct Hs as [<-|[<-|[<-|[]]]]; destruct Hw as [<-|[<-|[]]];
    cbn; rewrite ?Hk; reflexivity.
Qed.

Lemma m_id_group (lit_ id rest : list ascii) (b : bool) :
  forallb idchar id = true ->
  m (Cat (lit_list lit_) (Grp (Rep (List.length id) (Cls idchar)))) b
    (lit_ ++ id ++ rest) None (fun _ _ c => Some c)
  = Some (Some id).
Proof.
  intros Hid.
  change (m (lit_list lit_) b (lit_ ++ id ++ rest) None
            (fun b' s' c' =>
               m (Rep (List.length id) (Cls idchar)) b' s' c'
                 (fun b2 s2 _ =>
                    Some (Some (firstn (List.length s' - List.length s2) s'))))
          = Some (Some id)).
  rewrite m_lit_list, m_rep_cls by exact Hid.
  rewrite length_app, Nat.add_sub, firstn_app, Nat.sub_diag, firstn_all.
  simpl. now rewrite app_nil_r.
Qed.

Lemma shape_literal_y (sh : shape) :
  exists tl, list_ascii_of_string (shape_literal sh) = "y"%char :: tl.
Proof. destruct sh; simpl; eauto. Qed.

Lemma url_pattern_hit (sh : shape) (scheme www id rest : string) :
  In scheme schemes -> In www wwws -> is_video_id id = true ->
  exec (pattern_of sh) (shape_url scheme www sh id rest)
  = Some (Some (list_ascii_of_string id)).
Proof.
  intros Hs Hw Hid. apply andb_true_iff in Hid. destruct Hid as [Hlen Hall].
  apply Nat.eqb_eq in Hlen. rewrite <- length_list_ascii_of_string in Hlen.
  unfold exec, shape_url. apply search_hit.
  rewrite !list_ascii_of_string_app.
  destruct (shape_literal_y sh) as [tl Htl].
  unfold pattern_of, url_pattern, lit. rewrite <- Hlen.
  change (m url_prefix true
            (list_ascii_of_string scheme ++ list_ascii_of_string www ++
             list_ascii_of_string (shape_literal sh) ++
             list_ascii_of_string id ++ list_ascii_of_string rest) None
            (fun b' s' c' =>
               m (Cat (lit_list (list_ascii_of_string (shape_literal sh)))
                      (Grp (Rep (List.length (list_ascii_of_string id)) (Cls idchar))))
                 b' s' c' (fun _ _ c => Some c))
          = Some (Some (list_ascii_of_string id))).
  assert (Hk : forall b,
             m (Cat (lit_list (list_ascii_of_string (shape_literal sh)))
                    (Grp (Rep (List.length (list_ascii_of_string id)) (Cls idchar))))
               b (list_ascii_of_string (shape_literal sh) ++
                  list_ascii_of_string id ++ list_ascii_of_string rest)
               None (fun _ _ c => Some c)
             = Some (Some (list_ascii_of_string id))).
  { intros b. now apply m_id_group. }
  apply m_url_prefix; auto.
  exists (tl ++ list_ascii_of_string id ++ list_ascii_of_string rest).
  rewrite Htl. reflexivity.
Qed.

Ltac skip_starts :=
  repeat (rewrite search_miss by (vm_compute; reflexivity)).

Lemma url_pattern_miss (shj shk : shape) (scheme www : string) (tl : list ascii) :
  shape_index shj < shape_index shk ->
  In scheme schemes -> In www wwws -> ~ In "."%char tl ->
  search (pattern_of shj) true
    (list_ascii_of_string scheme ++ list_ascii_of_string www ++
     list_ascii_of_string (shape_literal shk) ++ tl) = None.
Proof.
  intros Hlt Hs Hw Hdot. unfold schemes, wwws in *. simpl in Hs, Hw.
  destruct Hs as [<-|[<-|[<-|[]]]]; destruct Hw as [<-|[<-|[]]];
    destruct shj, shk; simpl in Hlt; try lia; clear Hlt;
    simpl app; skip_starts;
    (apply (search_needs "."%char); [reflexivity | exact Hdot]).
Qed.

(** ** The identifier resolver *)

Lemma patterns_of_shapes : patterns = map pattern_of shapes.
Proof. reflexivity. Qed.

Lemma nth_error_patterns (sh : shape) :
  nth_error patterns (shape_index sh) = Some (pattern_of sh).
Proof. destruct sh; reflexivity. Qed.

Lemma nth_error_patterns_inv (j : nat) (q : regex) :
  nth_error patterns j = Some q ->
  exists sh, shape_index sh = j /\ q = pattern_of sh.
Proof.
  intros H.
  destruct j as [|[|[|[|[|j]]]]]; simpl in H;
    [exists Watch|exists Embed|exists V|exists YoutuBe|exists Shorts|];
    try (injection H as <-; split; reflexivity).
  destruct j; discriminate H.
Qed.

Lemma In_patterns (p : regex) :
  In p patterns -> exists sh, p = pattern_of sh.
Proof.
  rewrite patterns_of_shapes. intros H. apply in_map_iff in H.
  destruct H as (sh & <- & _). now exists sh.
Qed.

Lemma match1_exec_None (p : regex) (s : string) :
  exec p s = None -> match1 p s = None.
Proof. unfold match1. now intros ->. Qed.

Lemma first_match_nth (ps : list regex) (s : string) :
  forall (k : nat) (p : regex) (c : string),
    nth_error ps k = Some p ->
    (forall j q, j < k -> nth_error ps j = Some q -> match1 q s = None) ->
    match1 p s = Some c ->
    first_match ps s = Some c.
Proof.
  induction ps as [|p0 ps IH]; intros k p c Hk Hbefore Hp.
  - destruct k; discriminate Hk.
  - destruct k as [|k]; simpl in Hk.
    + injection Hk as ->. simpl. now rewrite Hp.
    + simpl. rewrite (Hbefore 0 p0) by (simpl; auto; lia).
      apply (IH k p c Hk); [|exact Hp].
      intros j q Hj Hq. apply (Hbefore (S j) q); [lia|exact Hq].
Qed.

Lemma first_match_none (ps : list regex) (s : string) :
  (forall p, In p ps -> match1 p s = None) -> first_match ps s = None.
Proof.
  induction ps as [|p ps IH]; intros H; simpl; [reflexivity|].
  rewrite (H p) by (left; reflexivity). apply IH.
  intros q Hq. apply H. now right.
Qed.

Lemma minlen_pattern_of (sh : shape) : 20 <= minlen (pattern_of sh).
Proof. destruct sh; vm_compute; lia. Qed.

Lemma exec_short (sh : shape) (s : string) :
  String.length s < 20 -> exec (pattern_of sh) s = None.
Proof.
  intros H. unfold exec. apply search_short.
  rewrite length_list_ascii_of_string. pose proof (minlen_pattern_of sh). lia.
Qed.

Lemma idchar_not_dot (l : list ascii) :
  forallb idchar l = true -> ~ In "."%char l.
Proof.
  induction l as [|c l IH]; simpl; [tauto|].
  intros H. apply andb_true_iff in H. destruct H as [Hc Hl].
  intros [->|Hin]; [discriminate Hc|]. now apply IH.
Qed.

Lemma no_dot_spec (s : string) :
  no_dot s = true -> ~ In "."%char (list_ascii_of_string s).
Proof.
  unfold no_dot. induction (list_ascii_of_string s) as [|c l IH]; simpl; [tauto|].
  intros H. apply andb_true_iff in H. destruct H as [Hc Hl].
  intros [->|Hin]; [discriminate Hc|]. now apply IH.
Qed.

Lemma shape_literal_length (sh : shape) : 9 <= String.length (shape_literal sh).
Proof. destruct sh; simpl; lia. Qed.

Lemma shape_url_not_id (scheme www : string) (sh : shape) (id rest : string) :
  String.length id = 11 -> is_video_id (shape_url scheme www sh id rest) = false.
Proof.
  intros Hid. unfold is_video_id, shape_url.
  rewrite <- !length_list_ascii_of_string in *.
  rewrite !list_ascii_of_string_app, !length_app.
  pose proof (shape_literal_length sh) as Hl.
  rewrite <- length_list_ascii_of_string in Hl.
  replace (_ =? 11) with false; [reflexivity|].
  symmetry. apply Nat.eqb_neq. lia.
Qed.

Lemma match1_shape_url (sh : shape) (scheme www id rest : string) :
  In scheme schemes -> In www wwws -> is_video_id id = true ->
  match1 (pattern_of sh) (shape_url scheme www sh id rest) = Some id.
Proof.
  intros Hs Hw Hid. unfold match1.
  rewrite url_pattern_hit by assumption. simpl.
  rewrite string_of_list_ascii_of_string.
  apply andb_true_iff in Hid. destruct Hid as [Hlen _].
  apply Nat.eqb_eq in Hlen. destruct id; [discriminate Hlen|reflexivity].
Qed.

Lemma getVideoId_not_id (s : string) :
  is_video_id s = false -> getVideoId s = first_match patterns s.
Proof. intros H. unfold getVideoId. now rewrite test_ID_RE, H. Qed.

(** C7.  A string of exactly eleven characters, each a letter, a digit, a
    hyphen or an underscore, resolves to itself. *)
Theorem getVideoId_canonical_id (s : string) :
  String.length s = 11 ->
  forallb idchar (list_ascii_of_string s) = true ->
  getVideoId s = Some s.
Proof.
  intros Hlen Hall. unfold getVideoId. rewrite test_ID_RE.
  unfold is_video_id. rewrite Hlen, Hall. reflexivity.
Qed.

Lemma getVideoId_canonical_id_witness :
  String.length "dQw4w9WgXcQ" = 11 /\
  forallb idchar (list_ascii_of_string "dQw4w9WgXcQ") = true /\
  getVideoId "dQw4w9WgXcQ" = Some "dQw4w9WgXcQ".
Proof.
  split; [reflexivity|]. split; [reflexivity|].
  apply (getVideoId_canonical_id "dQw4w9WgXcQ"); reflexivity.
Defined.

Lemma getVideoId_shape_url (sh : shape) (scheme www id rest : string) :
  In scheme schemes -> In www wwws -> is_video_id id = true ->
  (forall shj, shape_index shj < shape_index sh ->
               match1 (pattern_of shj) (shape_url scheme www sh id rest) = None) ->
  getVideoId (shape_url scheme www sh id rest) = Some id.
Proof.
  intros Hs Hw Hid Hbefore.
  pose proof Hid as Hid'. apply andb_true_iff in Hid'.
  destruct Hid' as [Hlen _]. apply Nat.eqb_eq in Hlen.
  rewrite getVideoId_not_id by now apply shape_url_not_id.
  apply (first_match_nth patterns _ (shape_index sh) (pattern_of sh) id).
  - apply nth_error_patterns.
  - intros j q Hj Hq. apply nth_error_patterns_inv in Hq.
    destruct Hq as (shj & <- & ->). now apply Hbefore.
  - now apply match1_shape_url.
Qed.

(** C8 (amended).  The five URL shapes.
    - Each pattern recognises the URLs of its shape and captures the
      identifier, whether the scheme is http, https or absent, whether
      [www.] is there or not, and whatever follows the identifier.
    - The patterns are tried in the order watch?v=, /embed/, /v/,
      youtu.be/, /shorts/ and the first that matches decides.
    - Hence a URL of a shape resolves to its identifier whenever no
      pattern earlier in that order matches the URL: always for the
      watch?v= shape, and for every shape when no full stop follows the
      identifier.
    - An input that is not itself a canonical identifier and that no
      pattern matches resolves to nothing; this is so for every input
      shorter than eleven characters, and for an input with a character
      outside the identifier alphabet unless a pattern matches it. *)
Theorem getVideoId_url_shapes :
  (forall sh scheme www id rest,
      In scheme schemes -> In www wwws -> is_video_id id = true ->
      match1 (pattern_of sh) (shape_url scheme www sh id rest) = Some id)
  /\ patterns = map pattern_of [Watch; Embed; V; YoutuBe; Shorts]
  /\ (forall s k p c,
         is_video_id s = false ->
         nth_error patterns k = Some p ->
         (forall j q, j < k -> nth_error patterns j = Some q -> match1 q s = None) ->
         match1 p s = Some c ->
         getVideoId s = Some c)
  /\ (forall sh scheme www id rest,
         In scheme schemes -> In www wwws -> is_video_id id = true ->
         (forall shj, shape_index shj < shape_index sh ->
                      match1 (pattern_of shj) (shape_url scheme www sh id rest)
                      = None) ->
         getVideoId (shape_url scheme www sh id rest) = Some id)
  /\ (forall scheme www id rest,
         In scheme schemes -> In www wwws -> is_video_id id = true ->
         getVideoId (shape_url scheme www Watch id rest) = Some id)
  /\ (forall sh scheme www id rest,
         In scheme schemes -> In www wwws -> is_video_id id = true ->
         no_dot rest = true ->
         getVideoId (shape_url scheme www sh id rest) = Some id)
  /\ (forall s,
         is_video_id s = false ->
         (forall p, In p patterns -> match1 p s = None) ->
         getVideoId s = None)
  /\ (forall s, String.length s < 11 -> getVideoId s = None)
  /\ (forall s,
         forallb idchar (list_ascii_of_string s) = false ->
         (forall p, In p patterns -> match1 p s = None) ->
         getVideoId s = None).
Proof.
  split; [exact match1_shape_url|].
  split; [reflexivity|].
  split.
  { intros s k p c Hs Hk Hbefore Hp. rewrite getVideoId_not_id by exact Hs.
    now apply (first_match_nth patterns s k p c). }
  split; [exact getVideoId_shape_url|].
  split.
  { intros scheme www id rest Hs Hw Hid.
    apply getVideoId_shape_url; auto.
    intros shj Hj. simpl in Hj. lia. }
  split.
  { intros sh scheme www id rest Hs Hw Hid Hdot.
    pose proof Hid as Hid'. apply andb_true_iff in Hid'.
    destruct Hid' as [_ Hall].
    apply getVideoId_shape_url; auto.
    intros shj Hj. apply match1_exec_None.
    unfold exec, shape_url. rewrite !list_ascii_of_string_app.
    apply url_pattern_miss; auto.
    intros Hin. apply in_app_or in Hin. destruct Hin as [Hin|Hin].
    - now apply (idchar_not_dot _ Hall).
    - now apply (no_dot_spec rest). }
  split.
  { intros s Hs Hnone. rewrite getVideoId_not_id by exact Hs.
    now apply first_match_none. }
  split.
  { intros s Hlen. rewrite getVideoId_not_id.
    - apply first_match_none. intros p Hp. apply In_patterns in Hp.
      destruct Hp as [sh ->]. apply match1_exec_None, exec_short. lia.
    - unfold is_video_id. replace (_ =? 11) with false; [reflexivity|].
      symmetry. apply Nat.eqb_neq. lia. }
  { intros s Hbad Hnone. rewrite getVideoId_not_id.
    - now apply first_match_none.
    - unfold is_video_id. rewrite Hbad. apply andb_false_r. }
Qed.

Lemma getVideoId_url_shapes_witness :
  getVideoId "https://www.youtube.com/watch?v=dQw4w9WgXcQ&t=10s" = Some "dQw4w9WgXcQ"
  /\ getVideoId "youtu.be/abc_DEF-123" = Some "abc_DEF-123"
  /\ getVideoId "dQw4w9WgXc" = None
  /\ match1 (pattern_of Shorts) "http://youtube.com/shorts/dQw4w9WgXcQ" = Some "dQw4w9WgXcQ"
  /\ getVideoId "youtube.com/watch?v=dQw4w9WgXcQ&u=https://youtu.be/abc_DEF-123"
     = Some "dQw4w9WgXcQ"
  /\ getVideoId "http://www.youtube.com/embed/dQw4w9WgXcQ?rel=0&origin=a.b"
     = Some "dQw4w9WgXcQ".
Proof.
  destruct getVideoId_url_shapes
    as (Hhit & _ & _ & Hfirst & Hwatch & Hurl & _ & Hshort & _).
  split.
  { apply (Hurl Watch "https://" "www." "dQw4w9WgXcQ" "&t=10s");
      [simpl; tauto | simpl; tauto | reflexivity | reflexivity]. }
  split.
  { apply (Hurl YoutuBe "" "" "abc_DEF-123" "");
      [simpl; tauto | simpl; tauto | reflexivity | reflexivity]. }
  split.
  { apply (Hshort "dQw4w9WgXc"). simpl. lia. }
  split.
  { apply (Hhit Shorts "http://" "" "dQw4w9WgXcQ" "");
      [simpl; tauto | simpl; tauto | reflexivity]. }
  split.
  { apply (Hwatch "" "" "dQw4w9WgXcQ" "&u=https://youtu.be/abc_DEF-123");
      [simpl; tauto | simpl; tauto | reflexivity]. }
  { apply (Hfirst Embed "http://" "www." "dQw4w9WgXcQ" "?rel=0&origin=a.b");
      [simpl; tauto | simpl; tauto | reflexivity |].
    intros shj Hj. destruct shj; simpl in Hj; try lia. reflexivity. }
Defined.

(** C8, counterexample.  A URL of the youtu.be shape that embeds the
    identifier AAAAAAAAAAA, and whose query repeats a watch URL, resolves
    to the identifier of the latter: the watch pattern is tried first.
    And a bare identifier, which none of the five URL patterns matches,
    resolves to itself, not to nothing. *)
Lemma getVideoId_shape_counterexample :
  shape_url "https://" "" YoutuBe "AAAAAAAAAAA" "?u=youtube.com/watch?v=BBBBBBBBBBB"
  = "https://youtu.be/AAAAAAAAAAA?u=youtube.com/watch?v=BBBBBBBBBBB"
  /\ is_video_id "AAAAAAAAAAA" = true
  /\ getVideoId "https://youtu.be/AAAAAAAAAAA?u=youtube.com/watch?v=BBBBBBBBBBB"
     = Some "BBBBBBBBBBB"
  /\ getVideoId "https://youtu.be/AAAAAAAAAAA?u=youtube.com/watch?v=BBBBBBBBBBB"
     <> Some "AAAAAAAAAAA"
  /\ (forall p, In p patterns -> match1 p "dQw4w9WgXcQ" = None)
  /\ getVideoId "dQw4w9WgXcQ" = Some "dQw4w9WgXcQ"
  /\ getVideoId "dQw4w9WgXcQ" <> None.
Proof.
  split; [reflexivity|]. split; [reflexivity|]. split; [reflexivity|].
  split; [discriminate|]. split; [|split; [reflexivity|discriminate]].
  intros p Hp. simpl in Hp.
  destruct Hp as [<-|[<-|[<-|[<-|[<-|[]]]]]]; reflexivity.
Qed.

(** ** Evaluation and awaiting code *)

Lemma obind_Ok {A B : Type} (o : outcome A) (f : A -> outcome B) (b : B) :
  obind o f = Ok b -> exists a, o = Ok a /\ f a = Ok b.
Proof. destruct o as [a|e]; simpl; [eauto|discriminate]. Qed.

Lemma bind_Ok {A B : Type} (c : M A) (f : A -> M B) (t t' : trace) (b : B) :
  bind c f t = (Ok b, t') ->
  exists a t1, c t = (Ok a, t1) /\ f a t1 = (Ok b, t').
Proof.
  unfold bind. destruct (c t) as [[a|e] t1]; [eauto|discriminate].
Qed.

Lemma logged_eq {A : Type} (c : M A) (t : trace) : logged c t = c t.
Proof. unfold logged, try_catch, throw. now destruct (c t) as [[a|e] t1]. Qed.

Lemma handler_eq {A : Type} (c : M A) (t : trace) :
  handler c t =
  match c t with
  | (Ok a, t') => (Ok (ResultText a), t')
  | (Throw e, t') =>
      (Ok (ErrorText (if String.eqb (message e) "" then "Unknown error"
                      else message e)), t')
  end.
Proof.
  unfold handler, try_catch, bind, ret. now destruct (c t) as [[a|e] t1].
Qed.

Lemma get_obj (fields : list (string * value)) (k : string) :
  get (VObj fields) k
  = Ok (match lookup k fields with Some x => x | None => VUndefined end).
Proof. reflexivity. Qed.

Lemma mapM_Forall2 {A B : Type} (f : A -> outcome B) (l : list A) (bs : list B) :
  mapM f l = Ok bs -> Forall2 (fun a b => f a = Ok b) l bs.
Proof.
  revert bs. induction l as [|a l IH]; intros bs H; simpl in H.
  - injection H as <-. constructor.
  - apply obind_Ok in H. destruct H as (b & Hb & H).
    apply obind_Ok in H. destruct H as (bs' & Hbs & H).
    injection H as <-. constructor; auto.
Qed.

Lemma mapM_total {A B : Type} (f : A -> outcome B) (l : list A) :
  Forall (fun a => exists b, f a = Ok b) l -> exists bs, mapM f l = Ok bs.
Proof.
  induction 1 as [|a l [b Hb] _ [bs Hbs]]; simpl.
  - eauto.
  - rewrite Hb, Hbs. simpl. eauto.
Qed.

Lemma mapM_length {A B : Type} (f : A -> outcome B) (l : list A) (bs : list B) :
  mapM f l = Ok bs -> List.length bs = List.length l.
Proof.
  intros H. apply mapM_Forall2 in H. symmetry. eapply Forall2_length; eauto.
Qed.

Lemma get_total (v : value) (k : string) :
  nullish v = false -> exists x, get v k = Ok x.
Proof. destruct v; simpl; intros H; try discriminate H; eauto. Qed.

Lemma opt_get_total (v : value) (k : string) : exists x, opt_get v k = Ok x.
Proof. destruct v; simpl; eauto. Qed.

Lemma mapComment_total (comment : value) :
  nullish comment = false -> exists c, mapComment comment = Ok c.
Proof.
  intros H. unfold mapComment.
  destruct (get_total comment "comment_id" H) as [x1 ->].
  destruct (get_total comment "channel" H) as [x2 ->].
  simpl obind.
  destruct (opt_get_total x2 "name") as [x3 ->].
  destruct (get_total comment "content" H) as [x4 ->].
  destruct (get_total comment "published_date" H) as [x5 ->].
  destruct (get_total comment "extracted_vote_count" H) as [x6 ->].
  destruct (get_total comment "replies_count" H) as [x7 ->].
  destruct (get_total comment "replies_next_page_token" H) as [x8 ->].
  simpl. eauto.
Qed.

Lemma slice0_nonneg {A : Type} (arr : list A) (limit : Z) :
  (0 <= limit)%Z ->
  slice0 arr limit = firstn (Nat.min (List.length arr) (Z.to_nat limit)) arr.
Proof.
  intros H. unfold slice0.
  destruct (Z.ltb_spec limit 0); [lia|].
  f_equal. lia.
Qed.

Lemma slice0_negative {A : Type} (arr : list A) (limit : Z) :
  (limit < 0)%Z ->
  slice0 arr limit = firstn (List.length arr - Z.to_nat (- limit)) arr.
Proof.
  intros H. unfold slice0.
  destruct (Z.ltb_spec limit 0); [|lia].
  f_equal. lia.
Qed.

Lemma get_Ok_nullish (data : value) (k : string) (v : value) :
  get data k = Ok v -> nullish data = false.
Proof. destruct data; simpl; intros H; try discriminate H; reflexivity. Qed.

(** What the comments-page mapping returns for an array of comments: the
    images, in order, of the entries that [slice(0, limit)] keeps. *)
Lemma commentsPageMapping_array (data : value) (entries : list value)
    (ext : string) (limit : Z) :
  get data "comments" = Ok (VArr entries) ->
  Forall (fun e => nullish e = false) (slice0 entries limit) ->
  exists page,
    commentsPageMapping data ext limit = Ok page /\
    Forall2 (fun e c => mapComment e = Ok c) (slice0 entries limit) (comments page) /\
    page_commentCount page = Z.of_nat (List.length (comments page)).
Proof.
  intros Hc Hall. pose proof (get_Ok_nullish _ _ _ Hc) as Hdata.
  unfold commentsPageMapping.
  destruct (get_total data "video_id" Hdata) as [x1 ->].
  destruct (get_total data "title" Hdata) as [x2 ->].
  destruct (get_total data "comments_next_page_token" Hdata) as [x3 ->].
  rewrite Hc. simpl obind. simpl items.
  destruct (mapM_total mapComment (slice0 entries limit)) as [cs Hcs].
  { eapply Forall_impl; [|exact Hall]. intros e He. now apply mapComment_total. }
  rewrite Hcs. simpl. eexists. split; [reflexivity|]. simpl.
  split; [now apply mapM_Forall2|reflexivity].
Qed.

(** ** The page metadata extractor *)

(** C1 (amended).  [fetchBasicVideoInfo] never throws: it issues the one
    page request and returns a record.  After a response with a success
    status the four fields are what the four patterns find in the body,
    each on its own and absent when its pattern finds nothing; after a
    non-success status, and after a transport failure, the record is
    returned all the same, with all four fields absent (the error that
    carries the status code is caught inside the function and only
    logged). *)
Theorem fetchBasicVideoInfo_never_throws
    (network : trace -> request -> reply) (videoId : string) (t : trace) :
  fetchBasicVideoInfo network videoId t
  = (Ok match network t (watch_request videoId) with
        | Answered r =>
            if ok r then
              {| basic_title := extract (meta_pattern "title") (body_text r);
                 basic_channelName := extract (meta_pattern "author") (body_text r);
                 basic_publishedAt := extract (field_pattern "publishDate") (body_text r);
                 basic_viewCount := extract (field_pattern "viewCount") (body_text r) |}
            else no_basic_info
        | Rejected _ => no_basic_info
        end,
     t ++ [watch_request videoId]).
Proof.
  unfold fetchBasicVideoInfo, try_catch, bind, fetch, watch_request.
  destruct (network t _) as [reason|r]; [reflexivity|].
  destruct (ok r); reflexivity.
Qed.

(** C1, counterexample.  On a 404 response, and on a rejected request, the
    caller of [fetchBasicVideoInfo] gets a normal result and no error. *)
Lemma fetchBasicVideoInfo_swallows_failures :
  ok (Response 404 "Not Found" None) = false
  /\ run (fetchBasicVideoInfo network_404 "dQw4w9WgXcQ")
     = (Ok no_basic_info, [watch_request "dQw4w9WgXcQ"])
  /\ ~ (exists e, fst (run (fetchBasicVideoInfo network_404 "dQw4w9WgXcQ")) = Throw e)
  /\ run (fetchBasicVideoInfo network_down "dQw4w9WgXcQ")
     = (Ok no_basic_info, [watch_request "dQw4w9WgXcQ"])
  /\ ~ (exists e, fst (run (fetchBasicVideoInfo network_down "dQw4w9WgXcQ")) = Throw e).
Proof.
  repeat split; try reflexivity; intros [e He]; discriminate He.
Qed.

(** ** The comments-page mapping *)

Lemma firstn_min {A : Type} (l : list A) (k : nat) :
  firstn (Nat.min (List.length l) k) l = firstn k l.
Proof.
  destruct (Nat.le_gt_cases k (List.length l)).
  - now rewrite Nat.min_r.
  - rewrite Nat.min_l by lia. now rewrite !firstn_all2 by lia.
Qed.

(** C3 (amended).  For a response whose [comments] is an array of n
    entries and an integer limit L that is not negative, when none of the
    entries kept is [null], the comments-page mapping returns exactly
    min(n, L) comments, and they are the images of the first min(n, L)
    entries, in order.  A call of [getCommentsData] without a limit is a
    call with limit 100. *)
Theorem commentsPageMapping_truncates :
  (forall data entries ext limit,
      get data "comments" = Ok (VArr entries) ->
      (0 <= limit)%Z ->
      Forall (fun e => nullish e = false) (firstn (Z.to_nat limit) entries) ->
      exists page,
        commentsPageMapping data ext limit = Ok page /\
        List.length (comments page)
        = Nat.min (List.length entries) (Z.to_nat limit) /\
        Forall2 (fun e c => mapComment e = Ok c)
          (firstn (Nat.min (List.length entries) (Z.to_nat limit)) entries)
          (comments page))
  /\ (forall key network url sort pageToken,
         getCommentsData key network (mkCommentsParams url None sort pageToken)
         = getCommentsData key network
             (mkCommentsParams url (Some 100%Z) sort pageToken)).
Proof.
  split; [|reflexivity].
  intros data entries ext limit Hc Hl Hall.
  destruct (commentsPageMapping_array data entries ext limit Hc)
    as (page & Hpage & Himg & _).
  { rewrite slice0_nonneg, firstn_min by exact Hl. exact Hall. }
  exists page. rewrite slice0_nonneg in Himg by exact Hl.
  split; [exact Hpage|]. split; [|exact Himg].
  apply Forall2_length in Himg. rewrite <- Himg, length_firstn. lia.
Qed.

Lemma commentsPageMapping_truncates_witness :
  exists page,
    commentsPageMapping three_comments "" 2 = Ok page /\
    List.length (comments page) = 2 /\
    Forall2 (fun e c => mapComment e = Ok c)
      [VObj [("comment_id", VStr "a")]; VObj [("comment_id", VStr "b")]]
      (comments page).
Proof.
  apply (proj1 commentsPageMapping_truncates three_comments
           [VObj [("comment_id", VStr "a")];
            VObj [("comment_id", VStr "b")];
            VObj [("comment_id", VStr "c")]] "" 2%Z).
  - reflexivity.
  - lia.
  - simpl. repeat constructor.
Defined.

(** C3, counterexample.  With three entries and limit -1 the mapping
    returns two comments, which is not min(3, -1); and an array that holds
    [null] makes the mapping throw instead of returning. *)
Lemma commentsPageMapping_limit_counterexample :
  (exists page,
      commentsPageMapping three_comments "" (-1) = Ok page /\
      Z.of_nat (List.length (comments page)) = 2%Z /\
      Z.of_nat (List.length (comments page)) <> Z.min 3 (-1))
  /\ commentsPageMapping null_comment "" 100
     = Throw (TypeError "Cannot read properties of null (reading 'comment_id')").
Proof.
  split; [|reflexivity].
  eexists. split; [reflexivity|]. split; [reflexivity|]. simpl. lia.
Qed.





(** C6.  When [data.comments] is absent ([undefined]) or anything else
    that is not an array, the comments-page mapping returns, with no
    comments and a count of 0. *)
Theorem commentsPageMapping_no_comments
    (data : value) (ext : string) (limit : Z) (v : value) :
  get data "comments" = Ok v ->
  isArray v = false ->
  exists page,
    commentsPageMapping data ext limit = Ok page /\
    comments page = [] /\ page_commentCount page = 0%Z.
Proof.
  intros Hc Harr. pose proof (get_Ok_nullish _ _ _ Hc) as Hdata.
  unfold commentsPageMapping.
  destruct (get_total data "video_id" Hdata) as [x1 ->].
  destruct (get_total data "title" Hdata) as [x2 ->].
  destruct (get_total data "comments_next_page_token" Hdata) as [x3 ->].
  rewrite Hc. simpl obind. rewrite Harr, orb_true_r.
  eexists. split; [reflexivity|]. split; reflexivity.
Qed.

Lemma commentsPageMapping_no_comments_witness :
  (exists page,
      commentsPageMapping (VObj [("title", VStr "T")]) "dQw4w9WgXcQ" 100 = Ok page /\
      comments page = [] /\ page_commentCount page = 0%Z)
  /\ (exists page,
         commentsPageMapping (VObj [("comments", VStr "none")]) "dQw4w9WgXcQ" 100
         = Ok page /\
         comments page = [] /\ page_commentCount page = 0%Z).
Proof.
  split.
  - apply (commentsPageMapping_no_comments (VObj [("title", VStr "T")])
             "dQw4w9WgXcQ" 100 VUndefined); reflexivity.
  - apply (commentsPageMapping_no_comments (VObj [("comments", VStr "none")])
             "dQw4w9WgXcQ" 100 (VStr "none")); reflexivity.
Defined.

(** ** The getReplies tool *)

(** C5.  When neither [url] nor [pageToken] is given (absent, or the empty
    string), the getReplies tool answers with the error "Either url or
    pageToken must be provided" and issues no request: the trace is
    unchanged. *)
Theorem getReplies_requires_url_or_pageToken
    (key : option string) (network : trace -> request -> reply)
    (url pageToken : option string) (limit : Z) (sort : sort_order) (t : trace) :
  given url = false -> given pageToken = false ->
  getReplies_tool key network url limit sort pageToken t
  = (Ok (ErrorText "Either url or pageToken must be provided"), t).
Proof.
  intros Hu Hp. unfold getReplies_tool. rewrite handler_eq, Hu, Hp. reflexivity.
Qed.

Lemma getReplies_requires_url_or_pageToken_witness :
  run (getReplies_tool (Some "key") network_down None 100 relevance None)
  = (Ok (ErrorText "Either url or pageToken must be provided"), []).
Proof.
  apply (getReplies_requires_url_or_pageToken (Some "key") network_down
           None None 100 relevance []); reflexivity.
Defined.

(** ** The handlers *)

Section Handlers.

Variable key : option string.
Variable network : trace -> request -> reply.

Lemma fetch_trace (rq : request) (t : trace) :
  snd (fetch network rq t) = t ++ [rq].
Proof. unfold fetch. now destruct (network t rq). Qed.

Lemma read_json_trace (r : response) (t : trace) : snd (read_json r t) = t.
Proof.
  unfold read_json, bind, json, lift, throw, ret.
  destruct (ok r); simpl; [|reflexivity].
  destruct (body_json r) as [v|]; [|reflexivity].
  destruct (Object_keys v); reflexivity.
Qed.

(** One upstream page request and what follows it issue exactly that
    request. *)
Lemma page_fetch_trace {A : Type} (rq : request) (g : value -> outcome A)
    (t : trace) :
  snd ((response <- fetch network rq ;; data <- read_json response ;; lift (g data)) t)
  = t ++ [rq].
Proof.
  unfold bind at 1. pose proof (fetch_trace rq t) as Hf.
  destruct (fetch network rq t) as [[r|e] t1]; simpl in Hf; subst t1;
    [|reflexivity].
  unfold bind. pose proof (read_json_trace r (t ++ [rq])) as Hr.
  destruct (read_json r (t ++ [rq])) as [[v|e] t2]; simpl in Hr; subst t2;
    reflexivity.
Qed.

Lemma getVideoId_empty : getVideoId "" = None.
Proof. reflexivity. Qed.

(** A successful [getVideoInfoData]: the URL resolved, the key is set, and
    exactly the video-info request was issued. *)
Lemma getVideoInfoData_Ok (url : string) (videoInfo : VideoInfoResponse)
    (t t1 : trace) :
  getVideoInfoData key network url t = (Ok videoInfo, t1) ->
  getVideoId url = Some (videoId videoInfo) /\
  given (Some (videoId videoInfo)) = true /\
  given key = true /\
  t1 = t ++ [info_request key (videoId videoInfo)].
Proof.
  unfold getVideoInfoData. rewrite logged_eq.
  destruct (getVideoId url) as [vid|]; [|discriminate].
  destruct (given (Some vid)) eqn:Hvid; [|discriminate].
  destruct (given key) eqn:Hkey; [|discriminate].
  simpl negb. cbv iota. intros H.
  apply bind_Ok in H. destruct H as (r & t2 & Hf & H).
  pose proof (fetch_trace (info_request key vid) t) as Ht.
  unfold info_request, api_key in Ht.
  unfold api_key in Hf. rewrite Hf in Ht. simpl in Ht. subst t2.
  apply bind_Ok in H. destruct H as (data & t3 & Hr & H).
  pose proof (read_json_trace r (t ++ [info_request key vid])) as Ht.
  unfold info_request, api_key in Ht. rewrite Hr in Ht. simpl in Ht. subst t3.
  unfold lift in H. injection H as H Ht1.
  repeat (apply obind_Ok in H; destruct H as (? & _ & H)).
  injection H as <-. simpl. repeat split; auto.
Qed.

Lemma find_newest_tokens (tokens : list SortingToken) :
  find_newest (map SortingToken_json tokens)
  = Ok match newest tokens with
       | Some t => SortingToken_json t
       | None => VUndefined
       end.
Proof.
  induction tokens as [|t tokens IH]; simpl; [reflexivity|].
  unfold is_newest, newest. simpl.
  fold (is_newest_title t). destruct (is_newest_title t); [reflexivity|].
  exact IH.
Qed.

(** The token the code selects is the one the rule of the specification
    names. *)
Lemma tokenToUse_selected (sort : sort_order) (videoInfo : VideoInfoResponse)
    (sorting : option (list SortingToken)) :
  commentsSortingTokens videoInfo = sorting_json sorting ->
  tokenToUse sort videoInfo
  = Ok (selected_token sort sorting (commentsNextPageToken videoInfo)).
Proof.
  intros Hs. unfold tokenToUse, selected_token. rewrite Hs.
  destruct sort; [reflexivity|].
  destruct sorting as [tokens|]; simpl; [|reflexivity].
  rewrite find_newest_tokens. simpl.
  destruct (newest tokens) as [tk|]; reflexivity.
Qed.

Lemma first_page_params_eq (url : string) (sort : sort_order)
    (videoInfo : VideoInfoResponse) (token : value) (t t1 : trace) :
  getVideoInfoData key network url t = (Ok videoInfo, t1) ->
  tokenToUse sort videoInfo = Ok token ->
  first_page_params key network url sort t
  = if truthy token then
      (Ok (req_query (page_request key token), videoId videoInfo), t1)
    else (Throw (Error "Could not find valid comments token"), t1).
Proof.
  intros Hinfo Htok. unfold first_page_params.
  destruct (getVideoInfoData_Ok url videoInfo t t1 Hinfo) as (Hid & Hgiven & _ & _).
  rewrite Hid, Hgiven. change (negb true) with false. cbv iota.
  unfold bind. rewrite Hinfo. unfold lift. rewrite Htok.
  destruct (truthy token); reflexivity.
Qed.

Lemma getCommentsData_first_page (url : string) (limit : Z) (sort : sort_order)
    (t : trace) :
  given key = true ->
  getCommentsData key network (mkCommentsParams url (Some limit) (Some sort) None) t
  = (chosen <- first_page_params key network url sort ;;
     response <- fetch network (Get SERPAPI_BASE_URL (fst chosen)) ;;
     data <- read_json response ;;
     lift (commentsPageMapping data (snd chosen) limit)) t.
Proof.
  intros Hkey. unfold getCommentsData. rewrite logged_eq. simpl.
  now rewrite Hkey.
Qed.

Lemma getReplies_tool_url (url : string) (limit : Z) (sort : sort_order)
    (pageToken : option string) (t : trace) :
  given (Some url) = true ->
  getReplies_tool key network (Some url) limit sort pageToken t
  = handler
      (getCommentsData key network
         (mkCommentsParams url (Some limit) (Some sort) pageToken)) t.
Proof. intros H. unfold getReplies_tool. rewrite H. reflexivity. Qed.

Lemma getReplies_tool_first_page (url : string) (limit : Z) (sort : sort_order)
    (videoInfo : VideoInfoResponse) (token : value) (t t1 : trace) :
  getVideoInfoData key network url t = (Ok videoInfo, t1) ->
  tokenToUse sort videoInfo = Ok token ->
  (truthy token = true ->
   snd (getReplies_tool key network (Some url) limit sort None t)
   = t1 ++ [page_request key token])
  /\ (truthy token = false ->
      getReplies_tool key network (Some url) limit sort None t
      = (Ok (ErrorText "Could not find valid comments token"), t1)).
Proof.
  intros Hinfo Htok.
  destruct (getVideoInfoData_Ok url videoInfo t t1 Hinfo) as (Hid & _ & Hkey & _).
  assert (Hurl : given (Some url) = true).
  { destruct url; [rewrite getVideoId_empty in Hid; discriminate Hid|reflexivity]. }
  rewrite (getReplies_tool_url url limit sort None t Hurl), handler_eq.
  rewrite getCommentsData_first_page by exact Hkey.
  split; intros Htruthy; unfold bind at 1;
    rewrite (first_page_params_eq url sort videoInfo token t t1 Hinfo Htok), Htruthy.
  - pose proof (page_fetch_trace (page_request key token)
                  (fun data => commentsPageMapping data (videoId videoInfo) limit) t1)
      as Htr.
    match goal with
    | |- snd (let (_, _) := ?X in _) = _ =>
        change (snd X = t1 ++ [page_request key token]) in Htr;
        destruct X as [[page|e] t2]
    end; simpl in Htr; subst t2; reflexivity.
  - reflexivity.
Qed.

End Handlers.

(** ** The choice of the page token *)

Lemma is_newest_titled (e : value) (s : string) :
  entry_title e = Some s ->
  is_newest e = Ok (includes "newest" (toLowerCase s)).
Proof.
  unfold entry_title, is_newest. intros H.
  destruct e as [| |b|n|s'|l|fields]; try discriminate H.
  rewrite get_obj.
  destruct (lookup "title" fields) as [[| |b|n|s'|l|fs]|]; try discriminate H.
  injection H as ->. reflexivity.
Qed.

Lemma is_newest_untitled (e : value) :
  entry_title e = None ->
  exists msg, In msg sorting_faults /\ is_newest e = Throw (TypeError msg).
Proof.
  unfold entry_title, is_newest. intros H.
  destruct e as [| |b|n|s'|l|fields];
    try (eexists; split; [|reflexivity]; simpl; tauto).
  rewrite get_obj.
  destruct (lookup "title" fields) as [[| |b|n|s'|l|fs]|]; try discriminate H;
    eexists; (split; [|reflexivity]); simpl; tauto.
Qed.

Lemma sorting_faults_message (msg : string) :
  In msg sorting_faults -> String.eqb msg "" = false.
Proof.
  intros H. simpl in H.
  destruct H as [<-|[<-|[<-|[<-|[<-|[<-|[]]]]]]]; reflexivity.
Qed.

Lemma sorting_faults_other (msg : string) :
  In msg sorting_faults -> msg <> "Could not find valid comments token".
Proof.
  intros H. simpl in H.
  destruct H as [<-|[<-|[<-|[<-|[<-|[<-|[]]]]]]]; discriminate.
Qed.

(** [find] passes over the entries whose titles do not contain newest. *)
Lemma find_newest_plain (before rest : list value) :
  forallb plain_entry before = true ->
  find_newest (before ++ rest) = find_newest rest.
Proof.
  induction before as [|e before IH]; intros H; [reflexivity|].
  simpl in H. apply andb_true_iff in H. destruct H as [He Hb].
  unfold plain_entry in He.
  destruct (entry_title e) as [s|] eqn:Ht; [|discriminate He].
  apply negb_true_iff in He.
  change (find_newest ((e :: before) ++ rest))
    with (let! hit := is_newest e in
          if hit then Ok e else find_newest (before ++ rest)).
  rewrite (is_newest_titled e s Ht). simpl obind. rewrite He. now apply IH.
Qed.

Lemma find_newest_hit (e : value) (after : list value) :
  newest_entry e = true -> find_newest (e :: after) = Ok e.
Proof.
  unfold newest_entry. intros H.
  destruct (entry_title e) as [s|] eqn:Ht; [|discriminate H].
  change (find_newest (e :: after))
    with (let! hit := is_newest e in if hit then Ok e else find_newest after).
  rewrite (is_newest_titled e s Ht). simpl obind. now rewrite H.
Qed.

Lemma find_newest_fault (e : value) (after : list value) :
  entry_title e = None ->
  exists msg, In msg sorting_faults /\
              find_newest (e :: after) = Throw (TypeError msg).
Proof.
  intros H. destruct (is_newest_untitled e H) as (msg & Hin & Hmsg).
  exists msg. split; [exact Hin|].
  change (find_newest (e :: after))
    with (let! hit := is_newest e in if hit then Ok e else find_newest after).
  now rewrite Hmsg.
Qed.

Lemma tokenToUse_falsy (sort : sort_order) (videoInfo : VideoInfoResponse) :
  truthy (commentsSortingTokens videoInfo) = false ->
  tokenToUse sort videoInfo = Ok (commentsNextPageToken videoInfo).
Proof.
  intros H. unfold tokenToUse. rewrite H. now destruct sort.
Qed.

Lemma tokenToUse_newest (videoInfo : VideoInfoResponse)
    (before : list value) (fields : list (string * value)) (after : list value) :
  commentsSortingTokens videoInfo = VArr (before ++ VObj fields :: after) ->
  forallb plain_entry before = true ->
  newest_entry (VObj fields) = true ->
  tokenToUse time videoInfo = Ok (field fields "token").
Proof.
  intros Hl Hb Hn. unfold tokenToUse. rewrite Hl.
  simpl truthy. cbv iota. simpl call_find_newest.
  rewrite (find_newest_plain before _ Hb), (find_newest_hit _ after Hn).
  reflexivity.
Qed.

Lemma tokenToUse_plain (sort : sort_order) (videoInfo : VideoInfoResponse)
    (entries : list value) :
  commentsSortingTokens videoInfo = VArr entries ->
  forallb plain_entry entries = true ->
  tokenToUse sort videoInfo = Ok (commentsNextPageToken videoInfo).
Proof.
  intros Hl Hp. destruct sort; [reflexivity|].
  unfold tokenToUse. rewrite Hl. simpl truthy. cbv iota. simpl call_find_newest.
  rewrite <- (app_nil_r entries), (find_newest_plain entries [] Hp).
  reflexivity.
Qed.

Lemma tokenToUse_malformed (videoInfo : VideoInfoResponse) :
  malformed_sorting (commentsSortingTokens videoInfo) ->
  exists msg, In msg sorting_faults /\
              tokenToUse time videoInfo = Throw (TypeError msg).
Proof.
  unfold tokenToUse.
  intros [[Ht Ha]|(before & e & after & Hl & Hb & He)].
  - rewrite Ht.
    destruct (commentsSortingTokens videoInfo) as [| |b|n|s|l|fields];
      try discriminate Ht; try discriminate Ha;
      eexists; (split; [|reflexivity]); simpl; tauto.
  - rewrite Hl. simpl truthy. cbv iota. simpl call_find_newest.
    rewrite (find_newest_plain before _ Hb).
    destruct (find_newest_fault e after He) as (msg & Hin & Hmsg).
    exists msg. split; [exact Hin|]. now rewrite Hmsg.
Qed.

Lemma tokenToUse_no_usable (sort : sort_order) (videoInfo : VideoInfoResponse) :
  truthy (commentsNextPageToken videoInfo) = false ->
  no_usable_newest sort (commentsSortingTokens videoInfo) ->
  exists token, tokenToUse sort videoInfo = Ok token /\ truthy token = false.
Proof.
  intros Hd [->|[Hf|[(entries & Hl & Hp)|(before & fields & after & Hl & Hb & Hn & Ht)]]].
  - exists (commentsNextPageToken videoInfo). now split.
  - exists (commentsNextPageToken videoInfo).
    split; [now apply tokenToUse_falsy|exact Hd].
  - exists (commentsNextPageToken videoInfo).
    split; [now apply (tokenToUse_plain sort videoInfo entries)|exact Hd].
  - destruct sort.
    + exists (commentsNextPageToken videoInfo). now split.
    + exists (field fields "token").
      split; [now apply (tokenToUse_newest videoInfo before fields after)|exact Ht].
Qed.

(** Every array splits at its first entry that is not plain, if there is
    one. *)
Lemma first_not_plain (entries : list value) :
  forallb plain_entry entries = true
  \/ exists before e after,
       entries = before ++ e :: after
       /\ forallb plain_entry before = true
       /\ plain_entry e = false.
Proof.
  induction entries as [|e entries IH]; [now left|].
  destruct (plain_entry e) eqn:He.
  - destruct IH as [IH|(before & e' & after & -> & Hb & He')].
    + left. simpl. now rewrite He.
    + right. exists (e :: before), e', after. simpl. rewrite He. now repeat split.
  - right. exists [], e, entries. now repeat split.
Qed.

(** The cases of the selection leave no value of the list out. *)
Lemma sorting_cases (sorting : value) :
  truthy sorting = false
  \/ (exists entries,
        sorting = VArr entries /\ forallb plain_entry entries = true)
  \/ (exists before fields after,
        sorting = VArr (before ++ VObj fields :: after)
        /\ forallb plain_entry before = true
        /\ newest_entry (VObj fields) = true)
  \/ malformed_sorting sorting.
Proof.
  destruct (truthy sorting) eqn:Ht; [right|now left].
  destruct (isArray sorting) eqn:Ha.
  - destruct sorting as [| |b|n|s|entries|fields]; try discriminate Ha.
    destruct (first_not_plain entries) as [Hp|(before & e & after & -> & Hb & He)].
    + left. now exists entries.
    + right. destruct (entry_title e) as [s|] eqn:Htitle.
      * left. unfold plain_entry in He. rewrite Htitle in He.
        apply negb_false_iff in He.
        destruct e as [| |b|n|s'|l|fields]; try discriminate Htitle.
        exists before, fields, after.
        split; [reflexivity|]. split; [exact Hb|].
        unfold newest_entry. now rewrite Htitle.
      * right. right. now exists before, e, after.
  - right. right. left. now split.
Qed.

Section TokenSelection.

Variable key : option string.
Variable network : trace -> request -> reply.

(** When the choice of the token throws, the tool answers the message and
    nothing is requested after the video info. *)
Lemma getReplies_tool_first_page_throw (url : string) (limit : Z)
    (sort : sort_order) (videoInfo : VideoInfoResponse) (e : exn) (t t1 : trace) :
  getVideoInfoData key network url t = (Ok videoInfo, t1) ->
  tokenToUse sort videoInfo = Throw e ->
  getReplies_tool key network (Some url) limit sort None t
  = (Ok (ErrorText (if String.eqb (message e) "" then "Unknown error"
                    else message e)), t1).
Proof.
  intros Hinfo Htok.
  destruct (getVideoInfoData_Ok key network url videoInfo t t1 Hinfo)
    as (Hid & Hgiven & Hkey & _).
  assert (Hurl : given (Some url) = true).
  { destruct url; [rewrite getVideoId_empty in Hid; discriminate Hid|reflexivity]. }
  rewrite (getReplies_tool_url key network url limit sort None t Hurl), handler_eq.
  rewrite getCommentsData_first_page by exact Hkey.
  unfold bind at 1. unfold first_page_params.
  rewrite Hid, Hgiven. change (negb true) with false. cbv iota.
  unfold bind at 1. rewrite Hinfo. unfold bind, lift. rewrite Htok. reflexivity.
Qed.

Lemma getReplies_tool_malformed (url : string) (limit : Z)
    (videoInfo : VideoInfoResponse) (t t1 : trace) :
  getVideoInfoData key network url t = (Ok videoInfo, t1) ->
  malformed_sorting (commentsSortingTokens videoInfo) ->
  exists msg,
    In msg sorting_faults /\
    tokenToUse time videoInfo = Throw (TypeError msg) /\
    getReplies_tool key network (Some url) limit time None t
    = (Ok (ErrorText msg), t1).
Proof.
  intros Hinfo Hbad.
  destruct (tokenToUse_malformed videoInfo Hbad) as (msg & Hin & Hmsg).
  exists msg. split; [exact Hin|]. split; [exact Hmsg|].
  rewrite (getReplies_tool_first_page_throw url limit time videoInfo _ t t1
             Hinfo Hmsg).
  simpl message. now rewrite (sorting_faults_message msg Hin).
Qed.

End TokenSelection.

(** C2 (amended).  A getReplies call with a URL and no page token, after
    the video info has been fetched; [default] is its
    [commentsNextPageToken] and [list] its [commentsSortingTokens], both
    of them whatever JSON values the upstream response held.
    - Under relevance ordering the token selected is [default], whatever
      [list] is.
    - When [list] is falsy (absent, [null], ...) the token selected is
      [default].
    - Under time ordering, when [list] is an array in which entries that
      are objects with a string title not containing newest
      (case-insensitively) are followed by an object whose string title
      does contain it, the token selected is the [token] property of that
      object ([undefined] when it has none); other properties and their
      order do not matter.
    - When [list] is an array all of whose entries are objects with a
      string title not containing newest, the token selected is [default].
    - In particular, when [list] is absent or an array of objects made of
      a string [title] and a string [token], the token selected is the one
      the rule of the specification names.
    - Under time ordering, when [list] is truthy but no array, or an array
      in which an entry that is no object with a string title comes before
      any entry with newest in its title, the selection throws a type
      error: the call answers its message and no page request is issued.
    - When the selected token is truthy the page request carries exactly
      it; when it is falsy the call answers "Could not find valid comments
      token" and no page request is issued.
    - These cases leave no value of [list] out. *)
Theorem getReplies_sort_token_selection
    (key : option string) (network : trace -> request -> reply)
    (url : string) (limit : Z) (sort : sort_order)
    (videoInfo : VideoInfoResponse) (t1 : trace) :
  run (getVideoInfoData key network url) = (Ok videoInfo, t1) ->
  (sort = relevance ->
   tokenToUse sort videoInfo = Ok (commentsNextPageToken videoInfo))
  /\ (truthy (commentsSortingTokens videoInfo) = false ->
      tokenToUse sort videoInfo = Ok (commentsNextPageToken videoInfo))
  /\ (forall before fields after,
         sort = time ->
         commentsSortingTokens videoInfo = VArr (before ++ VObj fields :: after) ->
         forallb plain_entry before = true ->
         newest_entry (VObj fields) = true ->
         tokenToUse sort videoInfo = Ok (field fields "token"))
  /\ (forall entries,
         commentsSortingTokens videoInfo = VArr entries ->
         forallb plain_entry entries = true ->
         tokenToUse sort videoInfo = Ok (commentsNextPageToken videoInfo))
  /\ (forall sorting,
         commentsSortingTokens videoInfo = sorting_json sorting ->
         tokenToUse sort videoInfo
         = Ok (selected_token sort sorting (commentsNextPageToken videoInfo)))
  /\ (sort = time ->
      malformed_sorting (commentsSortingTokens videoInfo) ->
      exists msg,
        In msg sorting_faults /\
        tokenToUse sort videoInfo = Throw (TypeError msg) /\
        run (getReplies_tool key network (Some url) limit sort None)
        = (Ok (ErrorText msg), [info_request key (videoId videoInfo)]))
  /\ (forall token,
         tokenToUse sort videoInfo = Ok token ->
         (truthy token = true ->
          snd (run (getReplies_tool key network (Some url) limit sort None))
          = [info_request key (videoId videoInfo); page_request key token])
         /\ (truthy token = false ->
             run (getReplies_tool key network (Some url) limit sort None)
             = (Ok (ErrorText "Could not find valid comments token"),
                [info_request key (videoId videoInfo)])))
  /\ (truthy (commentsSortingTokens videoInfo) = false
      \/ (exists entries,
            commentsSortingTokens videoInfo = VArr entries
            /\ forallb plain_entry entries = true)
      \/ (exists before fields after,
            commentsSortingTokens videoInfo
            = VArr (before ++ VObj fields :: after)
            /\ forallb plain_entry before = true
            /\ newest_entry (VObj fields) = true)
      \/ malformed_sorting (commentsSortingTokens videoInfo)).
Proof.
  intros Hinfo.
  destruct (getVideoInfoData_Ok key network url videoInfo [] t1 Hinfo)
    as (_ & _ & _ & Ht1). simpl in Ht1.
  split; [intros ->; reflexivity|].
  split; [now apply tokenToUse_falsy|].
  split.
  { intros before fields after -> Hl Hb Hn.
    now apply (tokenToUse_newest videoInfo before fields after). }
  split; [exact (tokenToUse_plain sort videoInfo)|].
  split; [exact (tokenToUse_selected sort videoInfo)|].
  split.
  { intros -> Hbad.
    destruct (getReplies_tool_malformed key network url limit videoInfo [] t1
                Hinfo Hbad) as (msg & Hin & Hmsg & Htool).
    exists msg. subst t1. now repeat split. }
  split; [|exact (sorting_cases (commentsSortingTokens videoInfo))].
  intros token Htok.
  destruct (getReplies_tool_first_page key network url limit sort videoInfo
              token [] t1 Hinfo Htok) as [Hyes Hno].
  subst t1. split; [exact Hyes|exact Hno].
Qed.

Lemma getReplies_sort_token_selection_witness :
  snd (run (getReplies_tool (Some "key")
              (example_network (Some "D") (Some example_tokens))
              (Some example_url) 100 time None))
  = [info_request (Some "key") "dQw4w9WgXcQ";
     page_request (Some "key") (VStr "B")]
  /\ snd (run (getReplies_tool (Some "key")
                 (example_network (Some "D") (Some example_tokens))
                 (Some example_url) 100 relevance None))
     = [info_request (Some "key") "dQw4w9WgXcQ";
        page_request (Some "key") (VStr "D")]
  /\ tokenToUse time
       (raw_videoInfo (Some (VStr "D"))
          (Some (VArr [VObj [("token", VStr "A"); ("title", VStr "Top comments")];
                       VObj [("id", VNum 2); ("token", VStr "B");
                             ("title", VStr "NEWEST first")]])))
     = Ok (VStr "B")
  /\ tokenToUse time (raw_videoInfo (Some (VStr "D")) (Some VNull))
     = Ok (VStr "D")
  /\ (exists msg,
         In msg sorting_faults /\
         tokenToUse time (raw_videoInfo (Some (VStr "D")) (Some (VArr [VNull])))
         = Throw (TypeError msg) /\
         run (getReplies_tool (Some "key")
                (raw_network (Some (VStr "D")) (Some (VArr [VNull]))
                   (Answered (Response 200 "" (Some three_comments))))
                (Some example_url) 100 time None)
         = (Ok (ErrorText msg), [info_request (Some "key") "dQw4w9WgXcQ"])).
Proof.
  split.
  { pose proof (getReplies_sort_token_selection (Some "key")
                  (example_network (Some "D") (Some example_tokens))
                  example_url 100 time
                  (example_videoInfo (Some "D") (Some example_tokens))
                  [info_request (Some "key") "dQw4w9WgXcQ"] eq_refl)
      as (_ & _ & Hnewest & _ & _ & _ & Huse & _).
    apply (Huse (VStr "B")); [|reflexivity].
    apply (Hnewest [SortingToken_json (mkSortingToken "Top comments" "A")]
             [("title", VStr "Newest first"); ("token", VStr "B")] []);
      reflexivity. }
  split.
  { pose proof (getReplies_sort_token_selection (Some "key")
                  (example_network (Some "D") (Some example_tokens))
                  example_url 100 relevance
                  (example_videoInfo (Some "D") (Some example_tokens))
                  [info_request (Some "key") "dQw4w9WgXcQ"] eq_refl)
      as (Hrel & _ & _ & _ & _ & _ & Huse & _).
    apply (Huse (VStr "D")); [|reflexivity].
    apply Hrel. reflexivity. }
  split.
  { pose proof (getReplies_sort_token_selection (Some "key")
                  (raw_network (Some (VStr "D"))
                     (Some (VArr [VObj [("token", VStr "A");
                                        ("title", VStr "Top comments")];
                                  VObj [("id", VNum 2); ("token", VStr "B");
                                        ("title", VStr "NEWEST first")]]))
                     (Answered (Response 200 "" (Some three_comments))))
                  example_url 100 time
                  (raw_videoInfo (Some (VStr "D"))
                     (Some (VArr [VObj [("token", VStr "A");
                                        ("title", VStr "Top comments")];
                                  VObj [("id", VNum 2); ("token", VStr "B");
                                        ("title", VStr "NEWEST first")]])))
                  [info_request (Some "key") "dQw4w9WgXcQ"] eq_refl)
      as (_ & _ & Hnewest & _).
    apply (Hnewest [VObj [("token", VStr "A"); ("title", VStr "Top comments")]]
             [("id", VNum 2); ("token", VStr "B"); ("title", VStr "NEWEST first")]
             []);
      reflexivity. }
  split.
  { pose proof (getReplies_sort_token_selection (Some "key")
                  (raw_network (Some (VStr "D")) (Some VNull)
                     (Answered (Response 200 "" (Some three_comments))))
                  example_url 100 time
                  (raw_videoInfo (Some (VStr "D")) (Some VNull))
                  [info_request (Some "key") "dQw4w9WgXcQ"] eq_refl)
      as (_ & Hfalsy & _).
    apply Hfalsy. reflexivity. }
  { pose proof (getReplies_sort_token_selection (Some "key")
                  (raw_network (Some (VStr "D")) (Some (VArr [VNull]))
                     (Answered (Response 200 "" (Some three_comments))))
                  example_url 100 time
                  (raw_videoInfo (Some (VStr "D")) (Some (VArr [VNull])))
                  [info_request (Some "key") "dQw4w9WgXcQ"] eq_refl)
      as (_ & _ & _ & _ & _ & Hbad & _).
    apply Hbad; [reflexivity|].
    right. exists [], VNull, []. repeat split. }
Defined.

(** C2, counterexample.  Time ordering, no newest entry and no default
    token: the call signals an error where the claim promises a silent
    fallback.  Likewise when the newest entry carries an empty token,
    although a default token exists; and when the list holds [null], which
    is no entry with newest in its title, although a default token
    exists. *)
Lemma getReplies_fallback_signals_error :
  run (getVideoInfoData (Some "key")
         (example_network None (Some [mkSortingToken "Top comments" "A"]))
         example_url)
  = (Ok (example_videoInfo None (Some [mkSortingToken "Top comments" "A"])),
     [info_request (Some "key") "dQw4w9WgXcQ"])
  /\ newest [mkSortingToken "Top comments" "A"] = None
  /\ run (getReplies_tool (Some "key")
            (example_network None (Some [mkSortingToken "Top comments" "A"]))
            (Some example_url) 100 time None)
     = (Ok (ErrorText "Could not find valid comments token"),
        [info_request (Some "key") "dQw4w9WgXcQ"])
  /\ newest [mkSortingToken "Newest first" ""]
     = Some (mkSortingToken "Newest first" "")
  /\ run (getReplies_tool (Some "key")
            (example_network (Some "D") (Some [mkSortingToken "Newest first" ""]))
            (Some example_url) 100 time None)
     = (Ok (ErrorText "Could not find valid comments token"),
        [info_request (Some "key") "dQw4w9WgXcQ"])
  /\ run (getVideoInfoData (Some "key")
            (raw_network (Some (VStr "D")) (Some (VArr [VNull]))
               (Answered (Response 200 "" (Some three_comments))))
            example_url)
     = (Ok (raw_videoInfo (Some (VStr "D")) (Some (VArr [VNull]))),
        [info_request (Some "key") "dQw4w9WgXcQ"])
  /\ run (getReplies_tool (Some "key")
            (raw_network (Some (VStr "D")) (Some (VArr [VNull]))
               (Answered (Response 200 "" (Some three_comments))))
            (Some example_url) 100 time None)
     = (Ok (ErrorText "Cannot read properties of null (reading 'title')"),
        [info_request (Some "key") "dQw4w9WgXcQ"]).
Proof. repeat split. Qed.

(** C10 (amended).  A getReplies call with a URL and no page token whose
    fetched video info has no truthy [commentsNextPageToken].
    - It answers "Could not find valid comments token", and the only
      request issued is the video-info request, in each of these cases:
      the ordering is relevance; [commentsSortingTokens] is falsy (absent,
      [null], ...); it is an array of objects with string titles none of
      which contains newest; or, under time ordering, the first entry with
      newest in its title, after objects with other string titles, has a
      falsy [token].
    - Under time ordering, when [commentsSortingTokens] is truthy but no
      array, or an array in which an entry that is no object with a string
      title comes before any entry with newest in its title, the call
      fails as well and issues no page request, but the answer is the
      message of a type error, not "Could not find valid comments
      token". *)
Theorem getReplies_no_token_fails
    (key : option string) (network : trace -> request -> reply)
    (url : string) (limit : Z) (sort : sort_order)
    (videoInfo : VideoInfoResponse) (t1 : trace) :
  run (getVideoInfoData key network url) = (Ok videoInfo, t1) ->
  truthy (commentsNextPageToken videoInfo) = false ->
  (no_usable_newest sort (commentsSortingTokens videoInfo) ->
   run (getReplies_tool key network (Some url) limit sort None)
   = (Ok (ErrorText "Could not find valid comments token"),
      [info_request key (videoId videoInfo)]))
  /\ (sort = time ->
      malformed_sorting (commentsSortingTokens videoInfo) ->
      exists msg,
        In msg sorting_faults /\
        msg <> "Could not find valid comments token" /\
        run (getReplies_tool key network (Some url) limit sort None)
        = (Ok (ErrorText msg), [info_request key (videoId videoInfo)])).
Proof.
  intros Hinfo Hdefault.
  destruct (getVideoInfoData_Ok key network url videoInfo [] t1 Hinfo)
    as (_ & _ & _ & Ht1). simpl in Ht1.
  split.
  - intros Hnone.
    destruct (tokenToUse_no_usable sort videoInfo Hdefault Hnone)
      as (token & Htok & Hfalsy).
    destruct (getReplies_tool_first_page key network url limit sort videoInfo
                token [] t1 Hinfo Htok) as [_ Hno].
    subst t1. now apply Hno.
  - intros -> Hbad.
    destruct (getReplies_tool_malformed key network url limit videoInfo [] t1
                Hinfo Hbad) as (msg & Hin & _ & Htool).
    exists msg. subst t1.
    split; [exact Hin|]. split; [now apply sorting_faults_other|exact Htool].
Qed.

Lemma getReplies_no_token_fails_witness :
  run (getReplies_tool (Some "key")
         (example_network None (Some [mkSortingToken "Top comments" "A"]))
         (Some example_url) 100 time None)
  = (Ok (ErrorText "Could not find valid comments token"),
     [info_request (Some "key") "dQw4w9WgXcQ"])
  /\ run (getReplies_tool (Some "key")
            (raw_network (Some VNull)
               (Some (VArr [VObj [("title", VStr "Newest first")]]))
               (Answered (Response 200 "" (Some three_comments))))
            (Some example_url) 100 time None)
     = (Ok (ErrorText "Could not find valid comments token"),
        [info_request (Some "key") "dQw4w9WgXcQ"])
  /\ (exists msg,
         In msg sorting_faults /\
         msg <> "Could not find valid comments token" /\
         run (getReplies_tool (Some "key")
                (raw_network None (Some (VStr "newest"))
                   (Answered (Response 200 "" (Some three_comments))))
                (Some example_url) 100 time None)
         = (Ok (ErrorText msg), [info_request (Some "key") "dQw4w9WgXcQ"])).
Proof.
  split.
  { apply (getReplies_no_token_fails (Some "key")
             (example_network None (Some [mkSortingToken "Top comments" "A"]))
             example_url 100 time
             (example_videoInfo None (Some [mkSortingToken "Top comments" "A"]))
             [info_request (Some "key") "dQw4w9WgXcQ"] eq_refl eq_refl).
    right. right. left.
    exists [SortingToken_json (mkSortingToken "Top comments" "A")].
    split; reflexivity. }
  split.
  { apply (getReplies_no_token_fails (Some "key")
             (raw_network (Some VNull)
                (Some (VArr [VObj [("title", VStr "Newest first")]]))
                (Answered (Response 200 "" (Some three_comments))))
             example_url 100 time
             (raw_videoInfo (Some VNull)
                (Some (VArr [VObj [("title", VStr "Newest first")]])))
             [info_request (Some "key") "dQw4w9WgXcQ"] eq_refl eq_refl).
    right. right. right.
    exists [], [("title", VStr "Newest first")], [].
    repeat split. }
  { apply (getReplies_no_token_fails (Some "key")
             (raw_network None (Some (VStr "newest"))
                (Answered (Response 200 "" (Some three_comments))))
             example_url 100 time
             (raw_videoInfo None (Some (VStr "newest")))
             [info_request (Some "key") "dQw4w9WgXcQ"] eq_refl eq_refl);
      [reflexivity|].
    left. split; reflexivity. }
Defined.

(** C10, counterexample.  Time ordering, no default token, and a sorting
    list that holds [null]: the video info has neither a default token nor
    a usable newest token, and the call fails before the page request, but
    the answer is the message of the type error that [find] raises, not
    "Could not find valid comments token". *)
Lemma getReplies_no_token_other_message :
  run (getVideoInfoData (Some "key")
         (raw_network None (Some (VArr [VNull]))
            (Answered (Response 200 "" (Some three_comments))))
         example_url)
  = (Ok (raw_videoInfo None (Some (VArr [VNull]))),
     [info_request (Some "key") "dQw4w9WgXcQ"])
  /\ truthy (commentsNextPageToken (raw_videoInfo None (Some (VArr [VNull]))))
     = false
  /\ find_newest [VNull]
     = Throw (TypeError "Cannot read properties of null (reading 'title')")
  /\ run (getReplies_tool (Some "key")
            (raw_network None (Some (VArr [VNull]))
               (Answered (Response 200 "" (Some three_comments))))
            (Some example_url) 100 time None)
     = (Ok (ErrorText "Cannot read properties of null (reading 'title')"),
        [info_request (Some "key") "dQw4w9WgXcQ"])
  /\ run (getReplies_tool (Some "key")
            (raw_network None (Some (VArr [VNull]))
               (Answered (Response 200 "" (Some three_comments))))
            (Some example_url) 100 time None)
     <> (Ok (ErrorText "Could not find valid comments token"),
         [info_request (Some "key") "dQw4w9WgXcQ"]).
Proof.
  split; [reflexivity|]. split; [reflexivity|]. split; [reflexivity|].
  split; [reflexivity|]. discriminate.
Qed.

(** ** Counts *)

Lemma commentsPageMapping_count (data : value) (ext : string) (limit : Z)
    (page : CommentsPage) :
  commentsPageMapping data ext limit = Ok page ->
  page_commentCount page = Z.of_nat (List.length (comments page)).
Proof.
  unfold commentsPageMapping. intros H.
  repeat (apply obind_Ok in H; destruct H as (? & _ & H)).
  match type of H with
  | (if ?b then _ else _) = _ => destruct b
  end.
  - injection H as <-. reflexivity.
  - apply obind_Ok in H. destruct H as (cs & _ & H).
    injection H as <-. reflexivity.
Qed.

Lemma repliesPageMapping_count (data : value) (page : RepliesPage) :
  repliesPageMapping data = Ok page ->
  replyCount page = Z.of_nat (List.length (page_replies page)).
Proof.
  unfold repliesPageMapping. intros H.
  repeat (apply obind_Ok in H; destruct H as (? & _ & H)).
  match type of H with
  | (if ?b then _ else _) = _ => destruct b
  end.
  - injection H as <-. reflexivity.
  - apply obind_Ok in H. destruct H as (cs & _ & H).
    injection H as <-. reflexivity.
Qed.

Lemma lift_Ok {A : Type} (o : outcome A) (t t' : trace) (a : A) :
  lift o t = (Ok a, t') -> o = Ok a.
Proof. unfold lift. now intros [= -> _]. Qed.

Lemma getCommentsData_Ok (key : option string)
    (network : trace -> request -> reply) (p : CommentsParams)
    (t t' : trace) (page : CommentsPage) :
  getCommentsData key network p t = (Ok page, t') ->
  exists data ext limit, commentsPageMapping data ext limit = Ok page.
Proof.
  unfold getCommentsData. rewrite logged_eq.
  destruct (negb (given key)); [discriminate|]. intros H.
  apply bind_Ok in H. destruct H as (chosen & t1 & _ & H).
  apply bind_Ok in H. destruct H as (r & t2 & _ & H).
  apply bind_Ok in H. destruct H as (data & t3 & _ & H).
  apply lift_Ok in H. eauto.
Qed.

Lemma getRepliesData_Ok (key : option string)
    (network : trace -> request -> reply) (pageToken : string)
    (t t' : trace) (page : RepliesPage) :
  getRepliesData key network pageToken t = (Ok page, t') ->
  exists data, repliesPageMapping data = Ok page.
Proof.
  unfold getRepliesData. rewrite logged_eq.
  destruct (negb (given key)); [discriminate|]. intros H.
  apply bind_Ok in H. destruct H as (r & t2 & _ & H).
  apply bind_Ok in H. destruct H as (data & t3 & _ & H).
  apply lift_Ok in H. eauto.
Qed.

Lemma handler_ResultText {A : Type} (c : M A) (t t' : trace) (a : A) :
  handler c t = (Ok (ResultText a), t') -> c t = (Ok a, t').
Proof.
  rewrite handler_eq. destruct (c t) as [[x|e] t1]; intros H.
  - now injection H as -> ->.
  - discriminate H.
Qed.

(** C9.  In every successful result of [getCommentsData] and of the
    getReplies tool, [commentCount] is the length of [comments]; in every
    successful result of [getRepliesData] and of the getCommentReplies
    tool, [replyCount] is the length of [replies]. *)
Theorem page_counts_match
    (key : option string) (network : trace -> request -> reply) :
  (forall p t t' page,
      getCommentsData key network p t = (Ok page, t') ->
      page_commentCount page = Z.of_nat (List.length (comments page)))
  /\ (forall pageToken t t' page,
         getRepliesData key network pageToken t = (Ok page, t') ->
         replyCount page = Z.of_nat (List.length (page_replies page)))
  /\ (forall url limit sort pageToken t t' page,
         getReplies_tool key network url limit sort pageToken t
         = (Ok (ResultText page), t') ->
         page_commentCount page = Z.of_nat (List.length (comments page)))
  /\ (forall pageToken t t' page,
         getCommentReplies_tool key network pageToken t
         = (Ok (ResultText page), t') ->
         replyCount page = Z.of_nat (List.length (page_replies page))).
Proof.
  assert (Hc : forall p t t' page,
             getCommentsData key network p t = (Ok page, t') ->
             page_commentCount page = Z.of_nat (List.length (comments page))).
  { intros p t t' page H. apply getCommentsData_Ok in H.
    destruct H as (data & ext & limit & H).
    now apply commentsPageMapping_count in H. }
  assert (Hr : forall pageToken t t' page,
             getRepliesData key network pageToken t = (Ok page, t') ->
             replyCount page = Z.of_nat (List.length (page_replies page))).
  { intros pageToken t t' page H. apply getRepliesData_Ok in H.
    destruct H as (data & H). now apply repliesPageMapping_count in H. }
  split; [exact Hc|]. split; [exact Hr|]. split.
  - intros url limit sort pageToken t t' page H. unfold getReplies_tool in H.
    apply handler_ResultText in H.
    destruct (negb (given url) && negb (given pageToken)); [discriminate H|].
    now apply Hc in H.
  - intros pageToken t t' page H. unfold getCommentReplies_tool in H.
    apply handler_ResultText in H. now apply Hr in H.
Qed.

Lemma page_counts_match_witness :
  (exists page t',
      run (getReplies_tool (Some "key")
             (example_network (Some "D") (Some example_tokens))
             (Some example_url) 2 time None)
      = (Ok (ResultText page), t') /\
      page_commentCount page = Z.of_nat (List.length (comments page)) /\
      List.length (comments page) = 2)
  /\ (exists page t',
         run (getCommentReplies_tool (Some "key") replies_network "XYZ")
         = (Ok (ResultText page), t') /\
         replyCount page = Z.of_nat (List.length (page_replies page)) /\
         List.length (page_replies page) = 1).
Proof.
  split.
  - eexists. eexists. split; [reflexivity|]. split; [|reflexivity].
    eapply (proj1 (proj2 (proj2
              (page_counts_match (Some "key")
                 (example_network (Some "D") (Some example_tokens)))))
              (Some example_url) 2%Z time None []).
    reflexivity.
  - eexists. eexists. split; [reflexivity|]. split; [|reflexivity].
    eapply (proj2 (proj2 (proj2
              (page_counts_match (Some "key") replies_network))) "XYZ" []).
    reflexivity.
Defined.

(* ===================================================================== *)
(** * Examples: the testable properties of the specification, evaluated *)
(* ===================================================================== *)

Example getVideoId_bare : getVideoId "dQw4w9WgXcQ" = Some "dQw4w9WgXcQ".
Proof. reflexivity. Qed.

Example getVideoId_watch :
  getVideoId "https://www.youtube.com/watch?v=dQw4w9WgXcQ&t=10s"
  = Some "dQw4w9WgXcQ".
Proof. reflexivity. Qed.

Example getVideoId_embed_v_shorts :
  getVideoId "http://youtube.com/embed/abc_DEF-123" = Some "abc_DEF-123"
  /\ getVideoId "www.youtube.com/v/abc_DEF-123" = Some "abc_DEF-123"
  /\ getVideoId "https://youtu.be/abc_DEF-123" = Some "abc_DEF-123"
  /\ getVideoId "https://www.youtube.com/shorts/abc_DEF-123" = Some "abc_DEF-123".
Proof. repeat split. Qed.

Example getVideoId_not_found :
  getVideoId "https://example.com/watch" = None
  /\ getVideoId "abc" = None
  /\ getVideoId "dQw4w9WgXc!" = None.
Proof. repeat split. Qed.

(** The first matching pattern decides: a short link whose query repeats a
    watch URL resolves to the identifier of the latter. *)
Example getVideoId_first_pattern_wins :
  getVideoId "https://youtu.be/AAAAAAAAAAA?u=youtube.com/watch?v=BBBBBBBBBBB"
  = Some "BBBBBBBBBBB".
Proof. reflexivity. Qed.

Example fetchBasicVideoInfo_scrapes :
  run (fetchBasicVideoInfo
         (fun _ _ =>
            Answered (Response 200
              ("<html><META  name=" ++ dq ++ "title" ++ dq ++ " content=" ++ dq
               ++ "Hello" ++ dq ++ "><script>{" ++ dq ++ "viewCount" ++ dq ++ ":"
               ++ dq ++ "1234" ++ dq ++ "}</script>")%string None))
         "dQw4w9WgXcQ")
  = (Ok {| basic_title := Some "Hello";
           basic_channelName := None;
           basic_publishedAt := None;
           basic_viewCount := Some "1234" |},
     [watch_request "dQw4w9WgXcQ"]).
Proof. reflexivity. Qed.

Example truncation_150_to_100 :
  match commentsPageMapping
          (VObj [("comments", VArr (repeat (VObj []) 150))]) "" 100 with
  | Ok page =>
      List.length (comments page) = 100 /\ page_commentCount page = 100%Z
  | Throw _ => False
  end.
Proof. vm_compute. split; reflexivity. Qed.

Example getVideoInfo_end_to_end :
  run (getVideoInfo_tool (Some "key")
         (fun _ _ =>
            Answered (Response 200 ""
              (Some (VObj [("views", VStr "1,234"); ("title", VStr "T")]))))
         "https://www.youtube.com/watch?v=abc12345678")
  = (Ok (ResultText
           {| videoId := "abc12345678";
              title := VStr "T";
              viewCount := VStr "1,234";
              publishDate := VUndefined;
              channelName := VUndefined;
              commentCount := VUndefined;
              commentsNextPageToken := VUndefined;
              commentsSortingTokens := VUndefined |}),
     [info_request (Some "key") "abc12345678"]).
Proof. reflexivity. Qed.

Example getCommentReplies_end_to_end :
  run (getCommentReplies_tool (Some "key") replies_network "XYZ")
  = (Ok (ResultText
           {| parentCommentId := VStr "";
              page_replies :=
                [ {| reply_commentId := VStr "c1";
                     reply_author := VStr "Anonymous";
                     reply_text := VStr "hi";
                     reply_time := VStr "";
                     reply_likes := VNum 0 |} ];
              replyCount := 1;
              replies_nextPageToken := VUndefined |}),
     [page_request (Some "key") (VStr "XYZ")]).
Proof. reflexivity. Qed.

Example getReplies_without_key :
  run (getReplies_tool None network_down (Some example_url) 100 relevance None)
  = (Ok (ErrorText "SERPAPI_KEY is not set in environment variables"), []).
Proof. reflexivity. Qed.

Example getReplies_upstream_error :
  run (getReplies_tool (Some "key") network_404 None 100 relevance (Some "tok"))
  = (Ok (ErrorText "SerpAPI error: 404 - Not Found"),
     [page_request (Some "key") (VStr "tok")]).
Proof. reflexivity. Qed.

(** A negative limit counts from the end of the array. *)
Example negative_limit_drops_from_the_end :
  slice0 [1; 2; 3] (-1) = [1; 2] /\ slice0 [1; 2; 3] (-5) = [].
Proof. split; reflexivity. Qed.

(* ===================================================================== *)
(** * Further properties of the code *)
(* ===================================================================== *)

(** ** Captures *)

(** What a run of the matcher leaves in the capture: the text it had, or a
    word of a group, taken from the part of the input the run consumed. *)
Lemma m_capture (r : regex) :
  forall (R : Type) (b : bool) (s : list ascii) (cap : option (list ascii))
         (k : bool -> list ascii -> option (list ascii) -> option R) (x : R),
    m r b s cap k = Some x ->
    exists w s' b' cap',
      s = w ++ s' /\ k b' s' cap' = Some x /\
      (cap' = cap \/
       exists g u v, cap' = Some g /\ w = u ++ g ++ v /\ caps r g).
Proof.
  induction r as [| | |c|c|p|r1 IH1 r2 IH2|r1 IH1|n r1 IH1|p|r1 IH1];
    intros R b s cap k x H; simpl in H.
  - exists [], s, b, cap. auto.
  - destruct b; [|discriminate H]. exists [], s, true, cap. auto.
  - destruct s; [|discriminate H]. exists [], [], b, cap. auto.
  - destruct s as [|d s]; [discriminate H|].
    destruct (Ascii.eqb c d); [|discriminate H].
    exists [d], s, false, cap. auto.
  - destruct s as [|d s]; [discriminate H|].
    destruct (eqb_ci c d); [|discriminate H].
    exists [d], s, false, cap. auto.
  - destruct s as [|d s]; [discriminate H|].
    destruct (p d); [|discriminate H].
    exists [d], s, false, cap. auto.
  - apply IH1 in H. destruct H as (w1 & s1 & b1 & c1 & -> & H & C1).
    apply IH2 in H. destruct H as (w2 & s2 & b2 & c2 & -> & H & C2).
    exists (w1 ++ w2), s2, b2, c2. rewrite <- app_assoc.
    split; [reflexivity|]. split; [exact H|].
    destruct C2 as [->|(g & u & v & -> & -> & Hg)].
    + destruct C1 as [->|(g & u & v & -> & -> & Hg)]; [now left|].
      right. exists g, u, (v ++ w2). simpl.
      repeat split; auto. now rewrite <- !app_assoc.
    + right. exists g, (w1 ++ u), v. simpl.
      repeat split; auto. now rewrite <- !app_assoc.
  - destruct (m r1 b s cap k) as [y|] eqn:E.
    + injection H as ->. apply IH1 in E.
      destruct E as (w & s' & b' & c' & -> & E & C).
      exists w, s', b', c'. simpl. auto.
    + exists [], s, b, cap. auto.
  - revert b s cap H. induction n as [|n IHn]; intros b s cap H.
    + exists [], s, b, cap. auto.
    + apply IH1 in H. destruct H as (w1 & s1 & b1 & c1 & -> & H & C1).
      apply IHn in H. destruct H as (w2 & s2 & b2 & c2 & -> & H & C2).
      exists (w1 ++ w2), s2, b2, c2. rewrite <- app_assoc.
      split; [reflexivity|]. split; [exact H|].
      destruct C2 as [->|(g & u & v & -> & -> & Hg)].
      * destruct C1 as [->|(g & u & v & -> & -> & Hg)]; [now left|].
        right. exists g, u, (v ++ w2). simpl.
        repeat split; auto. now rewrite <- !app_assoc.
      * right. exists g, (w1 ++ u), v. simpl.
        repeat split; auto. now rewrite <- !app_assoc.
  - apply plus_from_sound in H. destruct H as (w & s' & -> & _ & _ & H).
    exists w, s', false, cap. auto.
  - apply m_sound in H. destruct H as (w & s' & b' & c' & -> & L & H).
    rewrite length_app, Nat.add_sub, firstn_app, Nat.sub_diag, firstn_all in H.
    simpl in H. rewrite app_nil_r in H.
    exists w, s', b', (Some w). split; [reflexivity|]. split; [exact H|].
    right. exists w, [], []. simpl. rewrite app_nil_r. auto.
Qed.

Lemma search_capture (r : regex) (s : list ascii) :
  forall b g, search r b s = Some (Some g) ->
  caps r g /\ exists pre post, s = pre ++ g ++ post.
Proof.
  induction s as [|a s IH]; intros b g H; simpl in H.
  - destruct (m r b [] None (fun _ _ c0 => Some c0)) as [c|] eqn:E;
      [|discriminate H].
    injection H as ->. apply m_capture in E.
    destruct E as (w & s' & b' & c' & Hs & [= ->] & C).
    destruct C as [C|(g' & u & v & [= ->] & -> & Hg)]; [discriminate C|].
    split; [exact Hg|]. exists u, (v ++ s'). rewrite Hs.
    now rewrite <- !app_assoc.
  - destruct (m r b (a :: s) None (fun _ _ c0 => Some c0)) as [c|] eqn:E.
    + injection H as ->. apply m_capture in E.
      destruct E as (w & s' & b' & c' & Hs & [= ->] & C).
      destruct C as [C|(g' & u & v & [= ->] & -> & Hg)]; [discriminate C|].
      split; [exact Hg|]. exists u, (v ++ s'). rewrite Hs.
      now rewrite <- !app_assoc.
    + apply IH in H. destruct H as (Hg & pre & post & ->).
      split; [exact Hg|]. now exists (a :: pre), post.
Qed.

Lemma string_of_list_ascii_app (l1 l2 : list ascii) :
  string_of_list_ascii (l1 ++ l2)
  = (string_of_list_ascii l1 ++ string_of_list_ascii l2)%string.
Proof. induction l1; simpl; [reflexivity|]. now rewrite IHl1. Qed.

(** A captured group of a search in a string: a word of a group of the
    pattern that occurs in the string. *)
Lemma exec_capture (r : regex) (s g : string) :
  (exists c, exec r s = Some c /\ group1 c = Some g) ->
  caps r (list_ascii_of_string g) /\ occurs_in g s.
Proof.
  intros (c & He & Hg). destruct c as [l|]; [|discriminate Hg].
  simpl in Hg. injection Hg as <-.
  apply search_capture in He. destruct He as (Hc & pre & post & Hs).
  rewrite list_ascii_of_string_of_list_ascii. split; [exact Hc|].
  exists (string_of_list_ascii pre), (string_of_list_ascii post).
  rewrite <- !string_of_list_ascii_app, <- Hs.
  now rewrite string_of_list_ascii_of_string.
Qed.

Lemma lang_rep_cls (p : ascii -> bool) (n : nat) :
  forall w, lang (Rep n (Cls p)) w -> List.length w = n /\ forallb p w = true.
Proof.
  induction n as [|n IH]; intros w H; simpl in H.
  - subst w. auto.
  - destruct H as (w1 & w2 & -> & (d & -> & Hd) & H2).
    apply IH in H2. destruct H2 as [Hl Hp]. simpl. rewrite Hd, Hp, Hl. auto.
Qed.

Lemma caps_lit_list (l g : list ascii) : ~ caps (lit_list l) g.
Proof. induction l; simpl; tauto. Qed.

Lemma caps_lit_i_list (l g : list ascii) : ~ caps (lit_i_list l) g.
Proof. induction l; simpl; tauto. Qed.

Ltac no_caps :=
  repeat match goal with
         | H : _ \/ _ |- _ => destruct H as [H|H]
         | H : False |- _ => destruct H
         | H : caps (lit_list _) _ |- _ => apply caps_lit_list in H
         | H : caps (lit_i_list _) _ |- _ => apply caps_lit_i_list in H
         end.

Lemma caps_url_pattern (literal : string) (g : list ascii) :
  caps (url_pattern literal) g ->
  List.length g = 11 /\ forallb idchar g = true.
Proof.
  unfold url_pattern, url_prefix, lit. intros H. simpl in H. no_caps.
  now apply (lang_rep_cls idchar 11).
Qed.

Lemma caps_meta_pattern (name : string) (g : list ascii) :
  caps (meta_pattern name) g -> g <> [] /\ forallb not_dq g = true.
Proof.
  unfold meta_pattern, lit_i. intros H. simpl in H. no_caps. exact H.
Qed.

Lemma caps_field_pattern (name : string) (g : list ascii) :
  caps (field_pattern name) g -> g <> [] /\ forallb not_dq g = true.
Proof.
  unfold field_pattern, lit. intros H. simpl in H. no_caps. exact H.
Qed.

(** ** More on the identifier resolver *)

Lemma first_match_Some (ps : list regex) (s g : string) :
  first_match ps s = Some g -> exists p, In p ps /\ match1 p s = Some g.
Proof.
  induction ps as [|p ps IH]; simpl; [discriminate|].
  destruct (match1 p s) as [g'|] eqn:E.
  - intros [= ->]. exists p. auto.
  - intros H. destruct (IH H) as (q & Hq & Hm). exists q. auto.
Qed.

Lemma match1_Some (p : regex) (s g : string) :
  match1 p s = Some g -> exists c, exec p s = Some c /\ group1 c = Some g.
Proof.
  unfold match1. destruct (exec p s) as [c|]; [|discriminate].
  destruct (group1 c) as [g'|] eqn:Hg; [|discriminate].
  destruct (String.eqb g' ""); [discriminate|].
  intros [= ->]. eauto.
Qed.

Lemma occurs_in_refl (s : string) : occurs_in s s.
Proof.
  exists "", "". simpl. induction s as [|c s IH]; simpl; [reflexivity|].
  now rewrite <- IH.
Qed.

Lemma getVideoId_sound (s id : string) :
  getVideoId s = Some id -> is_video_id id = true /\ occurs_in id s.
Proof.
  unfold getVideoId. rewrite test_ID_RE.
  destruct (is_video_id s) eqn:Hs.
  - intros [= <-]. split; [exact Hs|apply occurs_in_refl].
  - intros H. apply first_match_Some in H. destruct H as (p & Hp & H).
    apply In_patterns in Hp. destruct Hp as [sh ->].
    apply match1_Some in H. apply exec_capture in H. destruct H as [Hc Ho].
    split; [|exact Ho].
    apply caps_url_pattern in Hc. destruct Hc as [Hl Hall].
    unfold is_video_id. rewrite <- length_list_ascii_of_string, Hl, Hall.
    reflexivity.
Qed.

(** X1.  Whatever [getVideoId] returns is a canonical identifier (eleven
    characters of the identifier alphabet) that occurs in the input. *)
Theorem getVideoId_returns_canonical_id (s id : string) :
  getVideoId s = Some id ->
  String.length id = 11 /\
  forallb idchar (list_ascii_of_string id) = true /\
  occurs_in id s.
Proof.
  intros H. apply getVideoId_sound in H. destruct H as [Hid Ho].
  apply andb_true_iff in Hid. destruct Hid as [Hl Hall].
  apply Nat.eqb_eq in Hl. auto.
Qed.

Lemma getVideoId_returns_canonical_id_witness :
  getVideoId "https://youtu.be/dQw4w9WgXcQ?t=1" = Some "dQw4w9WgXcQ" /\
  String.length "dQw4w9WgXcQ" = 11 /\
  forallb idchar (list_ascii_of_string "dQw4w9WgXcQ") = true /\
  occurs_in "dQw4w9WgXcQ" "https://youtu.be/dQw4w9WgXcQ?t=1".
Proof.
  split; [reflexivity|].
  apply (getVideoId_returns_canonical_id "https://youtu.be/dQw4w9WgXcQ?t=1").
  reflexivity.
Defined.

(** X2.  Resolving is idempotent: the identifier [getVideoId] returns
    resolves to itself. *)
Theorem getVideoId_idempotent (s id : string) :
  getVideoId s = Some id -> getVideoId id = Some id.
Proof.
  intros H. apply getVideoId_sound in H. destruct H as [Hid _].
  unfold getVideoId. now rewrite test_ID_RE, Hid.
Qed.

Lemma getVideoId_idempotent_witness :
  getVideoId "www.youtube.com/embed/abc_DEF-123" = Some "abc_DEF-123" /\
  getVideoId "abc_DEF-123" = Some "abc_DEF-123".
Proof.
  split; [reflexivity|].
  apply (getVideoId_idempotent "www.youtube.com/embed/abc_DEF-123").
  reflexivity.
Defined.

(** ** More on the page metadata extractor *)

Lemma extract_Some (re : regex) (html v : string) :
  extract re html = Some v ->
  caps re (list_ascii_of_string v) /\ occurs_in v html.
Proof.
  unfold extract. destruct (exec re html) as [c|] eqn:E; [|discriminate].
  intros H. apply exec_capture. eauto.
Qed.

Lemma nonempty_no_dq (v : string) :
  list_ascii_of_string v <> [] /\ forallb not_dq (list_ascii_of_string v) = true ->
  v <> "" /\ no_dq v = true.
Proof.
  intros [Hne Hall]. split; [|exact Hall].
  intros ->. now apply Hne.
Qed.

Lemma fetchBasicVideoInfo_reply
    (network : trace -> request -> reply) (videoId : string) (t : trace) :
  fetchBasicVideoInfo network videoId t
  = (Ok (basic_info_of (network t (watch_request videoId))),
     t ++ [watch_request videoId]).
Proof.
  unfold fetchBasicVideoInfo, try_catch, bind, fetch, watch_request, basic_info_of.
  destruct (network t _) as [reason|r]; [reflexivity|].
  destruct (ok r); reflexivity.
Qed.

(** X3.  Every field that [fetchBasicVideoInfo] returns as present was
    captured from the body of a page response with a success status: it
    occurs in that body, it is not empty and it holds no double quote. *)
Theorem fetchBasicVideoInfo_fields
    (network : trace -> request -> reply) (videoId : string) (t t' : trace)
    (info : BasicVideoInfo) (v : string) :
  fetchBasicVideoInfo network videoId t = (Ok info, t') ->
  In (Some v) [basic_title info; basic_channelName info;
               basic_publishedAt info; basic_viewCount info] ->
  v <> "" /\ no_dq v = true /\
  exists r, network t (watch_request videoId) = Answered r /\
            ok r = true /\ occurs_in v (body_text r).
Proof.
  rewrite fetchBasicVideoInfo_reply. intros [= <- _] Hin.
  unfold basic_info_of in Hin.
  destruct (network t (watch_request videoId)) as [reason|r].
  { simpl in Hin. intuition discriminate. }
  destruct (ok r) eqn:Hok.
  2:{ simpl in Hin. intuition discriminate. }
  simpl in Hin.
  destruct Hin as [H|[H|[H|[H|[]]]]]; apply extract_Some in H;
    destruct H as [Hc Ho];
    [apply caps_meta_pattern in Hc|apply caps_meta_pattern in Hc
    |apply caps_field_pattern in Hc|apply caps_field_pattern in Hc];
    apply nonempty_no_dq in Hc; destruct Hc as [Hne Hdq];
    (split; [exact Hne|]); (split; [exact Hdq|]); exists r; auto.
Qed.

(** ** One upstream call, and the four operations as compositions *)

Section Operations.

Variable key : option string.
Variable network : trace -> request -> reply.

Lemma upstream_call {A : Type} (rq : request) (g : value -> outcome A)
    (t : trace) :
  (response <- fetch network rq ;; data <- read_json response ;; lift (g data)) t
  = (upstream_outcome (network t rq) g, t ++ [rq]).
Proof.
  cbv [bind fetch read_json json lift throw ret upstream_outcome obind].
  destruct (network t rq) as [reason|r]; [reflexivity|].
  destruct (ok r); cbv [negb]; [|reflexivity].
  destruct (body_json r) as [data|]; [|reflexivity].
  destruct (Object_keys data); reflexivity.
Qed.

Lemma handler_render {A : Type} (c : M A) (t : trace) :
  handler c t = (Ok (render (fst (c t))), snd (c t)).
Proof. rewrite handler_eq. now destruct (c t) as [[a|e] t1]. Qed.

Lemma getVideoId_given (url id : string) :
  getVideoId url = Some id -> given (Some id) = true.
Proof.
  intros H. apply getVideoId_sound in H. destruct H as [H _].
  apply andb_true_iff in H. destruct H as [H _]. apply Nat.eqb_eq in H.
  destruct id; [discriminate H|reflexivity].
Qed.

Lemma getVideoInfoData_eq (url id : string) (t : trace) :
  given key = true -> getVideoId url = Some id ->
  getVideoInfoData key network url t
  = (upstream_outcome (network t (info_request key id)) (videoInfoMapping id),
     t ++ [info_request key id]).
Proof.
  intros Hkey Hid. unfold getVideoInfoData. rewrite logged_eq, Hid.
  rewrite (getVideoId_given url id Hid), Hkey.
  change (negb true) with false. cbv iota.
  exact (upstream_call (info_request key id) (videoInfoMapping id) t).
Qed.

Lemma getVideoInfoData_invalid (url : string) (t : trace) :
  getVideoId url = None ->
  getVideoInfoData key network url t
  = (Throw (Error "Invalid YouTube URL or video ID"), t).
Proof. intros H. unfold getVideoInfoData. now rewrite logged_eq, H. Qed.

Lemma getVideoInfoData_no_key (url id : string) (t : trace) :
  given key = false -> getVideoId url = Some id ->
  getVideoInfoData key network url t
  = (Throw (Error "SERPAPI_KEY is not set in environment variables"), t).
Proof.
  intros Hkey Hid. unfold getVideoInfoData. rewrite logged_eq, Hid.
  now rewrite (getVideoId_given url id Hid), Hkey.
Qed.

Lemma getRepliesData_eq (pageToken : string) (t : trace) :
  given key = true ->
  getRepliesData key network pageToken t
  = (upstream_outcome (network t (page_request key (VStr pageToken)))
       repliesPageMapping,
     t ++ [page_request key (VStr pageToken)]).
Proof.
  intros Hkey. unfold getRepliesData. rewrite logged_eq, Hkey.
  change (negb true) with false. cbv iota.
  exact (upstream_call (page_request key (VStr pageToken)) repliesPageMapping t).
Qed.

Lemma getRepliesData_no_key (pageToken : string) (t : trace) :
  given key = false ->
  getRepliesData key network pageToken t
  = (Throw (Error "SERPAPI_KEY is not set in environment variables"), t).
Proof. intros Hkey. unfold getRepliesData. now rewrite logged_eq, Hkey. Qed.

Lemma getCommentsData_no_key (p : CommentsParams) (t : trace) :
  given key = false ->
  getCommentsData key network p t
  = (Throw (Error "SERPAPI_KEY is not set in environment variables"), t).
Proof. intros Hkey. unfold getCommentsData. now rewrite logged_eq, Hkey. Qed.

Lemma getCommentsData_page (p : CommentsParams) (tok : string) (t : trace) :
  given key = true -> cp_pageToken p = Some tok -> given (Some tok) = true ->
  getCommentsData key network p t
  = (upstream_outcome (network t (page_request key (VStr tok)))
       (fun data => commentsPageMapping data ""
          match cp_limit p with Some l => l | None => 100%Z end),
     t ++ [page_request key (VStr tok)]).
Proof.
  intros Hkey Hp Htok. unfold getCommentsData. rewrite logged_eq, Hkey, Hp, Htok.
  change (negb true) with false. cbv iota.
  unfold bind at 1. unfold ret at 1. cbv beta iota. simpl fst. simpl snd.
  exact (upstream_call (page_request key (VStr tok))
           (fun data => commentsPageMapping data ""
          match cp_limit p with Some l => l | None => 100%Z end) t).
Qed.

Lemma getCommentsData_invalid (p : CommentsParams) (t : trace) :
  given key = true -> given (cp_pageToken p) = false ->
  getVideoId (cp_url p) = None ->
  getCommentsData key network p t
  = (Throw (Error "Invalid YouTube URL or video ID"), t).
Proof.
  intros Hkey Hp Hid. unfold getCommentsData. rewrite logged_eq, Hkey, Hp.
  change (negb true) with false. cbv iota.
  unfold bind at 1. unfold first_page_params. now rewrite Hid.
Qed.

End Operations.

Lemma videoInfoMapping_object (id : string) (fields : list (string * value)) :
  videoInfoMapping id (VObj fields)
  = Ok {| videoId := id;
          title := field fields "title";
          viewCount := field fields "views";
          publishDate := field fields "published_date";
          channelName := channel_name fields;
          commentCount := field fields "extracted_comment_count";
          commentsNextPageToken := field fields "comments_next_page_token";
          commentsSortingTokens := field fields "comments_sorting_token" |}.
Proof.
  unfold videoInfoMapping, channel_name, field. rewrite !get_obj. simpl obind.
  destruct (lookup "channel" fields) as [[]|]; reflexivity.
Qed.

Lemma Object_keys_object (fields : list (string * value)) :
  Object_keys (VObj fields) = Ok (map fst fields).
Proof. reflexivity. Qed.

(** X4.  The getVideoInfo tool on a resolvable URL, with the key set and a
    success response whose body is a JSON object: it issues the one
    video-info request for the resolved identifier and returns the fields
    of the object under their new names, each absent when the object has
    none; the identifier returned is the resolved one. *)
Theorem getVideoInfo_maps_fields
    (key : option string) (network : trace -> request -> reply)
    (url id : string) (r : response) (fields : list (string * value))
    (t : trace) :
  given key = true ->
  getVideoId url = Some id ->
  network t (info_request key id) = Answered r ->
  ok r = true ->
  body_json r = Some (VObj fields) ->
  getVideoInfo_tool key network url t
  = (Ok (ResultText
           {| videoId := id;
              title := field fields "title";
              viewCount := field fields "views";
              publishDate := field fields "published_date";
              channelName := channel_name fields;
              commentCount := field fields "extracted_comment_count";
              commentsNextPageToken := field fields "comments_next_page_token";
              commentsSortingTokens := field fields "comments_sorting_token" |}),
     t ++ [info_request key id]).
Proof.
  intros Hkey Hid Hnet Hok Hjson. unfold getVideoInfo_tool.
  rewrite handler_render, (getVideoInfoData_eq key network url id t Hkey Hid).
  rewrite Hnet. unfold upstream_outcome. rewrite Hok, Hjson.
  rewrite Object_keys_object. simpl obind. rewrite videoInfoMapping_object.
  reflexivity.
Qed.

Lemma getVideoInfo_maps_fields_witness :
  run (getVideoInfo_tool (Some "key")
         (example_network (Some "D") None) example_url)
  = (Ok (ResultText (example_videoInfo (Some "D") None)),
     [info_request (Some "key") "dQw4w9WgXcQ"]).
Proof.
  apply (getVideoInfo_maps_fields (Some "key") (example_network (Some "D") None)
           example_url "dQw4w9WgXcQ"
           (Response 200 "" (Some (example_info (Some "D") None)))
           [("title", VStr "T"); ("comments_next_page_token", VStr "D")] []);
    reflexivity.
Defined.

(** X5.  Without an API key (unset or empty) no request is issued: the
    getReplies tool (given a URL or a page token), the getCommentReplies
    tool, and the getVideoInfo tool on a resolvable URL all answer that
    the key is not set and leave the trace as it was. *)
Theorem missing_key_stops_before_the_network
    (key : option string) (network : trace -> request -> reply) :
  given key = false ->
  (forall url id t,
      getVideoId url = Some id ->
      getVideoInfo_tool key network url t
      = (Ok (ErrorText "SERPAPI_KEY is not set in environment variables"), t))
  /\ (forall url limit sort pageToken t,
         given url || given pageToken = true ->
         getReplies_tool key network url limit sort pageToken t
         = (Ok (ErrorText "SERPAPI_KEY is not set in environment variables"), t))
  /\ (forall pageToken t,
         getCommentReplies_tool key network pageToken t
         = (Ok (ErrorText "SERPAPI_KEY is not set in environment variables"), t)).
Proof.
  intros Hkey. split; [|split].
  - intros url id t Hid. unfold getVideoInfo_tool.
    now rewrite handler_render,
      (getVideoInfoData_no_key key network url id t Hkey Hid).
  - intros url limit sort pageToken t Hgiven. unfold getReplies_tool.
    rewrite handler_render.
    replace (negb (given url) && negb (given pageToken)) with false
      by (destruct (given url), (given pageToken); try reflexivity;
          discriminate Hgiven).
    now rewrite (getCommentsData_no_key key network _ t Hkey).
  - intros pageToken t. unfold getCommentReplies_tool.
    now rewrite handler_render,
      (getRepliesData_no_key key network pageToken t Hkey).
Qed.

Lemma missing_key_stops_before_the_network_witness :
  run (getVideoInfo_tool None network_down example_url)
  = (Ok (ErrorText "SERPAPI_KEY is not set in environment variables"), [])
  /\ run (getReplies_tool (Some "") network_down None 100 time (Some "tok"))
     = (Ok (ErrorText "SERPAPI_KEY is not set in environment variables"), [])
  /\ run (getCommentReplies_tool None network_down "tok")
     = (Ok (ErrorText "SERPAPI_KEY is not set in environment variables"), []).
Proof.
  split; [|split].
  - apply (proj1 (missing_key_stops_before_the_network None network_down eq_refl)
             example_url "dQw4w9WgXcQ" []). reflexivity.
  - apply (proj1 (proj2 (missing_key_stops_before_the_network (Some "")
                           network_down eq_refl))
             None 100%Z time (Some "tok") []). reflexivity.
  - apply (proj2 (proj2 (missing_key_stops_before_the_network None
                           network_down eq_refl)) "tok" []).
Defined.

(** X6.  An input that does not resolve is refused before any request: the
    getVideoInfo tool answers "Invalid YouTube URL or video ID" whatever
    the key, and so does the getReplies tool given that URL, no page token
    and a key; the trace is unchanged. *)
Theorem unresolvable_url_is_refused
    (key : option string) (network : trace -> request -> reply)
    (url : string) (t : trace) :
  getVideoId url = None ->
  getVideoInfo_tool key network url t
  = (Ok (ErrorText "Invalid YouTube URL or video ID"), t)
  /\ (forall limit sort,
         given key = true -> given (Some url) = true ->
         getReplies_tool key network (Some url) limit sort None t
         = (Ok (ErrorText "Invalid YouTube URL or video ID"), t)).
Proof.
  intros Hid. split.
  - unfold getVideoInfo_tool.
    now rewrite handler_render, (getVideoInfoData_invalid key network url t Hid).
  - intros limit sort Hkey Hurl.
    rewrite (getReplies_tool_url key network url limit sort None t Hurl).
    rewrite handler_render.
    now rewrite (getCommentsData_invalid key network
                   (mkCommentsParams url (Some limit) (Some sort) None) t
                   Hkey eq_refl Hid).
Qed.

Lemma unresolvable_url_is_refused_witness :
  run (getVideoInfo_tool None network_down "https://example.com/watch")
  = (Ok (ErrorText "Invalid YouTube URL or video ID"), [])
  /\ run (getReplies_tool (Some "key") network_down
            (Some "https://example.com/watch") 100 time None)
     = (Ok (ErrorText "Invalid YouTube URL or video ID"), []).
Proof.
  destruct (unresolvable_url_is_refused None network_down
              "https://example.com/watch" [] eq_refl) as [H1 _].
  destruct (unresolvable_url_is_refused (Some "key") network_down
              "https://example.com/watch" [] eq_refl) as [_ H2].
  split; [exact H1|]. apply H2; reflexivity.
Defined.

Section MoreOperations.

Variable key : option string.
Variable network : trace -> request -> reply.

Lemma getCommentsData_first (p : CommentsParams) (t : trace) :
  given key = true -> given (cp_pageToken p) = false ->
  getCommentsData key network p t
  = (chosen <- first_page_params key network (cp_url p)
                 match cp_sort p with Some o => o | None => relevance end ;;
     response <- fetch network (Get SERPAPI_BASE_URL (fst chosen)) ;;
     data <- read_json response ;;
     lift (commentsPageMapping data (snd chosen)
             match cp_limit p with Some l => l | None => 100%Z end)) t.
Proof.
  intros Hkey Hp. unfold getCommentsData. rewrite logged_eq, Hkey, Hp.
  reflexivity.
Qed.

Lemma getReplies_tool_page (url : option string) (limit : Z) (sort : sort_order)
    (tok : string) (t : trace) :
  given (Some tok) = true ->
  getReplies_tool key network url limit sort (Some tok) t
  = handler
      (getCommentsData key network
         (mkCommentsParams
            (if given url then match url with Some u => u | None => "" end else "")
            (Some limit) (Some sort) (Some tok))) t.
Proof.
  intros Htok. unfold getReplies_tool. rewrite Htok.
  now rewrite andb_false_r.
Qed.

Lemma upstream_request_info (id : string) :
  upstream_request key (info_request key id).
Proof. repeat split. Qed.

Lemma upstream_request_page (token : value) :
  upstream_request key (page_request key token).
Proof. repeat split. Qed.

(** The requests the first-page branch issues before the page request. *)
Lemma first_page_params_added (url : string) (sort : sort_order) (t : trace) :
  exists added,
    snd (first_page_params key network url sort t) = t ++ added /\
    List.length added <= 1 /\
    Forall (upstream_request key) added /\
    (forall params ext,
        fst (first_page_params key network url sort t) = Ok (params, ext) ->
        exists token, params = req_query (page_request key token)).
Proof.
  unfold first_page_params.
  destruct (getVideoId url) as [id|] eqn:Hid.
  2:{ exists []. rewrite app_nil_r. simpl. repeat split; auto; discriminate. }
  rewrite (getVideoId_given url id Hid). change (negb true) with false. cbv iota.
  unfold bind. destruct (given key) eqn:Hkey.
  - rewrite (getVideoInfoData_eq key network url id t Hkey Hid).
    exists [info_request key id].
    assert (HF : Forall (upstream_request key) [info_request key id])
      by (constructor; [apply upstream_request_info|constructor]).
    destruct (upstream_outcome _ _) as [videoInfo|e];
      [|simpl; repeat split; auto; discriminate].
    unfold lift. destruct (tokenToUse sort videoInfo) as [token|e];
      [|simpl; repeat split; auto; discriminate].
    destruct (truthy token); simpl; repeat split; auto; try discriminate.
    intros params ext [= <- _]. now exists token.
  - rewrite (getVideoInfoData_no_key key network url id t Hkey Hid).
    exists []. rewrite app_nil_r. simpl. repeat split; auto; discriminate.
Qed.

Lemma getCommentsData_added (p : CommentsParams) (t : trace) :
  exists added,
    snd (getCommentsData key network p t) = t ++ added /\
    List.length added <= 2 /\
    Forall (upstream_request key) added.
Proof.
  destruct (given key) eqn:Hkey.
  2:{ rewrite (getCommentsData_no_key key network p t Hkey).
      exists []. rewrite app_nil_r. simpl. auto. }
  destruct (given (cp_pageToken p)) eqn:Hp.
  - destruct (cp_pageToken p) as [tok|] eqn:Htok; [|discriminate Hp].
    rewrite (getCommentsData_page key network p tok t Hkey Htok Hp).
    exists [page_request key (VStr tok)]. simpl. repeat split; auto.
    constructor; [apply upstream_request_page|constructor].
  - rewrite (getCommentsData_first p t Hkey Hp). unfold bind at 1.
    destruct (first_page_params_added (cp_url p)
                match cp_sort p with Some o => o | None => relevance end t)
      as (added & Htr & Hlen & Hall & Hparams).
    destruct (first_page_params key network (cp_url p) _ t) as [[chosen|e] t1].
    + simpl in Htr. subst t1. destruct chosen as [params ext].
      destruct (Hparams params ext eq_refl) as [token ->].
      rewrite upstream_call. simpl snd.
      exists (added ++ [page_request key token]).
      rewrite app_assoc, length_app. simpl. repeat split; auto; [lia|].
      apply Forall_app. split; [exact Hall|].
      constructor; [apply upstream_request_page|constructor].
    + simpl in Htr. subst t1. exists added. simpl. repeat split; auto.
Qed.

Lemma getVideoInfoData_added (url : string) (t : trace) :
  exists added,
    snd (getVideoInfoData key network url t) = t ++ added /\
    List.length added <= 1 /\
    Forall (upstream_request key) added.
Proof.
  destruct (getVideoId url) as [id|] eqn:Hid.
  - destruct (given key) eqn:Hkey.
    + rewrite (getVideoInfoData_eq key network url id t Hkey Hid).
      exists [info_request key id]. simpl. repeat split; auto.
      constructor; [apply upstream_request_info|constructor].
    + rewrite (getVideoInfoData_no_key key network url id t Hkey Hid).
      exists []. rewrite app_nil_r. simpl. auto.
  - rewrite (getVideoInfoData_invalid key network url t Hid).
    exists []. rewrite app_nil_r. simpl. auto.
Qed.

Lemma getRepliesData_added (pageToken : string) (t : trace) :
  exists added,
    snd (getRepliesData key network pageToken t) = t ++ added /\
    List.length added <= 1 /\
    Forall (upstream_request key) added.
Proof.
  destruct (given key) eqn:Hkey.
  - rewrite (getRepliesData_eq key network pageToken t Hkey).
    exists [page_request key (VStr pageToken)]. simpl. repeat split; auto.
    constructor; [apply upstream_request_page|constructor].
  - rewrite (getRepliesData_no_key key network pageToken t Hkey).
    exists []. rewrite app_nil_r. simpl. auto.
Qed.

End MoreOperations.

(** X7.  The three upstream tools never contact anything but the upstream
    API, and always with the configured key and the engine selector: what
    a call adds to the trace is at most one such request (getVideoInfo,
    getCommentReplies) or at most two (getReplies), and nothing else. *)
Theorem tools_only_call_upstream
    (key : option string) (network : trace -> request -> reply) :
  (forall url t,
      exists added,
        snd (getVideoInfo_tool key network url t) = t ++ added /\
        List.length added <= 1 /\ Forall (upstream_request key) added)
  /\ (forall url limit sort pageToken t,
         exists added,
           snd (getReplies_tool key network url limit sort pageToken t)
           = t ++ added /\
           List.length added <= 2 /\ Forall (upstream_request key) added)
  /\ (forall pageToken t,
         exists added,
           snd (getCommentReplies_tool key network pageToken t) = t ++ added /\
           List.length added <= 1 /\ Forall (upstream_request key) added).
Proof.
  split; [|split].
  - intros url t. unfold getVideoInfo_tool. rewrite handler_render. simpl snd.
    apply getVideoInfoData_added.
  - intros url limit sort pageToken t. unfold getReplies_tool.
    rewrite handler_render. simpl snd.
    destruct (negb (given url) && negb (given pageToken)).
    + exists []. rewrite app_nil_r. simpl. auto.
    + apply getCommentsData_added.
  - intros pageToken t. unfold getCommentReplies_tool.
    rewrite handler_render. simpl snd. apply getRepliesData_added.
Qed.

Section Failures.

Variable key : option string.
Variable network : trace -> request -> reply.

Lemma upstream_outcome_not_ok {A : Type} (r : response) (g : value -> outcome A) :
  ok r = false ->
  render (upstream_outcome (Answered r) g)
  = ErrorText ("SerpAPI error: " ++ string_of_Z (status r) ++ " - " ++ body_text r).
Proof. intros H. unfold upstream_outcome. rewrite H. reflexivity. Qed.

(** A failed video-info fetch ends the first-page branch of
    [getCommentsData]. *)
Lemma getCommentsData_info_failed (p : CommentsParams) (id : string)
    (e : exn) (t : trace) :
  given key = true -> given (cp_pageToken p) = false ->
  getVideoId (cp_url p) = Some id ->
  upstream_outcome (network t (info_request key id)) (videoInfoMapping id)
  = Throw e ->
  getCommentsData key network p t = (Throw e, t ++ [info_request key id]).
Proof.
  intros Hkey Hp Hid He. rewrite (getCommentsData_first key network p t Hkey Hp).
  unfold bind at 1. unfold first_page_params. rewrite Hid.
  rewrite (getVideoId_given _ id Hid). change (negb true) with false. cbv iota.
  unfold bind at 1.
  rewrite (getVideoInfoData_eq key network _ id t Hkey Hid), He. reflexivity.
Qed.

(** A fetched video info and a truthy token: the first-page branch is the
    page call. *)
Lemma getCommentsData_first_page_call (p : CommentsParams)
    (videoInfo : VideoInfoResponse) (token : value) (t t1 : trace) :
  given key = true -> given (cp_pageToken p) = false ->
  getVideoInfoData key network (cp_url p) t = (Ok videoInfo, t1) ->
  tokenToUse match cp_sort p with Some o => o | None => relevance end videoInfo
  = Ok token ->
  truthy token = true ->
  getCommentsData key network p t
  = (upstream_outcome (network t1 (page_request key token))
       (fun data => commentsPageMapping data (videoId videoInfo)
                      match cp_limit p with Some l => l | None => 100%Z end),
     t1 ++ [page_request key token]).
Proof.
  intros Hkey Hp Hinfo Htok Htruthy.
  rewrite (getCommentsData_first key network p t Hkey Hp). unfold bind at 1.
  rewrite (first_page_params_eq key network _ _ videoInfo token t t1 Hinfo Htok).
  rewrite Htruthy. simpl fst. simpl snd.
  exact (upstream_call network (page_request key token) _ t1).
Qed.

Lemma getReplies_tool_page_eq (url : option string) (limit : Z)
    (sort : sort_order) (tok : string) (t : trace) :
  given key = true -> given (Some tok) = true ->
  getReplies_tool key network url limit sort (Some tok) t
  = (Ok (render (upstream_outcome (network t (page_request key (VStr tok)))
                   (fun data => commentsPageMapping data "" limit))),
     t ++ [page_request key (VStr tok)]).
Proof.
  intros Hkey Htok.
  rewrite (getReplies_tool_page key network url limit sort tok t Htok).
  rewrite handler_render.
  now rewrite (getCommentsData_page key network
                 (mkCommentsParams
                    (if given url then match url with Some u => u | None => "" end
                     else "")
                    (Some limit) (Some sort) (Some tok)) tok t Hkey eq_refl Htok).
Qed.

End Failures.

(** X8.  A response with a non-success status is reported by every
    upstream tool as the text "SerpAPI error: <status> - <body>", with the
    status and the whole body of the response; nothing further is
    requested.  For the getReplies tool this covers each of its requests:
    when its video-info request fails, the page request is never issued;
    when the video info is fetched, a truthy token is selected and the
    page request that carries it fails, that failure is reported and the
    page request is the last one issued; likewise for the page request
    made from a page token. *)
Theorem upstream_error_is_reported
    (key : option string) (network : trace -> request -> reply) (r : response) :
  given key = true -> ok r = false ->
  (forall url id t,
      getVideoId url = Some id ->
      network t (info_request key id) = Answered r ->
      getVideoInfo_tool key network url t
      = (Ok (ErrorText ("SerpAPI error: " ++ string_of_Z (status r) ++ " - "
                        ++ body_text r)),
         t ++ [info_request key id]))
  /\ (forall url id limit sort t,
         getVideoId url = Some id ->
         network t (info_request key id) = Answered r ->
         getReplies_tool key network (Some url) limit sort None t
         = (Ok (ErrorText ("SerpAPI error: " ++ string_of_Z (status r) ++ " - "
                           ++ body_text r)),
            t ++ [info_request key id]))
  /\ (forall url limit sort tok t,
         given (Some tok) = true ->
         network t (page_request key (VStr tok)) = Answered r ->
         getReplies_tool key network url limit sort (Some tok) t
         = (Ok (ErrorText ("SerpAPI error: " ++ string_of_Z (status r) ++ " - "
                           ++ body_text r)),
            t ++ [page_request key (VStr tok)]))
  /\ (forall tok t,
         network t (page_request key (VStr tok)) = Answered r ->
         getCommentReplies_tool key network tok t
         = (Ok (ErrorText ("SerpAPI error: " ++ string_of_Z (status r) ++ " - "
                           ++ body_text r)),
            t ++ [page_request key (VStr tok)]))
  /\ (forall url limit sort videoInfo token t t1,
         getVideoInfoData key network url t = (Ok videoInfo, t1) ->
         tokenToUse sort videoInfo = Ok token ->
         truthy token = true ->
         network t1 (page_request key token) = Answered r ->
         getReplies_tool key network (Some url) limit sort None t
         = (Ok (ErrorText ("SerpAPI error: " ++ string_of_Z (status r) ++ " - "
                           ++ body_text r)),
            t1 ++ [page_request key token])).
Proof.
  intros Hkey Hok. split; [|split; [|split; [|split]]].
  - intros url id t Hid Hnet. unfold getVideoInfo_tool.
    rewrite handler_render, (getVideoInfoData_eq key network url id t Hkey Hid).
    simpl fst. simpl snd. rewrite Hnet.
    now rewrite (upstream_outcome_not_ok r _ Hok).
  - intros url id limit sort t Hid Hnet.
    assert (Hurl : given (Some url) = true).
    { destruct url; [rewrite getVideoId_empty in Hid; discriminate Hid|reflexivity]. }
    rewrite (getReplies_tool_url key network url limit sort None t Hurl).
    rewrite handler_render.
    rewrite (getCommentsData_info_failed key network
               (mkCommentsParams url (Some limit) (Some sort) None) id
               (Error ("SerpAPI error: " ++ string_of_Z (status r) ++ " - "
                       ++ body_text r)) t Hkey eq_refl Hid).
    + reflexivity.
    + rewrite Hnet. unfold upstream_outcome. now rewrite Hok.
  - intros url limit sort tok t Htok Hnet.
    rewrite (getReplies_tool_page_eq key network url limit sort tok t Hkey Htok).
    rewrite Hnet. now rewrite (upstream_outcome_not_ok r _ Hok).
  - intros tok t Hnet. unfold getCommentReplies_tool.
    rewrite handler_render, (getRepliesData_eq key network tok t Hkey).
    simpl fst. simpl snd. rewrite Hnet.
    now rewrite (upstream_outcome_not_ok r _ Hok).
  - intros url limit sort videoInfo token t t1 Hinfo Htok Htruthy Hnet.
    destruct (getVideoInfoData_Ok key network url videoInfo t t1 Hinfo)
      as (Hid & _ & _ & _).
    assert (Hurl : given (Some url) = true).
    { destruct url; [rewrite getVideoId_empty in Hid; discriminate Hid|reflexivity]. }
    rewrite (getReplies_tool_url key network url limit sort None t Hurl).
    rewrite handler_render.
    rewrite (getCommentsData_first_page_call key network
               (mkCommentsParams url (Some limit) (Some sort) None)
               videoInfo token t t1 Hkey eq_refl Hinfo Htok Htruthy).
    simpl fst. simpl snd. rewrite Hnet.
    now rewrite (upstream_outcome_not_ok r _ Hok).
Qed.

Lemma upstream_error_is_reported_witness :
  run (getVideoInfo_tool (Some "key") network_404 example_url)
  = (Ok (ErrorText "SerpAPI error: 404 - Not Found"),
     [info_request (Some "key") "dQw4w9WgXcQ"])
  /\ run (getReplies_tool (Some "key") network_404 (Some example_url) 100 time None)
     = (Ok (ErrorText "SerpAPI error: 404 - Not Found"),
        [info_request (Some "key") "dQw4w9WgXcQ"])
  /\ run (getReplies_tool (Some "key") network_404 None 100 time (Some "tok"))
     = (Ok (ErrorText "SerpAPI error: 404 - Not Found"),
        [page_request (Some "key") (VStr "tok")])
  /\ run (getCommentReplies_tool (Some "key") network_404 "tok")
     = (Ok (ErrorText "SerpAPI error: 404 - Not Found"),
        [page_request (Some "key") (VStr "tok")])
  /\ run (getReplies_tool (Some "key")
            (raw_network (Some (VStr "D")) None
               (Answered (Response 500 "quota exceeded" None)))
            (Some example_url) 100 relevance None)
     = (Ok (ErrorText "SerpAPI error: 500 - quota exceeded"),
        [info_request (Some "key") "dQw4w9WgXcQ";
         page_request (Some "key") (VStr "D")]).
Proof.
  destruct (upstream_error_is_reported (Some "key") network_404
              (Response 404 "Not Found" None) eq_refl eq_refl)
    as (H1 & H2 & H3 & H4 & _).
  destruct (upstream_error_is_reported (Some "key")
              (raw_network (Some (VStr "D")) None
                 (Answered (Response 500 "quota exceeded" None)))
              (Response 500 "quota exceeded" None) eq_refl eq_refl)
    as (_ & _ & _ & _ & H5).
  split; [|split; [|split; [|split]]].
  - apply (H1 example_url "dQw4w9WgXcQ" []); reflexivity.
  - apply (H2 example_url "dQw4w9WgXcQ" 100%Z time []); reflexivity.
  - apply (H3 None 100%Z time "tok" []); reflexivity.
  - apply (H4 "tok" []); reflexivity.
  - apply (H5 example_url 100%Z relevance
             (raw_videoInfo (Some (VStr "D")) None) (VStr "D") []
             [info_request (Some "key") "dQw4w9WgXcQ"]);
      reflexivity.
Defined.

(** X9.  With a page token the getReplies tool ignores the URL and the
    sort order: the answer is the same for any two of each, and with a key
    the one request issued carries the page token as it was given. *)
Theorem pagination_ignores_url_and_sort
    (key : option string) (network : trace -> request -> reply)
    (tok : string) (limit : Z) (t : trace) :
  given (Some tok) = true ->
  (forall url url' sort sort',
      getReplies_tool key network url limit sort (Some tok) t
      = getReplies_tool key network url' limit sort' (Some tok) t)
  /\ (given key = true ->
      forall url sort,
        snd (getReplies_tool key network url limit sort (Some tok) t)
        = t ++ [page_request key (VStr tok)]).
Proof.
  intros Htok. split.
  - intros url url' sort sort'.
    destruct (given key) eqn:Hkey.
    + now rewrite !(getReplies_tool_page_eq key network _ limit _ tok t Hkey Htok).
    + rewrite !(getReplies_tool_page key network _ limit _ tok t Htok).
      rewrite !handler_render.
      now rewrite !(getCommentsData_no_key key network _ t Hkey).
  - intros Hkey url sort.
    now rewrite (getReplies_tool_page_eq key network url limit sort tok t Hkey Htok).
Qed.

Lemma pagination_ignores_url_and_sort_witness :
  run (getReplies_tool (Some "key") replies_network
         (Some "not a url") 100 time (Some "tok"))
  = run (getReplies_tool (Some "key") replies_network None 100 relevance (Some "tok"))
  /\ snd (run (getReplies_tool (Some "key") replies_network
                 (Some "not a url") 100 time (Some "tok")))
     = [page_request (Some "key") (VStr "tok")].
Proof.
  destruct (pagination_ignores_url_and_sort (Some "key") replies_network
              "tok" 100 [] eq_refl) as [H1 H2].
  split.
  - apply (H1 (Some "not a url") None time relevance).
  - apply (H2 eq_refl (Some "not a url") time).
Defined.

Lemma Object_keys_total (data : value) :
  nullish data = false -> exists ks, Object_keys data = Ok ks.
Proof. destruct data; simpl; intros H; try discriminate H; eauto. Qed.

Lemma upstream_outcome_data {A : Type} (r : response) (data : value)
    (g : value -> outcome A) :
  ok r = true -> body_json r = Some data -> nullish data = false ->
  upstream_outcome (Answered r) g = g data.
Proof.
  intros Hok Hjson Hdata. unfold upstream_outcome. rewrite Hok, Hjson.
  destruct (Object_keys_total data Hdata) as [ks ->]. reflexivity.
Qed.

(** X10.  What the comment tools answer is what the mappings make of the
    parsed page: after a success response whose JSON body is not [null],
    the getReplies tool renders the comments-page mapping of that body,
    with the empty string as fallback video identifier when paginating
    and the resolved identifier on a first page, and the getCommentReplies
    tool renders the replies-page mapping. *)
Theorem tools_render_the_mappings
    (key : option string) (network : trace -> request -> reply)
    (r : response) (data : value) :
  given key = true ->
  ok r = true -> body_json r = Some data -> nullish data = false ->
  (forall url limit sort tok t,
      given (Some tok) = true ->
      network t (page_request key (VStr tok)) = Answered r ->
      getReplies_tool key network url limit sort (Some tok) t
      = (Ok (render (commentsPageMapping data "" limit)),
         t ++ [page_request key (VStr tok)]))
  /\ (forall url limit sort videoInfo token t t1,
         getVideoInfoData key network url t = (Ok videoInfo, t1) ->
         tokenToUse sort videoInfo = Ok token ->
         truthy token = true ->
         network t1 (page_request key token) = Answered r ->
         getReplies_tool key network (Some url) limit sort None t
         = (Ok (render (commentsPageMapping data (videoId videoInfo) limit)),
            t1 ++ [page_request key token]))
  /\ (forall tok t,
         network t (page_request key (VStr tok)) = Answered r ->
         getCommentReplies_tool key network tok t
         = (Ok (render (repliesPageMapping data)),
            t ++ [page_request key (VStr tok)])).
Proof.
  intros Hkey Hok Hjson Hdata. split; [|split].
  - intros url limit sort tok t Htok Hnet.
    rewrite (getReplies_tool_page_eq key network url limit sort tok t Hkey Htok).
    rewrite Hnet. now rewrite (upstream_outcome_data r data _ Hok Hjson Hdata).
  - intros url limit sort videoInfo token t t1 Hinfo Htok Htruthy Hnet.
    destruct (getVideoInfoData_Ok key network url videoInfo t t1 Hinfo)
      as (Hid & _ & _ & _).
    assert (Hurl : given (Some url) = true).
    { destruct url; [rewrite getVideoId_empty in Hid; discriminate Hid|reflexivity]. }
    rewrite (getReplies_tool_url key network url limit sort None t Hurl).
    rewrite handler_render.
    rewrite (getCommentsData_first_page_call key network
               (mkCommentsParams url (Some limit) (Some sort) None)
               videoInfo token t t1 Hkey eq_refl Hinfo Htok Htruthy).
    simpl fst. simpl snd. rewrite Hnet.
    now rewrite (upstream_outcome_data r data _ Hok Hjson Hdata).
  - intros tok t Hnet. unfold getCommentReplies_tool.
    rewrite handler_render, (getRepliesData_eq key network tok t Hkey).
    simpl fst. simpl snd. rewrite Hnet.
    now rewrite (upstream_outcome_data r data _ Hok Hjson Hdata).
Qed.

(** ** What every returned page satisfies *)

Lemma truthy_not_nullish (v : value) : truthy v = true -> nullish v = false.
Proof. destruct v; simpl; intros H; try discriminate H; reflexivity. Qed.

Lemma or_not_nullish (x d : value) :
  nullish d = false -> nullish (x ||| d) = false.
Proof.
  intros Hd. unfold or_. destruct (truthy x) eqn:Hx; [|exact Hd].
  now apply truthy_not_nullish.
Qed.

Lemma or_truthy (x d : value) : truthy d = true -> truthy (x ||| d) = true.
Proof. intros Hd. unfold or_. now destruct (truthy x) eqn:Hx. Qed.

Lemma or_undefined (x : value) : absent_or_truthy (x ||| VUndefined).
Proof. unfold absent_or_truthy, or_. destruct (truthy x) eqn:Hx; auto. Qed.

Lemma or_null (x : value) : (x ||| VNull) = VNull \/ truthy (x ||| VNull) = true.
Proof. unfold or_. destruct (truthy x) eqn:Hx; auto. Qed.

Lemma mapComment_filled (e : value) (c : Comment) :
  mapComment e = Ok c -> comment_filled c.
Proof.
  unfold mapComment. intros H.
  repeat (apply obind_Ok in H; destruct H as (? & _ & H)).
  injection H as <-. unfold comment_filled. simpl.
  repeat split; try (apply or_not_nullish; reflexivity).
  - apply or_truthy. reflexivity.
  - apply or_null.
Qed.

Lemma mapReply_filled (e : value) (r : Reply) :
  mapReply e = Ok r -> reply_filled r.
Proof.
  unfold mapReply. intros H.
  repeat (apply obind_Ok in H; destruct H as (? & _ & H)).
  injection H as <-. unfold reply_filled. simpl.
  repeat split; try (apply or_not_nullish; reflexivity).
  apply or_truthy. reflexivity.
Qed.

Lemma mapM_Forall {A B : Type} (f : A -> outcome B) (P : B -> Prop)
    (l : list A) (bs : list B) :
  (forall a b, f a = Ok b -> P b) -> mapM f l = Ok bs -> Forall P bs.
Proof.
  intros HP H. apply mapM_Forall2 in H.
  induction H; constructor; eauto.
Qed.

Lemma commentsPageMapping_page (data : value) (ext : string) (limit : Z)
    (page : CommentsPage) :
  commentsPageMapping data ext limit = Ok page ->
  absent_or_truthy (page_nextPageToken page) /\
  Forall comment_filled (comments page).
Proof.
  unfold commentsPageMapping. intros H.
  repeat (apply obind_Ok in H; destruct H as (? & _ & H)).
  match type of H with
  | (if ?b then _ else _) = _ => destruct b
  end.
  - injection H as <-. simpl. split; [apply or_undefined|constructor].
  - apply obind_Ok in H. destruct H as (cs & Hcs & H).
    injection H as <-. simpl. split; [apply or_undefined|].
    eapply mapM_Forall; [|exact Hcs]. exact mapComment_filled.
Qed.

Lemma repliesPageMapping_page (data : value) (page : RepliesPage) :
  repliesPageMapping data = Ok page ->
  absent_or_truthy (replies_nextPageToken page) /\
  nullish (parentCommentId page) = false /\
  Forall reply_filled (page_replies page).
Proof.
  unfold repliesPageMapping. intros H.
  repeat (apply obind_Ok in H; destruct H as (? & _ & H)).
  match type of H with
  | (if ?b then _ else _) = _ => destruct b
  end.
  - injection H as <-. simpl.
    split; [apply or_undefined|]. split; [now apply or_not_nullish|constructor].
  - apply obind_Ok in H. destruct H as (cs & Hcs & H).
    injection H as <-. simpl.
    split; [apply or_undefined|]. split; [now apply or_not_nullish|].
    eapply mapM_Forall; [|exact Hcs]. exact mapReply_filled.
Qed.

(** X11.  In every page object that [getCommentsData] and
    [getRepliesData] return (the object a tool handler then hands to
    [JSON.stringify]), the property [nextPageToken] is either [undefined]
    or truthy: an empty, [null] or otherwise falsy token of the upstream
    response is turned into [undefined]. *)
Theorem nextPageToken_absent_or_truthy
    (key : option string) (network : trace -> request -> reply) :
  (forall p t t' page,
      getCommentsData key network p t = (Ok page, t') ->
      absent_or_truthy (page_nextPageToken page))
  /\ (forall pageToken t t' page,
         getRepliesData key network pageToken t = (Ok page, t') ->
         absent_or_truthy (replies_nextPageToken page)).
Proof.
  split.
  - intros p t t' page H.
    apply getCommentsData_Ok in H. destruct H as (data & ext & l & H).
    now apply commentsPageMapping_page in H.
  - intros pageToken t t' page H. apply getRepliesData_Ok in H.
    destruct H as (data & H). now apply repliesPageMapping_page in H.
Qed.

(** X12.  In every page object that [getCommentsData] and
    [getRepliesData] return (the object a tool handler then hands to
    [JSON.stringify]), every comment and every reply is filled: no
    identifier, author, text, time or count is [undefined] or [null], the
    author is truthy, so never empty, and the replies token of a comment
    is [null] or truthy; the parent comment identifier of a replies page
    is never [undefined] or [null]. *)
Theorem returned_entries_are_filled
    (key : option string) (network : trace -> request -> reply) :
  (forall p t t' page,
      getCommentsData key network p t = (Ok page, t') ->
      Forall comment_filled (comments page))
  /\ (forall pageToken t t' page,
         getRepliesData key network pageToken t = (Ok page, t') ->
         nullish (parentCommentId page) = false /\
         Forall reply_filled (page_replies page)).
Proof.
  split.
  - intros p t t' page H.
    apply getCommentsData_Ok in H. destruct H as (data & ext & l & H).
    now apply commentsPageMapping_page in H.
  - intros pageToken t t' page H. apply getRepliesData_Ok in H.
    destruct H as (data & H). now apply repliesPageMapping_page in H.
Qed.

(** ** The replies-page mapping and the limit *)

Lemma mapReply_total (reply : value) :
  nullish reply = false -> exists r, mapReply reply = Ok r.
Proof.
  intros H. unfold mapReply.
  destruct (get_total reply "comment_id" H) as [x1 ->].
  destruct (get_total reply "channel" H) as [x2 ->].
  simpl obind.
  destruct (opt_get_total x2 "name") as [x3 ->].
  destruct (get_total reply "content" H) as [x4 ->].
  destruct (get_total reply "published_date" H) as [x5 ->].
  destruct (get_total reply "extracted_vote_count" H) as [x6 ->].
  simpl. eauto.
Qed.

(** X13.  The replies-page mapping does not truncate: for a response
    whose [replies] is an array without [null] entries it returns the
    images of all of them, in order, and counts them; for a response whose
    [replies] is absent or no array it returns the empty page. *)
Theorem repliesPageMapping_keeps_all (data : value) :
  (forall entries,
      get data "replies" = Ok (VArr entries) ->
      Forall (fun e => nullish e = false) entries ->
      exists page,
        repliesPageMapping data = Ok page /\
        Forall2 (fun e r => mapReply e = Ok r) entries (page_replies page) /\
        replyCount page = Z.of_nat (List.length entries))
  /\ (forall v,
         get data "replies" = Ok v -> isArray v = false ->
         exists page,
           repliesPageMapping data = Ok page /\
           page_replies page = [] /\ replyCount page = 0%Z).
Proof.
  split.
  - intros entries Hr Hall. pose proof (get_Ok_nullish _ _ _ Hr) as Hdata.
    unfold repliesPageMapping.
    destruct (get_total data "comment_parent_id" Hdata) as [x1 ->].
    destruct (get_total data "replies_next_page_token" Hdata) as [x2 ->].
    rewrite Hr. simpl obind. simpl items.
    destruct (mapM_total mapReply entries) as [rs Hrs].
    { eapply Forall_impl; [|exact Hall]. intros e He. now apply mapReply_total. }
    rewrite Hrs. simpl. eexists. split; [reflexivity|]. simpl.
    split; [now apply mapM_Forall2|].
    f_equal. now apply mapM_length in Hrs.
  - intros v Hr Harr. pose proof (get_Ok_nullish _ _ _ Hr) as Hdata.
    unfold repliesPageMapping.
    destruct (get_total data "comment_parent_id" Hdata) as [x1 ->].
    destruct (get_total data "replies_next_page_token" Hdata) as [x2 ->].
    rewrite Hr. simpl obind. rewrite Harr, orb_true_r.
    eexists. split; [reflexivity|]. split; reflexivity.
Qed.

Lemma repliesPageMapping_keeps_all_witness :
  (exists page,
      repliesPageMapping example_replies = Ok page /\
      Forall2 (fun e r => mapReply e = Ok r)
        [VObj [("comment_id", VStr "c1"); ("content", VStr "hi")]]
        (page_replies page) /\
      replyCount page = 1%Z)
  /\ (exists page,
         repliesPageMapping (VObj []) = Ok page /\
         page_replies page = [] /\ replyCount page = 0%Z).
Proof.
  split.
  - apply (proj1 (repliesPageMapping_keeps_all example_replies)
             [VObj [("comment_id", VStr "c1"); ("content", VStr "hi")]]).
    + reflexivity.
    + repeat constructor.
  - apply (proj2 (repliesPageMapping_keeps_all (VObj [])) VUndefined);
      reflexivity.
Defined.

Lemma Forall_firstn_keep {A : Type} (P : A -> Prop) (l : list A) (n : nat) :
  Forall P l -> Forall P (firstn n l).
Proof.
  intros H. revert n. induction H as [|a l Ha _ IH]; intros n.
  - rewrite firstn_nil. constructor.
  - destruct n; simpl; constructor; auto.
Qed.

(** X14.  A negative limit is not refused: [slice(0, limit)] then counts
    from the end, so that for an array of n entries without [null] the
    mapping returns the first n - |limit| of them (none when |limit| is n
    or more). *)
Theorem commentsPageMapping_negative_limit
    (data : value) (entries : list value) (ext : string) (limit : Z) :
  get data "comments" = Ok (VArr entries) ->
  (limit < 0)%Z ->
  Forall (fun e => nullish e = false) entries ->
  exists page,
    commentsPageMapping data ext limit = Ok page /\
    List.length (comments page) = List.length entries - Z.to_nat (- limit) /\
    Forall2 (fun e c => mapComment e = Ok c)
      (firstn (List.length entries - Z.to_nat (- limit)) entries)
      (comments page).
Proof.
  intros Hc Hl Hall.
  destruct (commentsPageMapping_array data entries ext limit Hc)
    as (page & Hpage & Himg & _).
  { rewrite slice0_negative by exact Hl. now apply Forall_firstn_keep. }
  exists page. rewrite slice0_negative in Himg by exact Hl.
  split; [exact Hpage|]. split; [|exact Himg].
  apply Forall2_length in Himg. rewrite <- Himg, length_firstn. lia.
Qed.

Lemma commentsPageMapping_negative_limit_witness :
  exists page,
    commentsPageMapping three_comments "" (-2) = Ok page /\
    List.length (comments page) = 1 /\
    Forall2 (fun e c => mapComment e = Ok c)
      [VObj [("comment_id", VStr "a")]] (comments page).
Proof.
  apply (commentsPageMapping_negative_limit three_comments
           [VObj [("comment_id", VStr "a")];
            VObj [("comment_id", VStr "b")];
            VObj [("comment_id", VStr "c")]] "" (-2)%Z).
  - reflexivity.
  - lia.
  - repeat constructor.
Defined.

(** ** The transcript operation *)

Section TranscriptProperties.

Variable network : trace -> request -> reply.
Variable Segment : Type.
Variable segment_text : Segment -> string.
Variable fetchTranscript : string -> string -> M (list Segment).

Lemma getTranscriptData_eq (url lang id : string) (t : trace) :
  getVideoId url = Some id ->
  getTranscriptData network Segment segment_text fetchTranscript url (Some lang) t
  = match fetchTranscript id lang (t ++ [watch_request id]) with
    | (Ok segments, t2) =>
        (Ok {| tr_videoInfo :=
                 let info := basic_info_of (network t (watch_request id)) in
                 {| tv_id := id;
                    tv_title := basic_title info;
                    tv_channelName := basic_channelName info;
                    tv_publishedAt := basic_publishedAt info;
                    tv_viewCount := basic_viewCount info |};
               tr_transcript := segments;
               tr_fullText := join " " (map segment_text segments);
               tr_language := lang |}, t2)
    | (Throw e, t2) => (Throw e, t2)
    end.
Proof.
  intros Hid. unfold getTranscriptData. rewrite logged_eq, Hid.
  rewrite (getVideoId_given url id Hid). change (negb true) with false. cbv iota.
  unfold bind at 1. rewrite fetchBasicVideoInfo_reply.
  unfold bind, ret.
  destruct (fetchTranscript id lang (t ++ [watch_request id])) as [[segs|e] t2];
    reflexivity.
Qed.

End TranscriptProperties.

(** X15.  The getTranscript tool on a resolvable URL whose transcript the
    provider supplies: the page of the video is requested first, then the
    provider is asked for the resolved identifier and the language; the
    answer holds the identifier, the segments as supplied, their texts
    joined by single spaces, and the language.  The page fields are what
    the page yields, and a page that fails (transport failure or a
    non-success status) costs only those fields, not the transcript. *)
Theorem getTranscript_assembles
    (network : trace -> request -> reply) (Segment : Type)
    (segment_text : Segment -> string)
    (fetchTranscript : string -> string -> M (list Segment))
    (url lang id : string) (segments : list Segment) (t t2 : trace) :
  getVideoId url = Some id ->
  fetchTranscript id lang (t ++ [watch_request id]) = (Ok segments, t2) ->
  getTranscript_tool network Segment segment_text fetchTranscript url lang t
  = (Ok (ResultText
           {| tr_videoInfo :=
                let info := basic_info_of (network t (watch_request id)) in
                {| tv_id := id;
                   tv_title := basic_title info;
                   tv_channelName := basic_channelName info;
                   tv_publishedAt := basic_publishedAt info;
                   tv_viewCount := basic_viewCount info |};
              tr_transcript := segments;
              tr_fullText := join " " (map segment_text segments);
              tr_language := lang |}), t2)
  /\ ((forall r, network t (watch_request id) = Answered r -> ok r = false) ->
      getTranscript_tool network Segment segment_text fetchTranscript url lang t
      = (Ok (ResultText
               {| tr_videoInfo := mkTranscriptVideoInfo id None None None None;
                  tr_transcript := segments;
                  tr_fullText := join " " (map segment_text segments);
                  tr_language := lang |}), t2)).
Proof.
  intros Hid Hfetch.
  assert (Heq : getTranscript_tool network Segment segment_text fetchTranscript
                  url lang t
                = (Ok (ResultText
                         {| tr_videoInfo :=
                              let info := basic_info_of (network t (watch_request id)) in
                              {| tv_id := id;
                                 tv_title := basic_title info;
                                 tv_channelName := basic_channelName info;
                                 tv_publishedAt := basic_publishedAt info;
                                 tv_viewCount := basic_viewCount info |};
                            tr_transcript := segments;
                            tr_fullText := join " " (map segment_text segments);
                            tr_language := lang |}), t2)).
  { unfold getTranscript_tool. rewrite handler_render.
    rewrite (getTranscriptData_eq network Segment segment_text fetchTranscript
               url lang id t Hid), Hfetch. reflexivity. }
  split; [exact Heq|].
  intros Hfail. rewrite Heq. unfold basic_info_of.
  destruct (network t (watch_request id)) as [reason|r]; [reflexivity|].
  now rewrite (Hfail r eq_refl).
Qed.

Lemma getTranscript_assembles_witness :
  run (getTranscript_tool example_page_network (string * Z) fst
         example_fetchTranscript example_url "en")
  = (Ok (ResultText
           {| tr_videoInfo :=
                mkTranscriptVideoInfo "dQw4w9WgXcQ" (Some "Hello") None None
                  (Some "1234");
              tr_transcript := example_segments;
              tr_fullText := "never gonna give you up";
              tr_language := "en" |}),
     [watch_request "dQw4w9WgXcQ"])
  /\ run (getTranscript_tool network_404 (string * Z) fst
            example_fetchTranscript example_url "en")
     = (Ok (ResultText
              {| tr_videoInfo :=
                   mkTranscriptVideoInfo "dQw4w9WgXcQ" None None None None;
                 tr_transcript := example_segments;
                 tr_fullText := "never gonna give you up";
                 tr_language := "en" |}),
        [watch_request "dQw4w9WgXcQ"]).
Proof.
  split.
  - apply (proj1 (getTranscript_assembles example_page_network (string * Z) fst
                    example_fetchTranscript example_url "en" "dQw4w9WgXcQ"
                    example_segments [] [watch_request "dQw4w9WgXcQ"]
                    eq_refl eq_refl)).
  - apply (proj2 (getTranscript_assembles network_404 (string * Z) fst
                    example_fetchTranscript example_url "en" "dQw4w9WgXcQ"
                    example_segments [] [watch_request "dQw4w9WgXcQ"]
                    eq_refl eq_refl)).
    intros r [= <-]. reflexivity.
Defined.

(** X16.  The failures of the getTranscript tool.  An input that does not
    resolve is refused before anything is requested.  When the provider
    throws, its message is the answer (or "Unknown error" when it has
    none), and the language defaults to en when [getTranscriptData] is
    called without one. *)
Theorem getTranscript_failures
    (network : trace -> request -> reply) (Segment : Type)
    (segment_text : Segment -> string)
    (fetchTranscript : string -> string -> M (list Segment))
    (url lang : string) (t : trace) :
  (getVideoId url = None ->
   getTranscript_tool network Segment segment_text fetchTranscript url lang t
   = (Ok (ErrorText "Invalid YouTube URL or video ID"), t))
  /\ (forall id e t2,
         getVideoId url = Some id ->
         fetchTranscript id lang (t ++ [watch_request id]) = (Throw e, t2) ->
         getTranscript_tool network Segment segment_text fetchTranscript url lang t
         = (Ok (ErrorText (if String.eqb (message e) "" then "Unknown error"
                           else message e)), t2))
  /\ getTranscriptData network Segment segment_text fetchTranscript url None
     = getTranscriptData network Segment segment_text fetchTranscript url
         (Some "en").
Proof.
  split; [|split].
  - intros Hid. unfold getTranscript_tool. rewrite handler_render.
    unfold getTranscriptData. now rewrite logged_eq, Hid.
  - intros id e t2 Hid Hfetch. unfold getTranscript_tool. rewrite handler_render.
    now rewrite (getTranscriptData_eq network Segment segment_text fetchTranscript
                   url lang id t Hid), Hfetch.
  - reflexivity.
Qed.

Lemma getTranscript_failures_witness :
  run (getTranscript_tool network_down (string * Z) fst example_fetchTranscript
         "https://example.com/watch" "en")
  = (Ok (ErrorText "Invalid YouTube URL or video ID"), [])
  /\ run (getTranscript_tool network_down (string * Z) fst failing_fetchTranscript
            example_url "ko")
     = (Ok (ErrorText "Transcript is disabled on this video"),
        [watch_request "dQw4w9WgXcQ"]).
Proof.
  split.
  - apply (proj1 (getTranscript_failures network_down (string * Z) fst
                    example_fetchTranscript "https://example.com/watch" "en" [])).
    reflexivity.
  - apply (proj1 (proj2 (getTranscript_failures network_down (string * Z) fst
                    failing_fetchTranscript example_url "ko" []))
             "dQw4w9WgXcQ" (Error "Transcript is disabled on this video")
             [watch_request "dQw4w9WgXcQ"]); reflexivity.
Defined.

(** ** The boundary *)

Lemma handler_never_throws {A : Type} (c : M A) (t : trace) :
  exists out, fst (handler c t) = Ok out /\
              forall msg, out = ErrorText msg -> msg <> "".
Proof.
  rewrite handler_render. simpl fst. eexists. split; [reflexivity|].
  intros msg. destruct (fst (c t)) as [a|e]; simpl; [discriminate|].
  intros [= <-]. destruct (String.eqb (message e) "") eqn:E; [discriminate|].
  intros Hm. rewrite Hm in E. discriminate E.
Qed.

(** No tool ever throws to its host: whatever the key, the network,
    the provider and the arguments, each of the four tool handlers
    returns a text, and an error text is never empty. *)
Theorem tools_never_throw
    (key : option string) (network : trace -> request -> reply) (t : trace) :
  (forall url,
      exists out, fst (getVideoInfo_tool key network url t) = Ok out /\
                  forall msg, out = ErrorText msg -> msg <> "")
  /\ (forall url limit sort pageToken,
         exists out,
           fst (getReplies_tool key network url limit sort pageToken t) = Ok out /\
           forall msg, out = ErrorText msg -> msg <> "")
  /\ (forall pageToken,
         exists out, fst (getCommentReplies_tool key network pageToken t) = Ok out /\
                     forall msg, out = ErrorText msg -> msg <> "")
  /\ (forall Segment segment_text fetchTranscript url lang,
         exists out,
           fst (getTranscript_tool network Segment segment_text fetchTranscript
                  url lang t) = Ok out /\
           forall msg, out = ErrorText msg -> msg <> "").
Proof.
  split; [|split; [|split]]; intros; apply handler_never_throws.
Qed.

(** ** Reading a tag back *)

Lemma plus_from_stops {R : Type} (p : ascii -> bool) (s : list ascii)
    (k : list ascii -> option R) :
  stops p s = true -> plus_from p s k = None.
Proof.
  destruct s as [|d s]; simpl; [reflexivity|].
  intros H. apply negb_true_iff in H. now rewrite H.
Qed.

Lemma plus_from_run {R : Type} (p : ascii -> bool) (run rest : list ascii)
    (k : list ascii -> option R) (x : R) :
  forallb p run = true -> run <> [] -> stops p rest = true ->
  k rest = Some x ->
  plus_from p (run ++ rest) k = Some x.
Proof.
  intros Hall Hne Hstop Hk. induction run as [|a run IH]; [congruence|].
  simpl in Hall. apply andb_true_iff in Hall. destruct Hall as [Ha Hall].
  simpl. rewrite Ha. destruct run as [|a' run].
  - simpl. now rewrite (plus_from_stops p rest k Hstop).
  - rewrite IH; [reflexivity|exact Hall|discriminate].
Qed.

Lemma m_plus_run {R : Type} (p : ascii -> bool) (run rest : list ascii)
    (b : bool) (cap : option (list ascii))
    (k : bool -> list ascii -> option (list ascii) -> option R) (x : R) :
  forallb p run = true -> run <> [] -> stops p rest = true ->
  k false rest cap = Some x ->
  m (Plus p) b (run ++ rest) cap k = Some x.
Proof. intros. simpl. now apply plus_from_run. Qed.

Lemma m_group_run {R : Type} (p : ascii -> bool) (run rest : list ascii)
    (b : bool) (cap : option (list ascii))
    (k : bool -> list ascii -> option (list ascii) -> option R) (x : R) :
  forallb p run = true -> run <> [] -> stops p rest = true ->
  k false rest (Some run) = Some x ->
  m (Grp (Plus p)) b (run ++ rest) cap k = Some x.
Proof.
  intros Hall Hne Hstop Hk. simpl. apply plus_from_run; auto.
  rewrite length_app, Nat.add_sub, firstn_app, Nat.sub_diag, firstn_all.
  simpl. now rewrite app_nil_r.
Qed.

Lemma eqb_ci_refl (c : ascii) : eqb_ci c c = true.
Proof. unfold eqb_ci. apply Ascii.eqb_refl. Qed.

Lemma m_lit_i_list (R : Type) (l s : list ascii) (b : bool)
    (cap : option (list ascii))
    (k : bool -> list ascii -> option (list ascii) -> option R) :
  m (lit_i_list l) b (l ++ s) cap k
  = k (match l with [] => b | _ :: _ => false end) s cap.
Proof.
  revert b. induction l as [|c l IH]; intros b; simpl; [reflexivity|].
  rewrite eqb_ci_refl, IH. destruct l; reflexivity.
Qed.

(** Every start in a prefix on whose characters the pattern fails at once
    is passed over. *)
Lemma search_skip (r : regex) (pre s : list ascii) :
  (forall d, In d pre ->
             forall b s', m r b (d :: s') None (fun _ _ c => Some c) = None) ->
  forall b, exists b', search r b (pre ++ s) = search r b' s.
Proof.
  induction pre as [|d pre IH]; intros Hfail b.
  - now exists b.
  - destruct (IH (fun d' Hd' => Hfail d' (or_intror Hd')) false) as [b' Hb'].
    exists b'. simpl app. rewrite search_miss by (apply Hfail; now left).
    exact Hb'.
Qed.

Lemma eqb_ci_lt (d : ascii) : eqb_ci "<" d = Ascii.eqb "<" d.
Proof. destruct d as [[] [] [] [] [] [] [] []]; reflexivity. Qed.

Lemma blank_spec (ws : string) :
  blank ws = true ->
  forallb space (list_ascii_of_string ws) = true /\ list_ascii_of_string ws <> [].
Proof.
  unfold blank. intros H. apply andb_true_iff in H. destruct H as [Hne Hall].
  split; [exact Hall|]. destruct ws; [discriminate Hne|discriminate].
Qed.

Lemma value_spec (v : string) :
  v <> "" -> no_dq v = true ->
  forallb not_dq (list_ascii_of_string v) = true /\ list_ascii_of_string v <> [].
Proof.
  intros Hne Hall. split; [exact Hall|]. destruct v; [congruence|discriminate].
Qed.

Lemma m_meta_tag (name ws1 ws2 v : string) (post : list ascii) (b : bool) :
  blank ws1 = true -> blank ws2 = true -> v <> "" -> no_dq v = true ->
  m (meta_pattern name) b
    (list_ascii_of_string (meta_tag name ws1 ws2 v) ++ post) None
    (fun _ _ c => Some c)
  = Some (Some (list_ascii_of_string v)).
Proof.
  intros H1 H2 Hne Hdq.
  destruct (blank_spec ws1 H1) as [Hw1 Hn1].
  destruct (blank_spec ws2 H2) as [Hw2 Hn2].
  destruct (value_spec v Hne Hdq) as [Hv Hnv].
  unfold meta_tag, meta_pattern, lit_i.
  set (N := ("name=" ++ dq ++ name ++ dq)%string).
  set (C := ("content=" ++ dq)%string).
  rewrite !list_ascii_of_string_app, <- !app_assoc.
  cbn [m]. rewrite (m_lit_i_list _ (list_ascii_of_string "<meta")).
  apply plus_from_run; [exact Hw1|exact Hn1|reflexivity|].
  rewrite (m_lit_i_list _ (list_ascii_of_string N)).
  apply plus_from_run; [exact Hw2|exact Hn2|reflexivity|].
  rewrite (m_lit_i_list _ (list_ascii_of_string C)).
  apply plus_from_run; [exact Hv|exact Hnv|reflexivity|].
  rewrite (m_lit_i_list _ (list_ascii_of_string dq) post).
  rewrite length_app, Nat.add_sub, firstn_app, Nat.sub_diag, firstn_all.
  simpl. now rewrite app_nil_r.
Qed.

Lemma m_json_field (field v : string) (post : list ascii) (b : bool) :
  v <> "" -> no_dq v = true ->
  m (field_pattern field) b
    (list_ascii_of_string (json_field field v) ++ post) None
    (fun _ _ c => Some c)
  = Some (Some (list_ascii_of_string v)).
Proof.
  intros Hne Hdq. destruct (value_spec v Hne Hdq) as [Hv Hnv].
  unfold json_field, field_pattern, lit.
  set (F := (dq ++ field ++ dq ++ ":" ++ dq)%string).
  rewrite !list_ascii_of_string_app, <- !app_assoc.
  cbn [m]. rewrite (m_lit_list _ (list_ascii_of_string F)).
  apply plus_from_run; [exact Hv|exact Hnv|reflexivity|].
  rewrite (m_lit_list _ (list_ascii_of_string dq) post).
  rewrite length_app, Nat.add_sub, firstn_app, Nat.sub_diag, firstn_all.
  simpl. now rewrite app_nil_r.
Qed.

Lemma meta_pattern_fails (name : string) (d : ascii) (b : bool) (s : list ascii) :
  Ascii.eqb "<" d = false ->
  m (meta_pattern name) b (d :: s) None (fun _ _ c => Some c) = None.
Proof.
  intros H. unfold meta_pattern, lit_i. simpl. now rewrite eqb_ci_lt, H.
Qed.

Lemma field_pattern_fails (field : string) (d : ascii) (b : bool) (s : list ascii) :
  not_dq d = true ->
  m (field_pattern field) b (d :: s) None (fun _ _ c => Some c) = None.
Proof.
  intros H. unfold field_pattern, lit.
  destruct d as [[] [] [] [] [] [] [] []]; try discriminate H; reflexivity.
Qed.

(** X17.  A tag reads back.  When the body holds a title or author meta
    tag (white space between its parts, a content that is not empty and
    has no double quote) and no [<] comes before it, the meta pattern
    extracts exactly that content; when the body holds a quoted field with
    such a value and no double quote comes before it, the field pattern
    extracts exactly that value. *)
Theorem extract_reads_back :
  (forall name ws1 ws2 v pre post,
      blank ws1 = true -> blank ws2 = true -> v <> "" -> no_dq v = true ->
      lacks "<" pre = true ->
      extract (meta_pattern name) (pre ++ meta_tag name ws1 ws2 v ++ post)%string
      = Some v)
  /\ (forall field v pre post,
         v <> "" -> no_dq v = true -> no_dq pre = true ->
         extract (field_pattern field) (pre ++ json_field field v ++ post)%string
         = Some v).
Proof.
  split.
  - intros name ws1 ws2 v pre post H1 H2 Hne Hdq Hpre.
    unfold extract, exec. rewrite !list_ascii_of_string_app.
    destruct (search_skip (meta_pattern name) (list_ascii_of_string pre)
                (list_ascii_of_string (meta_tag name ws1 ws2 v)
                 ++ list_ascii_of_string post)) with (b := true) as [b' ->].
    { intros d Hd b s'. apply meta_pattern_fails.
      unfold lacks in Hpre. rewrite forallb_forall in Hpre.
      apply negb_true_iff. now apply Hpre. }
    rewrite (search_hit _ _ _ _ (m_meta_tag name ws1 ws2 v _ b' H1 H2 Hne Hdq)).
    simpl. now rewrite string_of_list_ascii_of_string.
  - intros field v pre post Hne Hdq Hpre.
    unfold extract, exec. rewrite !list_ascii_of_string_app.
    destruct (search_skip (field_pattern field) (list_ascii_of_string pre)
                (list_ascii_of_string (json_field field v)
                 ++ list_ascii_of_string post)) with (b := true) as [b' ->].
    { intros d Hd b s'. apply field_pattern_fails.
      unfold no_dq in Hpre. rewrite forallb_forall in Hpre. now apply Hpre. }
    rewrite (search_hit _ _ _ _ (m_json_field field v _ b' Hne Hdq)).
    simpl. now rewrite string_of_list_ascii_of_string.
Qed.

Lemma extract_reads_back_witness :
  extract (meta_pattern "title")
    ("" ++ meta_tag "title" " " " " "Hello" ++ "><body>")%string = Some "Hello"
  /\ extract (field_pattern "viewCount")
       ("{" ++ json_field "viewCount" "1234" ++ "}")%string = Some "1234".
Proof.
  split.
  - apply (proj1 extract_reads_back "title" " " " " "Hello" "" "><body>");
      try reflexivity. discriminate.
  - apply (proj2 extract_reads_back "viewCount" "1234" "{" "}");
      try reflexivity. discriminate.
Defined.

Lemma fetchBasicVideoInfo_fields_witness :
  "Hello" <> "" /\ no_dq "Hello" = true /\
  exists r, example_page_network [] (watch_request "dQw4w9WgXcQ") = Answered r /\
            ok r = true /\ occurs_in "Hello" (body_text r).
Proof.
  apply (fetchBasicVideoInfo_fields example_page_network "dQw4w9WgXcQ" []
           [watch_request "dQw4w9WgXcQ"]
           {| basic_title := Some "Hello";
              basic_channelName := None;
              basic_publishedAt := None;
              basic_viewCount := Some "1234" |} "Hello").
  - reflexivity.
  - simpl. left. reflexivity.
Defined.

Lemma tools_render_the_mappings_witness :
  run (getReplies_tool (Some "key") last_page_network None 100 time (Some "tok"))
  = (Ok (render (commentsPageMapping last_page "" 100)),
     [page_request (Some "key") (VStr "tok")])
  /\ run (getReplies_tool (Some "key")
            (example_network (Some "D") (Some example_tokens))
            (Some example_url) 2 time None)
     = (Ok (render (commentsPageMapping three_comments "dQw4w9WgXcQ" 2)),
        [info_request (Some "key") "dQw4w9WgXcQ";
         page_request (Some "key") (VStr "B")])
  /\ run (getCommentReplies_tool (Some "key") replies_network "XYZ")
     = (Ok (render (repliesPageMapping example_replies)),
        [page_request (Some "key") (VStr "XYZ")]).
Proof.
  split; [|split].
  - apply (proj1 (tools_render_the_mappings (Some "key") last_page_network
                    (Response 200 "" (Some last_page)) last_page
                    eq_refl eq_refl eq_refl eq_refl)
             None 100%Z time "tok" []); reflexivity.
  - apply (proj1 (proj2 (tools_render_the_mappings (Some "key")
                    (example_network (Some "D") (Some example_tokens))
                    (Response 200 "" (Some three_comments)) three_comments
                    eq_refl eq_refl eq_refl eq_refl))
             example_url 2%Z time
             (example_videoInfo (Some "D") (Some example_tokens)) (VStr "B")
             [] [info_request (Some "key") "dQw4w9WgXcQ"]); reflexivity.
  - apply (proj2 (proj2 (tools_render_the_mappings (Some "key") replies_network
                    (Response 200 "" (Some example_replies)) example_replies
                    eq_refl eq_refl eq_refl eq_refl))
             "XYZ" []); reflexivity.
Defined.

Lemma nextPageToken_absent_or_truthy_witness :
  (exists page t',
      run (getCommentsData (Some "key") last_page_network
             (mkCommentsParams "" (Some 100%Z) (Some time) (Some "tok")))
      = (Ok page, t') /\
      absent_or_truthy (page_nextPageToken page) /\
      page_nextPageToken page = VUndefined)
  /\ (exists page t',
         run (getRepliesData (Some "key") replies_network "XYZ")
         = (Ok page, t') /\
         absent_or_truthy (replies_nextPageToken page)).
Proof.
  split.
  - eexists. eexists. split; [reflexivity|]. split; [|reflexivity].
    eapply (proj1 (nextPageToken_absent_or_truthy (Some "key") last_page_network)
              (mkCommentsParams "" (Some 100%Z) (Some time) (Some "tok")) []).
    reflexivity.
  - eexists. eexists. split; [reflexivity|].
    eapply (proj2 (nextPageToken_absent_or_truthy (Some "key") replies_network)
              "XYZ" []).
    reflexivity.
Defined.

Lemma returned_entries_are_filled_witness :
  (exists page t',
      run (getCommentsData (Some "key")
             (example_network (Some "D") (Some example_tokens))
             (mkCommentsParams example_url (Some 2%Z) (Some time) None))
      = (Ok page, t') /\
      Forall comment_filled (comments page))
  /\ (exists page t',
         run (getRepliesData (Some "key") replies_network "XYZ")
         = (Ok page, t') /\
         nullish (parentCommentId page) = false /\
         Forall reply_filled (page_replies page)).
Proof.
  split.
  - eexists. eexists. split; [reflexivity|].
    eapply (proj1 (returned_entries_are_filled (Some "key")
                     (example_network (Some "D") (Some example_tokens)))
              (mkCommentsParams example_url (Some 2%Z) (Some time) None) []).
    reflexivity.
  - eexists. eexists. split; [reflexivity|].
    eapply (proj2 (returned_entries_are_filled (Some "key") replies_network)
              "XYZ" []).
    reflexivity.
Defined.
